(** * huggingface-bedrock-importer: the import pipeline of [importer.py]

    A shallow embedding of [huggingface_bedrock_importer/importer.py].
    Python [str] values are lists of Unicode code points, the remote
    services (S3, IAM, Bedrock, the Hugging Face hub) are records of
    oracles, and every function of the module that talks to them runs in
    a small trace-and-exception monad: the trace records the remote calls
    and the console output in program order, the outcome is the value
    returned or the exception raised.  [cli.py] and the two functions of
    [importer.py] that only it calls are embedded in a second layer,
    whose runs may also end by [sys.exit]. *)

From Stdlib Require Import ZArith NArith Lia Bool Ascii String DecimalString.
From stdpp Require Import base option list strings gmap.

Open Scope N_scope.
Open Scope list_scope.

(** ** Python strings *)

(** A Python [str] is a sequence of code points. *)
Abbreviation str := (list N).

(** [py "text"] is the [str] literal with the given ASCII text. *)
Definition py (s : string) : str :=
  map N_of_ascii (list_ascii_of_string s).

Definition sep : N := 47.      (* '/' *)
Definition hyphen : N := 45.   (* '-' *)
Definition empty : str := [].
Definition dot : str := [46].
Definition dotdot : str := [46; 46].

Definition str_eqb (a b : str) : bool := bool_decide (a = b).

(** [s.startswith(p)] *)
Fixpoint startswith (s p : str) {struct p} : bool :=
  match p, s with
  | [], _ => true
  | _ :: _, [] => false
  | a :: p', b :: s' => (a =? b) && startswith s' p'
  end.

(** [s.endswith(p)] *)
Definition endswith (s p : str) : bool := startswith (rev s) (rev p).

(** [s.removeprefix(p)] *)
Definition removeprefix (s p : str) : str :=
  if startswith s p then drop (length p) s else s.

(** [s.split(c)] for a one-character separator: never the empty list. *)
Fixpoint split (c : N) (s : str) : list str :=
  match s with
  | [] => [[]]
  | x :: s' =>
      if x =? c then [] :: split c s'
      else match split c s' with
           | w :: ws => (x :: w) :: ws
           | [] => [[x]]
           end
  end.

(** [s.split(c, maxsplit=1)]: cut at the first separator only. *)
Fixpoint split1 (c : N) (s : str) : list str :=
  match s with
  | [] => [[]]
  | x :: s' =>
      if x =? c then [[]; s']
      else match split1 c s' with
           | w :: ws => (x :: w) :: ws
           | [] => [[x]]
           end
  end.

(** [c.join(l)] *)
Fixpoint join (c : str) (l : list str) : str :=
  match l with
  | [] => []
  | [w] => w
  | w :: l' => w ++ c ++ join c l'
  end.

(** [s[:n]] for a non-negative [n]. *)
Definition slice_to (n : nat) (s : str) : str := take n s.

(** ** [os.path] on POSIX *)

(** The body of the loop of [posixpath.normpath]: [new_comps] is the
    Python list being built, appended to and popped at its end. *)
Definition normpath_step (initial_slashes : nat) (new_comps : list str)
    (comp : str) : list str :=
  if str_eqb comp empty || str_eqb comp dot then new_comps
  else if negb (str_eqb comp dotdot)
          || (Nat.eqb initial_slashes 0 && bool_decide (new_comps = []))
          || (negb (bool_decide (new_comps = []))
              && bool_decide (last new_comps = Some dotdot))
       then new_comps ++ [comp]
       else if negb (bool_decide (new_comps = [])) then removelast new_comps
       else new_comps.

(** [posixpath.normpath]: one or two leading slashes are kept, three or
    more count as one; empty and [.] components are dropped, [..]
    cancels the component before it. *)
Definition normpath (path : str) : str :=
  if str_eqb path empty then dot
  else
    let initial_slashes : nat :=
      if startswith path [sep] then
        if startswith path [sep; sep] && negb (startswith path [sep; sep; sep])
        then 2%nat else 1%nat
      else 0%nat in
    let comps := fold_left (normpath_step initial_slashes) (split sep path) [] in
    let path' := replicate initial_slashes sep ++ join [sep] comps in
    if str_eqb path' empty then dot else path'.

(** [posixpath.join(a, b)] *)
Definition path_join (a b : str) : str :=
  if startswith b [sep] then b
  else if str_eqb a empty || endswith a [sep] then a ++ b
  else a ++ [sep] ++ b.

(** ** Decimal numerals

    The number that a text of ASCII digits stands for, most significant
    digit first; [acc] is the value read so far.  The sample worlds read
    the error codes of S3 with it. *)
Definition is_digit (c : N) : bool := (48 <=? c) && (c <=? 57).

Fixpoint read_digits (acc : Z) (s : str) : Z :=
  match s with
  | [] => acc
  | c :: s' => read_digits (10 * acc + Z.of_N (c - 48)) s'
  end.

(** [str(n)] for an [int]. *)
Definition str_of_int (n : Z) : str :=
  py (DecimalString.NilZero.string_of_int (Z.to_int n)).

(** ** Exceptions, traces and the effect monad *)

(** The exceptions the module meets.  [ClientError] stands for
    [botocore.exceptions.ClientError] and its per-service subclasses
    ([NoSuchEntityException], [ResourceNotFoundException], ...), told
    apart by [e.response["Error"]["Code"]]; [OtherError] is any other
    subclass of [Exception] (connection and parameter-validation
    errors of botocore among them). *)
Inductive exn :=
| ClientError (code message : str)
| ValueError (message : str)
| KeyError (key : str)
| UnboundLocalError (name : str)
| PyException (message : str)
| OtherError (message : str).

(** What a run leaves behind, in program order: console output and the
    calls made to the outside. *)
Inductive event :=
| Print (text : str)
| Sleep (secs : Z)
| SnapshotDownload (repo_id : str)
| HeadObject (bucket key : str)
| ProgressBar (total : Z)
| Upload (filename bucket key : str)
| GetRole (role_name : str)
| CreateRole (role_name : str)
| PutRolePolicy (role_name policy_name bucket : str)
| GetImportedModel (model_identifier : str)
| CreateModelImportJob (job_name imported_model_name role_arn s3_uri : str)
| GetModelImportJob (job_identifier : option str)
| DeleteRolePolicy (role_name policy_name : str)
| DeleteRole (role_name : str)
| DeleteCustomModel (model_identifier : str)
| DeleteObjects (bucket prefix : str).

Inductive outcome (A : Type) :=
| Returned (a : A)
| Raised (e : exn)
| OutOfFuel.
Arguments Returned {A} a.
Arguments Raised {A} e.
Arguments OutOfFuel {A}.

Definition M (A : Type) : Type := list event * outcome A.

Definition ret {A} (a : A) : M A := ([], Returned a).
Definition raise {A} (e : exn) : M A := ([], Raised e).
Definition out_of_fuel {A} : M A := ([], OutOfFuel).
Definition emit (ev : event) : M unit := ([ev], Returned tt).

Definition bind {A B} (m : M A) (f : A -> M B) : M B :=
  match m with
  | (t, Returned a) => let '(t', r) := f a in (t ++ t', r)
  | (t, Raised e) => (t, Raised e)
  | (t, OutOfFuel) => (t, OutOfFuel)
  end.

Declare Scope imp_scope.
Delimit Scope imp_scope with imp.
Notation "x <- m ;; k" := (bind m (fun x => k))
  (at level 100, m at next level, k at level 200, right associativity) : imp_scope.
Notation "m ;; k" := (bind m (fun _ => k))
  (at level 100, k at level 200, right associativity) : imp_scope.
Open Scope imp_scope.

(** [try: body except ...: handler]: [handler e = None] when no
    [except] clause matches [e]. *)
Definition try_except {A} (body : M A) (handler : exn -> option (M A)) : M A :=
  match body with
  | (t, Raised e) =>
      match handler e with
      | Some k => let '(t', r) := k in (t ++ t', r)
      | None => (t, Raised e)
      end
  | _ => body
  end.

(** The answer of a remote call. *)
Inductive reply (A : Type) :=
| Reply (a : A)
| Fault (e : exn).
Arguments Reply {A} a.
Arguments Fault {A} e.

Definition call {A} (ev : event) (r : reply A) : M A :=
  match r with
  | Reply a => ([ev], Returned a)
  | Fault e => ([ev], Raised e)
  end.

(** A call that leaves nothing in the trace: the making of a client. *)
Definition made {A} (r : reply A) : M A :=
  match r with
  | Reply a => ret a
  | Fault e => raise e
  end.

Definition trace {A} (m : M A) : list event := fst m.
Definition result {A} (m : M A) : outcome A := snd m.

(** ** The outside world *)

(** A JSON object of strings, as the Bedrock calls answer. *)
Abbreviation dict := (gmap (list N) (list N)).

(** [d[key]] *)
Definition getitem (d : dict) (key : str) : M str :=
  match d !! key with
  | Some v => ret v
  | None => raise (KeyError key)
  end.

Record role := { RoleName : str; Arn : str }.

Record world := {
  (* int(s) for a [str]: what it reads depends on the interpreter, on
     its table of decimal digits and on its limit on the number of
     digits, and its [ValueError] quotes the text by [repr] *)
  python_int : str -> reply Z;
  (* boto3.client(name) and boto3.resource(name) for the clients that
     [cleanup_aws_resources] makes between its guarded blocks; the
     client that a function makes before its first call is taken to be
     made, and the function is modelled from there on *)
  boto3_client : str -> reply unit;
  boto3_resource : str -> reply unit;
  (* huggingface_hub.snapshot_download(repo_id) *)
  snapshot_download : str -> reply str;
  (* the files [os.walk(local_path)] meets, in its order, as the paths
     [os.path.relpath] gives them *)
  walk : str -> list str;
  (* os.stat(path).st_size *)
  st_size : str -> Z;
  (* time.time_ns() *)
  time_ns : Z;
  (* S3 *)
  head_object : str -> str -> reply unit;
  delete_objects : str -> str -> reply unit;
  (* IAM *)
  get_role : str -> reply role;
  create_role : str -> reply role;
  put_role_policy : str -> str -> str -> reply unit;
  delete_role_policy : str -> str -> reply unit;
  delete_role : str -> reply unit;
  (* Bedrock; the status checks of one run are numbered from 0 *)
  get_imported_model : str -> reply dict;
  create_model_import_job : str -> str -> str -> str -> reply dict;
  get_model_import_job : nat -> option str -> reply dict;
  delete_custom_model : str -> reply unit
}.

Definition nl : str := [10].

(** [print(text)] *)
Definition print (text : str) : M unit := emit (Print (text ++ nl)).
(** [print(text, end="")] *)
Definition print_noend (text : str) : M unit := emit (Print text).

Definition IMPORT_MODEL_ROLE_NAME : str := py "MyImportModelRole".

(** ** The functions of [importer.py] *)

(** [a, b = l] for a list of strings. *)
Definition unpack2 (l : list str) : M (str * str) :=
  match l with
  | [a; b] => ret (a, b)
  | [] | [_] =>
      raise (ValueError (py "not enough values to unpack (expected 2, got "
                         ++ str_of_int (Z.of_nat (length l)) ++ py ")"))
  | _ => raise (ValueError (py "too many values to unpack (expected 2)"))
  end.

(** [s3_uri_to_bucket_and_key]: despite its annotation the function
    returns the list that [str.split] builds. *)
Definition s3_uri_to_bucket_and_key (s3_uri : str) : list str :=
  split1 sep (normpath (removeprefix s3_uri (py "s3://"))).

(** The character class [[-a-zA-Z0-9]] of [sanitize_model_id]. *)
Definition in_class (c : N) : bool :=
  (c =? hyphen) || ((97 <=? c) && (c <=? 122)) || ((65 <=? c) && (c <=? 90))
  || ((48 <=? c) && (c <=? 57)).

(** [re.sub(r'[^-a-zA-Z0-9]', "-", model_id)] *)
Definition sanitize_model_id (model_id : str) : str :=
  map (fun c => if in_class c then c else hyphen) model_id.

Section Importer.

Variable w : world.

(** [repr(e)] of an exception, as the messages of the clean-up show it. *)
Variable repr : exn -> str.

(** [fast_upload]: one transfer is handed to the transfer manager for
    every file of [files], in order. *)
Fixpoint fast_upload (s3_bucket s3_prefix local_path : str) (files : list str)
    : M unit :=
  match files with
  | [] => ret tt
  | src :: files' =>
      let dst := path_join s3_prefix src in
      emit (Upload (path_join local_path src) s3_bucket dst) ;;
      fast_upload s3_bucket s3_prefix local_path files'
  end.

(** [download_model] *)
Definition download_model (model_id : str) : M str :=
  print (py "Downloading model " ++ model_id ++ py " from Hugging Face...") ;;
  local_path <- call (SnapshotDownload model_id) (snapshot_download w model_id) ;;
  print (py "Model downloaded to " ++ local_path ++ py ".") ;;
  ret local_path.

(** The handler of the existence probe of [upload_to_s3]: only a
    [ClientError] is caught; its code is read with [int], and what
    [int] raises leaves the handler. *)
Definition probe_handler (files_to_upload : list str) (relative_file_path : str)
    (e : exn) : option (M (list str)) :=
  match e with
  | ClientError code _ =>
      Some (match python_int w code with
            | Fault raised => raise raised
            | Reply n =>
                if (n =? 404)%Z
                then ret (files_to_upload ++ [relative_file_path])
                else ret files_to_upload
            end)
  | _ => None
  end.

(** The walk of [upload_to_s3] over the local files: [files_to_upload]
    is the list collected so far. *)
Fixpoint probe_files (upload_s3_bucket upload_s3_key : str) (files : list str)
    (files_to_upload : list str) : M (list str) :=
  match files with
  | [] => ret files_to_upload
  | relative_file_path :: files' =>
      files_to_upload' <-
        try_except
          (call (HeadObject upload_s3_bucket
                   (upload_s3_key ++ [sep] ++ relative_file_path))
                (head_object w upload_s3_bucket
                   (upload_s3_key ++ [sep] ++ relative_file_path)) ;;
           ret files_to_upload)
          (probe_handler files_to_upload relative_file_path) ;;
      probe_files upload_s3_bucket upload_s3_key files' files_to_upload'
  end.

(** [upload_to_s3] *)
Definition upload_to_s3 (local_path s3_bucket model_name : str) : M str :=
  let model_prefix := py "models/" ++ model_name in
  pair <- unpack2 (s3_uri_to_bucket_and_key (s3_bucket ++ [sep] ++ model_prefix)) ;;
  let '(upload_s3_bucket, upload_s3_key) := pair in
  let upload_location := py "s3://" ++ upload_s3_bucket ++ [sep] ++ upload_s3_key in
  print (py "Uploading model files to " ++ upload_location ++ py "...") ;;
  files_to_upload <-
    probe_files upload_s3_bucket upload_s3_key (walk w local_path) [] ;;
  (match files_to_upload with
   | _ :: _ =>
       let totalsize :=
         foldr Z.add 0%Z
           (map (fun f => st_size w (local_path ++ [sep] ++ f)) files_to_upload) in
       emit (ProgressBar totalsize) ;;
       fast_upload upload_s3_bucket upload_s3_key local_path files_to_upload
   | [] => print (py "All model files already uploaded.")
   end) ;;
  ret upload_location.

(** [get_bedrock_import_role]; the two policy documents are fixed but
    for the bucket, which the event of [put_role_policy] carries. *)
Definition get_bedrock_import_role (s3_bucket : str) : M str :=
  found <-
    try_except
      (role_response <- call (GetRole IMPORT_MODEL_ROLE_NAME)
                             (get_role w IMPORT_MODEL_ROLE_NAME) ;;
       ret (Some (Arn role_response)))
      (fun e => match e with
                | ClientError code _ =>
                    if str_eqb code (py "NoSuchEntity") then Some (ret None) else None
                | _ => None
                end) ;;
  match found with
  | Some arn => ret arn
  | None =>
      create_role_response <-
        call (CreateRole IMPORT_MODEL_ROLE_NAME) (create_role w IMPORT_MODEL_ROLE_NAME) ;;
      let name := RoleName create_role_response in
      call (PutRolePolicy name (name ++ py "S3BucketPolicy") s3_bucket)
           (put_role_policy w name (name ++ py "S3BucketPolicy") s3_bucket) ;;
      ret (Arn create_role_response)
  end.

Definition sleep_time : Z := 10.

(** The [while wait_secs < 3600] loop of [create_bedrock_model].
    [checks] counts the status checks made so far and [job_response] is
    the variable of that name, unbound before the first check.  The loop
    gives back [job_response] as it stands when the loop is left, by
    [break] or by its condition. *)
Fixpoint poll_loop (fuel : nat) (job_arn : option str) (wait_secs : Z)
    (checks : nat) (job_response : option dict) : M (option dict) :=
  if (wait_secs <? 3600)%Z then
    match fuel with
    | O => out_of_fuel
    | S fuel' =>
        print_noend (py ".") ;;
        emit (Sleep sleep_time) ;;
        let wait_secs' := (wait_secs + sleep_time)%Z in
        job_response' <- call (GetModelImportJob job_arn)
                              (get_model_import_job w checks job_arn) ;;
        status <- getitem job_response' (py "status") ;;
        if negb (str_eqb status (py "InProgress")) then
          print (py "") ;;
          match job_response' !! py "failureMessage" with
          | Some failureMessage =>
              print (py "Failed to import model: " ++ failureMessage) ;;
              raise (PyException (py "Failed to import model: " ++ failureMessage))
          | None => ret (Some job_response')
          end
        else poll_loop fuel' job_arn wait_secs' (S checks) (Some job_response')
    end
  else ret job_response.

(** Iterations granted to the loop: one for every time-unit below the
    ceiling; [poll_loop_fuel] shows that they are never used up. *)
Definition poll_fuel : nat := 3600.

(** The rest of [create_bedrock_model] once the look-up has found no
    model: the submission of the job, the wait and the reading of the
    last answer. *)
Definition submit_and_wait (s3_uri model_name role_arn : str) : M str :=
  let job_name :=
    py "import-" ++ slice_to 20 model_name ++ py "-" ++ str_of_int (time_ns w) in
  print (py "Creating Bedrock model import job with name " ++ job_name ++ py "...") ;;
  create_job_response <-
    call (CreateModelImportJob job_name model_name role_arn s3_uri)
         (create_model_import_job w job_name model_name role_arn s3_uri) ;;
  let job_arn := create_job_response !! py "jobArn" in
  print_noend (py "Waiting while model import job is in progress (depending on the model size this may take some time)..") ;;
  last <- poll_loop poll_fuel job_arn 0 0 None ;;
  match last with
  | None => raise (UnboundLocalError (py "job_response"))
  | Some job_response =>
      status <- getitem job_response (py "status") ;;
      print (py "Finished model import with status '" ++ status ++ py "'") ;;
      model_arn <- getitem job_response (py "importedModelArn") ;;
      print (py "Imported model ARN: " ++ model_arn) ;;
      ret model_arn
  end.

(** [create_bedrock_model]: the look-up of an existing model, then
    [submit_and_wait]. *)
Definition create_bedrock_model (s3_uri model_name role_arn : str) : M str :=
  existing <-
    try_except
      (model_response <- call (GetImportedModel model_name)
                              (get_imported_model w model_name) ;;
       print (py "Model " ++ model_name ++ py " already exists, skipping import.") ;;
       model_arn <- getitem model_response (py "modelArn") ;;
       print (py "Imported model ARN: " ++ model_arn) ;;
       ret (Some model_arn))
      (fun e => match e with
                | ClientError _ _ => Some (ret None)
                | _ => None
                end) ;;
  match existing with
  | Some model_arn => ret model_arn
  | None => submit_and_wait s3_uri model_name role_arn
  end.

(** [try: body except Exception as e: print(f"{text}{repr(e)}")] *)
Definition best_effort (body : M unit) (text : str) : M unit :=
  try_except body (fun e => Some (print (text ++ repr e))).

(** [cleanup_aws_resources]: the clients of the second and of the third
    action are made between the guarded blocks, where nothing catches
    what the making raises. *)
Definition cleanup_aws_resources (s3_uri model_id : str) : M unit :=
  print (py "Cleaning up resources...") ;;
  best_effort
    (call (DeleteRolePolicy IMPORT_MODEL_ROLE_NAME (py "MyImportModelRoleS3BucketPolicy"))
          (delete_role_policy w IMPORT_MODEL_ROLE_NAME
             (py "MyImportModelRoleS3BucketPolicy")) ;;
     call (DeleteRole IMPORT_MODEL_ROLE_NAME) (delete_role w IMPORT_MODEL_ROLE_NAME) ;;
     print (py "Deleted role."))
    (py "Unable to delete role: ") ;;
  made (boto3_client w (py "bedrock")) ;;
  best_effort
    (call (DeleteCustomModel model_id) (delete_custom_model w model_id) ;;
     print (py "Deleted Bedrock custom model."))
    (py "Unable to delete Bedrock custom model: ") ;;
  made (boto3_resource w (py "s3")) ;;
  best_effort
    (pair <- unpack2 (s3_uri_to_bucket_and_key s3_uri) ;;
     let '(bucket, prefix) := pair in
     let prefix' := normpath (prefix ++ py "/models/" ++ model_id) in
     call (DeleteObjects bucket prefix') (delete_objects w bucket prefix') ;;
     print (py "Deleted S3 prefix with model files."))
    (py "Unable to delete S3 prefix: ").

(** [import_model_to_bedrock] *)
Definition import_model_to_bedrock (model_id s3_bucket : str) : M str :=
  local_path <- download_model model_id ;;
  let model_name := sanitize_model_id model_id in
  s3_uri <- upload_to_s3 local_path s3_bucket model_name ;;
  bucket <- match s3_uri_to_bucket_and_key s3_uri with
            | b :: _ => ret b
            | [] => raise (OtherError (py "IndexError"))
            end ;;
  role_arn <- get_bedrock_import_role bucket ;;
  create_bedrock_model s3_uri model_name role_arn.

End Importer.

(** ** Reading traces *)

Definition is_upload (ev : event) : bool :=
  match ev with Upload _ _ _ => true | _ => false end.

Definition is_submission (ev : event) : bool :=
  match ev with CreateModelImportJob _ _ _ _ => true | _ => false end.

Definition is_status_check (ev : event) : bool :=
  match ev with GetModelImportJob _ => true | _ => false end.

(** How many events of a trace satisfy [p]. *)
Fixpoint count (p : event -> bool) (t : list event) : nat :=
  match t with
  | [] => 0
  | ev :: t' => (if p ev then 1 else 0) + count p t'
  end.

(** Time slept along a trace. *)
Fixpoint slept (t : list event) : Z :=
  match t with
  | [] => 0
  | Sleep secs :: t' => secs + slept t'
  | _ :: t' => slept t'
  end.

(** One turn of the loop, by the answer to its status check. *)
Definition poll_turn (w : world) (fuel : nat) (job_arn : option str) (wait_secs : Z)
    (checks : nat) : M (option dict) :=
  let head := [Print (py "."); Sleep 10; GetModelImportJob job_arn] in
  match get_model_import_job w checks job_arn with
  | Fault e => (head, Raised e)
  | Reply job_response =>
      match job_response !! py "status" with
      | None => (head, Raised (KeyError (py "status")))
      | Some status =>
          if bool_decide (status = py "InProgress") then
            let rest := poll_loop w fuel job_arn (wait_secs + 10) (S checks)
                          (Some job_response) in
            (head ++ trace rest, result rest)
          else
            match job_response !! py "failureMessage" with
            | Some m =>
                (head ++ [Print nl; Print (py "Failed to import model: " ++ m ++ nl)],
                 Raised (PyException (py "Failed to import model: " ++ m)))
            | None => (head ++ [Print nl], Returned (Some job_response))
            end
      end
  end.

(** Events that neither sleep nor check the status of a job. *)
Definition quiet (ev : event) : bool :=
  match ev with
  | Sleep _ | GetModelImportJob _ => false
  | _ => true
  end.

(** A run that checks the status of a job at most [k] times, sleeps ten
    time-units for each check, and comes to an end. *)
Definition wait_bounded {A} (k : nat) (m : M A) : Prop :=
  (count is_status_check (trace m) <= k)%nat /\
  slept (trace m) = (10 * Z.of_nat (count is_status_check (trace m)))%Z /\
  result m <> OutOfFuel.

(** ** Sample worlds *)

(** The reading of [int] in the sample worlds, whose codes are ASCII
    numerals or the names of errors: a text of ASCII digits is its
    number, and any other text is turned down with the message of
    [int], which quotes a text of letters as it stands. *)
Definition sample_int (code : str) : reply Z :=
  if negb (str_eqb code empty) && forallb is_digit code
  then Reply (read_digits 0 code)
  else Fault (ValueError (py "invalid literal for int() with base 10: '" ++ code
                          ++ py "'")).

(** A world given by the local files, the answers of the existence
    probe, of the model look-up and of the status checks, and the
    answers to the three deletions of the clean-up; every other call
    succeeds. *)
Definition sample_world (files : list str) (probe : str -> str -> reply unit)
    (lookup : str -> reply dict) (status : nat -> reply dict)
    (drop_policy drop_model drop_objects : reply unit) : world :=
  {| python_int := sample_int;
     boto3_client := fun _ => Reply tt;
     boto3_resource := fun _ => Reply tt;
     snapshot_download := fun _ => Reply (py "/cache/snapshot");
     walk := fun _ => files;
     st_size := fun _ => 1%Z;
     time_ns := 1730000000000000000%Z;
     head_object := probe;
     delete_objects := fun _ _ => drop_objects;
     get_role := fun name =>
       Reply {| RoleName := name; Arn := py "arn:aws:iam::role/" ++ name |};
     create_role := fun name =>
       Reply {| RoleName := name; Arn := py "arn:aws:iam::role/" ++ name |};
     put_role_policy := fun _ _ _ => Reply tt;
     delete_role_policy := fun _ _ => drop_policy;
     delete_role := fun _ => Reply tt;
     get_imported_model := lookup;
     create_model_import_job := fun _ _ _ _ =>
       Reply {[ py "jobArn" := py "arn:aws:bedrock:job/1" ]};
     get_model_import_job := fun i _ => status i;
     delete_custom_model := fun _ => drop_model |}.

Definition not_found : exn :=
  ClientError (py "ResourceNotFoundException") (py "model not found").

Definition in_progress : dict :=
  {[ py "status" := py "InProgress" ]}.

(** An answer that is still in progress and already names the model. *)
Definition in_progress_named : dict :=
  <[ py "importedModelArn" := py "arn:aws:bedrock:imported-model/m" ]> in_progress.

Definition complete : dict :=
  <[ py "importedModelArn" := py "arn:aws:bedrock:imported-model/m" ]>
    {[ py "status" := py "Complete" ]}.

Definition failed : dict :=
  <[ py "failureMessage" := py "bad weights" ]> {[ py "status" := py "Failed" ]}.

(** Status sequence [InProgress, InProgress, Complete]. *)
Definition three_checks_world : world :=
  sample_world [] (fun _ _ => Reply tt) (fun _ => Fault not_found)
    (fun i => match i with
              | 0%nat | 1%nat => Reply in_progress
              | _ => Reply complete
              end)
    (Reply tt) (Reply tt) (Reply tt).

(** A job that never leaves "InProgress". *)
Definition timeout_world (answer : dict) : world :=
  sample_world [] (fun _ _ => Reply tt) (fun _ => Fault not_found)
    (fun _ => Reply answer) (Reply tt) (Reply tt) (Reply tt).

(** A job that fails at its second status check. *)
Definition failing_world : world :=
  sample_world [] (fun _ _ => Reply tt) (fun _ => Fault not_found)
    (fun i => match i with 0%nat => Reply in_progress | _ => Reply failed end)
    (Reply tt) (Reply tt) (Reply tt).

(** A destination model of the looked-up name exists already. *)
Definition existing_world : world :=
  sample_world [] (fun _ _ => Reply tt)
    (fun _ => Reply {[ py "modelArn" := py "arn:aws:bedrock:imported-model/old" ]})
    (fun _ => Reply complete) (Reply tt) (Reply tt) (Reply tt).

(** The model look-up is refused for lack of permission. *)
Definition denied_lookup_world : world :=
  sample_world [] (fun _ _ => Reply tt)
    (fun _ => Fault (ClientError (py "AccessDeniedException") (py "not authorized")))
    (fun _ => Reply complete) (Reply tt) (Reply tt) (Reply tt).

(** ** The three actions of the clean-up, each by the answers to its
    own calls *)

Definition POLICY_NAME : str := py "MyImportModelRoleS3BucketPolicy".

(** Removal of the inline policy and of the role. *)
Definition role_teardown (repr : exn -> str) (policy_answer role_answer : reply unit)
    : list event :=
  DeleteRolePolicy IMPORT_MODEL_ROLE_NAME POLICY_NAME ::
  match policy_answer with
  | Fault e => [Print (py "Unable to delete role: " ++ repr e ++ nl)]
  | Reply _ =>
      DeleteRole IMPORT_MODEL_ROLE_NAME ::
      match role_answer with
      | Fault e => [Print (py "Unable to delete role: " ++ repr e ++ nl)]
      | Reply _ => [Print (py "Deleted role." ++ nl)]
      end
  end.

(** Removal of the model registration. *)
Definition model_teardown (repr : exn -> str) (model_id : str)
    (model_answer : reply unit) : list event :=
  [DeleteCustomModel model_id;
   match model_answer with
   | Fault e => Print (py "Unable to delete Bedrock custom model: " ++ repr e ++ nl)
   | Reply _ => Print (py "Deleted Bedrock custom model." ++ nl)
   end].

(** Removal of the staged objects: the deletion is asked for only when
    the location yields a bucket and a key. *)
Definition objects_teardown (repr : exn -> str) (s3_uri model_id : str)
    (objects_answer : str -> str -> reply unit) : list event :=
  match s3_uri_to_bucket_and_key s3_uri with
  | [bucket; prefix] =>
      let prefix' := normpath (prefix ++ py "/models/" ++ model_id) in
      [DeleteObjects bucket prefix';
       match objects_answer bucket prefix' with
       | Fault e => Print (py "Unable to delete S3 prefix: " ++ repr e ++ nl)
       | Reply _ => Print (py "Deleted S3 prefix with model files." ++ nl)
       end]
  | _ =>
      [Print (py "Unable to delete S3 prefix: "
              ++ repr (ValueError (py "not enough values to unpack (expected 2, got 1)"))
              ++ nl)]
  end.




(** The role is gone already; the model and the objects can be deleted. *)
Definition no_role_world : world :=
  sample_world [] (fun _ _ => Reply tt) (fun _ => Fault not_found)
    (fun _ => Reply complete)
    (Fault (ClientError (py "NoSuchEntity") (py "role not found")))
    (Reply tt) (Reply tt).

(** [repr] of an exception, shortened to the name of its class. *)
Definition class_name (e : exn) : str :=
  match e with
  | ClientError _ _ => py "ClientError"
  | ValueError _ => py "ValueError"
  | KeyError _ => py "KeyError"
  | UnboundLocalError _ => py "UnboundLocalError"
  | PyException _ => py "Exception"
  | OtherError _ => py "Error"
  end.

(** ** The existence probe of the stager *)

(** What [upload_to_s3] makes of the answer to one probe: the object is
    there, it is missing and the file joins the upload, the failure is
    passed over, or the stage call ends with an exception. *)
Inductive probe_answer :=
| Present
| Missing
| Skipped
| Fatal (e : exn).

Definition classify (w : world) (answer : reply unit) : probe_answer :=
  match answer with
  | Reply _ => Present
  | Fault (ClientError code _) =>
      match python_int w code with
      | Fault raised => Fatal raised
      | Reply n => if (n =? 404)%Z then Missing else Skipped
      end
  | Fault e => Fatal e
  end.

Definition probe (w : world) (bucket key file : str) : probe_answer :=
  classify w (head_object w bucket (key ++ [sep] ++ file)).

Definition is_fatal (a : probe_answer) : bool :=
  match a with Fatal _ => true | _ => false end.

(** The file delta: the files whose probe says the object is missing. *)
Fixpoint delta (w : world) (bucket key : str) (files : list str) : list str :=
  match files with
  | [] => []
  | f :: files' =>
      match probe w bucket key f with
      | Missing => f :: delta w bucket key files'
      | _ => delta w bucket key files'
      end
  end.

Definition probes (bucket key : str) (files : list str) : list event :=
  map (fun f => HeadObject bucket (key ++ [sep] ++ f)) files.

Definition uploads (local_path bucket key : str) (files : list str) : list event :=
  map (fun f => Upload (path_join local_path f) bucket (path_join key f)) files.

(** The events of a trace that satisfy [p], in order. *)
Fixpoint keep (p : event -> bool) (t : list event) : list event :=
  match t with
  | [] => []
  | ev :: t' => if p ev then ev :: keep p t' else keep p t'
  end.

(** A failure of the probe that says the object is not there. *)
Definition not_found_error (w : world) (e : exn) : Prop :=
  exists code message,
    e = ClientError code message /\ python_int w code = Reply 404%Z.

(** The reading of the stager under which every failed probe other than
    "not found" ends the stage call with an exception. *)
Definition probe_failures_propagate (w : world) (local_path s3_bucket model_name : str)
    : Prop :=
  forall (bucket key file : str) (e : exn),
    s3_uri_to_bucket_and_key (s3_bucket ++ [sep] ++ py "models/" ++ model_name)
    = [bucket; key] ->
    file ∈ walk w local_path ->
    head_object w bucket (key ++ [sep] ++ file) = Fault e ->
    ~ not_found_error w e ->
    exists e', result (upload_to_s3 w local_path s3_bucket model_name) = Raised e'.

(** Three local files; the probe of every object is refused with 403. *)
Definition forbidden_world : world :=
  sample_world [py "config.json"; py "model.safetensors"; py "tokenizer.json"]
    (fun _ _ => Fault (ClientError (py "403") (py "Forbidden")))
    (fun _ => Fault not_found) (fun _ => Reply complete)
    (Reply tt) (Reply tt) (Reply tt).

(** Three local files, all staged already. *)
Definition staged_world : world :=
  sample_world [py "config.json"; py "model.safetensors"; py "tokenizer.json"]
    (fun _ _ => Reply tt)
    (fun _ => Fault not_found) (fun _ => Reply complete)
    (Reply tt) (Reply tt) (Reply tt).

(** Three local files: the first is staged, the second is missing, the
    probe of the third is refused with 403. *)
Definition mixed_world : world :=
  sample_world [py "config.json"; py "model.safetensors"; py "tokenizer.json"]
    (fun _ key =>
       if str_eqb key (py "models/foo-bar-1/config.json") then Reply tt
       else if str_eqb key (py "models/foo-bar-1/model.safetensors")
            then Fault (ClientError (py "404") (py "Not Found"))
            else Fault (ClientError (py "403") (py "Forbidden")))
    (fun _ => Fault not_found) (fun _ => Reply complete)
    (Reply tt) (Reply tt) (Reply tt).

(** Two local files: the first is staged, the probe of the second fails
    for want of a connection. *)
Definition offline_world : world :=
  sample_world [py "config.json"; py "model.safetensors"]
    (fun _ key =>
       if str_eqb key (py "models/foo-bar-1/config.json") then Reply tt
       else Fault (OtherError (py "EndpointConnectionError")))
    (fun _ => Fault not_found) (fun _ => Reply complete)
    (Reply tt) (Reply tt) (Reply tt).

(** A probe that lets the walk go on without adding the file: the
    object is there, or the probe raised a [ClientError] whose code reads
    as an integer other than 404. *)
Definition passed_over (w : world) (bucket key file : str) : Prop :=
  head_object w bucket (key ++ [sep] ++ file) = Reply tt \/
  exists code message n,
    head_object w bucket (key ++ [sep] ++ file) = Fault (ClientError code message) /\
    python_int w code = Reply n /\ n <> 404%Z.

(** A probe that lets the walk go on: the object is there, or the probe
    raised a [ClientError] whose code reads as an integer. *)
Definition harmless (w : world) (bucket key file : str) : Prop :=
  head_object w bucket (key ++ [sep] ++ file) = Reply tt \/
  exists code message n,
    head_object w bucket (key ++ [sep] ++ file) = Fault (ClientError code message) /\
    python_int w code = Reply n.

(** ** Path components *)

(** A component that [normpath] keeps where it stands: not empty, free
    of ['/'], and neither [.] nor [..]. *)
Definition plain (comp : str) : Prop :=
  comp <> empty /\ (sep ∉ comp) /\ comp <> dot /\ comp <> dotdot.

(** The components [normpath] collects: not empty and free of ['/']. *)
Definition kept (comp : str) : Prop := comp <> empty /\ (sep ∉ comp).

(** A decomposition as C7 wants it: a bucket and a key, the bucket not
    empty.  [s3_uri_to_bucket_and_key] has no [raise] and calls nothing
    that raises on a [str], so it answers every location with a list;
    rejecting a location is beyond it. *)
Definition validated (parts : list str) : Prop :=
  exists bucket key, parts = [bucket; key] /\ bucket <> empty.

(** ** Staging against reclamation *)

(** Where [import_model_to_bedrock] stages the files of [model_id]: the
    decomposition that [upload_to_s3] makes of the destination, called
    with the sanitized identifier. *)
Definition staging_root (s3_uri model_id : str) : list str :=
  s3_uri_to_bucket_and_key
    (s3_uri ++ [sep] ++ py "models/" ++ sanitize_model_id model_id).

(** The bucket and the prefix that the third action of
    [cleanup_aws_resources] asks S3 to clear, if it gets that far. *)
Definition cleanup_target (s3_uri model_id : str) : option (str * str) :=
  match s3_uri_to_bucket_and_key s3_uri with
  | [bucket; prefix] =>
      Some (bucket, normpath (prefix ++ py "/models/" ++ model_id))
  | _ => None
  end.

(** Deletion by prefix: the object [key] of [bucket] falls under the
    target. *)
Definition covers (target : option (str * str)) (bucket key : str) : bool :=
  match target with
  | Some (b, prefix) => str_eqb b bucket && startswith key prefix
  | None => false
  end.

Definition is_delete_objects (ev : event) : bool :=
  match ev with DeleteObjects _ _ => true | _ => false end.


(** [plain], as a test. *)
Definition plainb (comp : str) : bool :=
  negb (str_eqb comp empty) && forallb (fun c => negb (c =? sep)) comp
  && negb (str_eqb comp dot) && negb (str_eqb comp dotdot).

(** ** A store behind the probes *)

(** The world of the local [files] in which S3 holds [objects], given
    by bucket and key: the probe of an object that is there succeeds,
    the probe of any other is answered with 404. *)
Definition store_world (files : list str) (objects : gset (list N * list N)) : world :=
  sample_world files
    (fun bucket key =>
       if bool_decide ((bucket, key) ∈ objects) then Reply tt
       else Fault (ClientError (py "404") (py "Not Found")))
    (fun _ => Fault not_found) (fun _ => Reply complete)
    (Reply tt) (Reply tt) (Reply tt).

(** The objects of S3 once the transfers of a trace are done. *)
Fixpoint transferred (t : list event) (objects : gset (list N * list N))
    : gset (list N * list N) :=
  match t with
  | [] => objects
  | Upload _ bucket key :: t' => transferred t' ({[ (bucket, key) ]} ∪ objects)
  | _ :: t' => transferred t' objects
  end.


(** ** More sample worlds *)

(** A job that answers "InProgress" [n] times and then [final]. *)
Definition settling_world (n : nat) (final : reply dict) : world :=
  sample_world [] (fun _ _ => Reply tt) (fun _ => Fault not_found)
    (fun i => if (i <? n)%nat then Reply in_progress else final)
    (Reply tt) (Reply tt) (Reply tt).

(** An answer "Failed" that carries no failure message. *)
Definition failed_silently : dict :=
  <[ py "importedModelArn" := py "arn:aws:bedrock:imported-model/m" ]>
    {[ py "status" := py "Failed" ]}.

(** The submission of the job is refused. *)
Definition refused_submission_world : world :=
  {| python_int := sample_int;
     boto3_client := fun _ => Reply tt;
     boto3_resource := fun _ => Reply tt;
     snapshot_download := fun _ => Reply (py "/cache/snapshot");
     walk := fun _ => [];
     st_size := fun _ => 1%Z;
     time_ns := 1730000000000000000%Z;
     head_object := fun _ _ => Reply tt;
     delete_objects := fun _ _ => Reply tt;
     get_role := fun name =>
       Reply {| RoleName := name; Arn := py "arn:aws:iam::role/" ++ name |};
     create_role := fun name =>
       Reply {| RoleName := name; Arn := py "arn:aws:iam::role/" ++ name |};
     put_role_policy := fun _ _ _ => Reply tt;
     delete_role_policy := fun _ _ => Reply tt;
     delete_role := fun _ => Reply tt;
     get_imported_model := fun _ => Fault not_found;
     create_model_import_job := fun _ _ _ _ =>
       Fault (ClientError (py "ValidationException") (py "role cannot be assumed"));
     get_model_import_job := fun _ _ => Reply complete;
     delete_custom_model := fun _ => Reply tt |}.

(** The look-up answers without a [modelArn]. *)
Definition nameless_model_world : world :=
  sample_world [] (fun _ _ => Reply tt)
    (fun _ => Reply {[ py "modelName" := py "m" ]})
    (fun _ => Reply complete) (Reply tt) (Reply tt) (Reply tt).

(** The look-up fails for want of a connection. *)
Definition offline_lookup_world : world :=
  sample_world [] (fun _ _ => Reply tt)
    (fun _ => Fault (OtherError (py "EndpointConnectionError")))
    (fun _ => Reply complete) (Reply tt) (Reply tt) (Reply tt).

(** ** The role behind the provisioner *)

Definition is_provisioning (ev : event) : bool :=
  match ev with CreateRole _ | PutRolePolicy _ _ _ => true | _ => false end.

(** What IAM holds under the fixed role name: the role, and its inline
    policy. *)
Record iam_state := { role_there : bool; policy_there : bool }.

Definition import_role : role :=
  {| RoleName := IMPORT_MODEL_ROLE_NAME;
     Arn := py "arn:aws:iam::123456789012:role/MyImportModelRole" |}.

(** IAM in [state]: the look-up finds the role when it is there and
    raises [NoSuchEntity] when it is not, the creation succeeds, and
    [attach] is the answer to [put_role_policy]. *)
Definition iam_world (state : iam_state) (attach : reply unit) : world :=
  {| python_int := sample_int;
     boto3_client := fun _ => Reply tt;
     boto3_resource := fun _ => Reply tt;
     snapshot_download := fun _ => Reply (py "/cache/snapshot");
     walk := fun _ => [];
     st_size := fun _ => 1%Z;
     time_ns := 1730000000000000000%Z;
     head_object := fun _ _ => Reply tt;
     delete_objects := fun _ _ => Reply tt;
     get_role := fun _ =>
       if role_there state then Reply import_role
       else Fault (ClientError (py "NoSuchEntity") (py "role not found"));
     create_role := fun _ => Reply import_role;
     put_role_policy := fun _ _ _ => attach;
     delete_role_policy := fun _ _ => Reply tt;
     delete_role := fun _ => Reply tt;
     get_imported_model := fun _ => Fault not_found;
     create_model_import_job := fun _ _ _ _ =>
       Reply {[ py "jobArn" := py "arn:aws:bedrock:job/1" ]};
     get_model_import_job := fun _ _ => Reply complete;
     delete_custom_model := fun _ => Reply tt |}.

(** The state of IAM after the calls of a trace made against
    [iam_world _ attach]. *)
Fixpoint provisioned (t : list event) (attach : reply unit) (state : iam_state)
    : iam_state :=
  match t with
  | [] => state
  | CreateRole _ :: t' =>
      provisioned t' attach {| role_there := true; policy_there := policy_there state |}
  | PutRolePolicy _ _ _ :: t' =>
      provisioned t' attach
        {| role_there := role_there state;
           policy_there := match attach with
                           | Reply _ => true
                           | Fault _ => policy_there state
                           end |}
  | _ :: t' => provisioned t' attach state
  end.

(** The look-up of the role is refused for lack of permission. *)
Definition denied_role_world : world :=
  {| python_int := sample_int;
     boto3_client := fun _ => Reply tt;
     boto3_resource := fun _ => Reply tt;
     snapshot_download := fun _ => Reply (py "/cache/snapshot");
     walk := fun _ => [];
     st_size := fun _ => 1%Z;
     time_ns := 1730000000000000000%Z;
     head_object := fun _ _ => Reply tt;
     delete_objects := fun _ _ => Reply tt;
     get_role := fun _ => Fault (ClientError (py "AccessDenied") (py "not authorized"));
     create_role := fun _ => Reply import_role;
     put_role_policy := fun _ _ _ => Reply tt;
     delete_role_policy := fun _ _ => Reply tt;
     delete_role := fun _ => Reply tt;
     get_imported_model := fun _ => Fault not_found;
     create_model_import_job := fun _ _ _ _ =>
       Reply {[ py "jobArn" := py "arn:aws:bedrock:job/1" ]};
     get_model_import_job := fun _ _ => Reply complete;
     delete_custom_model := fun _ => Reply tt |}.

(** IAM answers the creation with a role of another name. *)
Definition renaming_world : world :=
  {| python_int := sample_int;
     boto3_client := fun _ => Reply tt;
     boto3_resource := fun _ => Reply tt;
     snapshot_download := fun _ => Reply (py "/cache/snapshot");
     walk := fun _ => [];
     st_size := fun _ => 1%Z;
     time_ns := 1730000000000000000%Z;
     head_object := fun _ _ => Reply tt;
     delete_objects := fun _ _ => Reply tt;
     get_role := fun _ => Fault (ClientError (py "NoSuchEntity") (py "role not found"));
     create_role := fun _ =>
       Reply {| RoleName := py "Other"; Arn := py "arn:aws:iam::123456789012:role/Other" |};
     put_role_policy := fun _ _ _ => Fault (OtherError (py "ReadTimeoutError"));
     delete_role_policy := fun _ _ => Reply tt;
     delete_role := fun _ => Reply tt;
     get_imported_model := fun _ => Fault not_found;
     create_model_import_job := fun _ _ _ _ =>
       Reply {[ py "jobArn" := py "arn:aws:bedrock:job/1" ]};
     get_model_import_job := fun _ _ => Reply complete;
     delete_custom_model := fun _ => Reply tt |}.

(** ** The normal form of a path *)

(** What [normpath] has collected at any point of its loop: a run of
    [..], which only a relative path keeps, then plain components. *)
Definition collected (initial_slashes : nat) (comps : list str) : Prop :=
  exists (k : nat) (plains : list str),
    comps = replicate k dotdot ++ plains /\ Forall plain plains /\
    (initial_slashes <> 0%nat -> k = 0%nat).

(** ** What a run asks for *)

(** Every event of a run satisfies [P]. *)
Definition every {A} (P : event -> Prop) (m : M A) : Prop := Forall P (trace m).

(** Console output, waiting and the progress bar: what stays on the
    machine. *)
Definition is_local (ev : event) : bool :=
  match ev with Print _ | Sleep _ | ProgressBar _ => true | _ => false end.

(** The four deletions of [cleanup_aws_resources]. *)
Definition is_deletion (ev : event) : bool :=
  match ev with
  | DeleteRolePolicy _ _ | DeleteRole _ | DeleteCustomModel _ | DeleteObjects _ _ => true
  | _ => false
  end.

(** What [import_model_to_bedrock] may ask of the services for the
    identifier [model_id] and the location [s3_bucket]: the snapshot of
    [model_id]; probes and transfers in the bucket and under the key of
    [staging_root]; the role of the fixed name, with a policy for that
    bucket; the model and the job of the sanitized name, the job for
    the staged location; the status of a job; no deletion. *)
Definition import_request (model_id s3_bucket : str) (ev : event) : Prop :=
  match ev with
  | Print _ | Sleep _ | ProgressBar _ | GetModelImportJob _ => True
  | SnapshotDownload repo_id => repo_id = model_id
  | HeadObject bucket key =>
      exists root file,
        staging_root s3_bucket model_id = [bucket; root] /\
        key = root ++ [sep] ++ file
  | Upload _ bucket key =>
      exists root file,
        staging_root s3_bucket model_id = [bucket; root] /\
        key = path_join root file
  | GetRole role_name | CreateRole role_name => role_name = IMPORT_MODEL_ROLE_NAME
  | PutRolePolicy _ _ bucket =>
      exists root, staging_root s3_bucket model_id = [bucket; root]
  | GetImportedModel name => name = sanitize_model_id model_id
  | CreateModelImportJob _ name _ s3_uri =>
      name = sanitize_model_id model_id /\
      exists bucket root,
        staging_root s3_bucket model_id = [bucket; root] /\
        s3_uri = py "s3://" ++ bucket ++ [sep] ++ root
  | DeleteRolePolicy _ _ | DeleteRole _ | DeleteCustomModel _ | DeleteObjects _ _ =>
      False
  end.


(** What one location and one identifier mean to the import: every
    probe, transfer, role policy and job of [ev] is for [bucket] and
    [root]. *)
Definition at_destination (bucket root : str) (ev : event) : Prop :=
  match ev with
  | HeadObject b key => b = bucket /\ exists file, key = root ++ [sep] ++ file
  | Upload _ b key => b = bucket /\ exists file, key = path_join root file
  | PutRolePolicy _ _ b => b = bucket
  | CreateModelImportJob _ _ _ s3_uri => s3_uri = py "s3://" ++ bucket ++ [sep] ++ root
  | _ => True
  end.

(** * The command line and the local cache *)

(** ** A second layer of effects

    [cli.py] leaves by [sys.exit], whose [SystemExit] is no [Exception]:
    an [except Exception] lets it pass and a bare [except] catches it.
    The runs of this layer record the calls to [argparse], STS, the
    Hugging Face cache and the Bedrock runtime besides the events of
    [importer.py], and end in one of four ways. *)
(** A positional argument of [delete_revisions]: a commit hash, as its
    signature [*revisions: str] has it, or a list of hashes. *)
Inductive value :=
| Hash (commit_hash : str)
| Hashes (commit_hashes : list str).

Inductive shell_event :=
| Core (ev : event)
| ParseArgs
| PrintHelp
| GetCallerIdentity
| InvokeModel (model_id body : str)
| ScanCacheDir
| DeleteRevisions (revisions : list value)
| Execute.

Inductive ending (A : Type) :=
| Done (a : A)
| Failed (e : exn)
| Exited (code : Z)
| Unfinished.
Arguments Done {A} a.
Arguments Failed {A} e.
Arguments Exited {A} code.
Arguments Unfinished {A}.

Definition Sh (A : Type) : Type := list shell_event * ending A.

Definition sh_ret {A} (a : A) : Sh A := ([], Done a).
Definition sh_raise {A} (e : exn) : Sh A := ([], Failed e).
(** [sys.exit(code)] *)
Definition sys_exit {A} (code : Z) : Sh A := ([], Exited code).
Definition sh_emit (ev : shell_event) : Sh unit := ([ev], Done tt).

Definition sh_bind {A B} (m : Sh A) (f : A -> Sh B) : Sh B :=
  match m with
  | (t, Done a) => let '(t', r) := f a in (t ++ t', r)
  | (t, Failed e) => (t, Failed e)
  | (t, Exited code) => (t, Exited code)
  | (t, Unfinished) => (t, Unfinished)
  end.

(** A run of [importer.py] inside a run of this layer. *)
Definition lift {A} (m : M A) : Sh A :=
  (map Core (trace m),
   match result m with
   | Returned a => Done a
   | Raised e => Failed e
   | OutOfFuel => Unfinished
   end).

Definition sh_call {A} (ev : shell_event) (r : reply A) : Sh A :=
  match r with
  | Reply a => ([ev], Done a)
  | Fault e => ([ev], Failed e)
  end.

Definition sh_print (text : str) : Sh unit := sh_emit (Core (Print (text ++ nl))).

(** [try: body except Exception as e: handler] *)
Definition except_Exception {A} (body : Sh A) (handler : exn -> Sh A) : Sh A :=
  match body with
  | (t, Failed e) => let '(t', r) := handler e in (t ++ t', r)
  | _ => body
  end.

(** [try: body except: handler] *)
Definition except_bare {A} (body : Sh A) (handler : Sh A) : Sh A :=
  match body with
  | (t, Failed _) | (t, Exited _) => let '(t', r) := handler in (t ++ t', r)
  | _ => body
  end.

Definition sh_trace {A} (m : Sh A) : list shell_event := fst m.
Definition sh_result {A} (m : Sh A) : ending A := snd m.

Declare Scope sh_scope.
Delimit Scope sh_scope with sh.
Notation "x <- m ;; k" := (sh_bind m (fun x => k))
  (at level 100, m at next level, k at level 200, right associativity) : sh_scope.
Notation "m ;; k" := (sh_bind m (fun _ => k))
  (at level 100, k at level 200, right associativity) : sh_scope.

(** The [Namespace] that [parse_args] returns: [--model-id] has a
    default and is always a [str]; [--s3-uri] is [None] when left out. *)
Module args.
Record t := {
  model_id : str;
  s3_uri : option str;
  cleanup_resources : bool;
  cleanup_model : bool;
  test : bool }.
End args.

(** A repository of the cache as [cleanup_local_resources] reads it:
    its identifier and the commit hashes of its revisions. *)
Record CachedRepoInfo := { repo_id : str; revisions : list str }.

(** A [DeleteCacheStrategy]: the size it announces and the answer of
    its [execute]. *)
Record DeleteCacheStrategy := { expected_freed_size_str : str; execute : reply unit }.

(** What lies outside the two layers: [parse_args] returns a namespace or
    leaves by [SystemExit]; [get_caller_identity] stands for the making
    of the STS client and the call, and answers with the region of the
    client; [invoke_model] answers with the text that [test_model]
    prints, the response with its body decoded; [scan_cache_dir] gives
    the repositories in the order of iteration; [delete_revisions] gets
    its positional arguments as a list, and what it answers to an
    argument that is no hash is the library's. *)
Record shell := {
  parse_args : args.t + Z;
  get_caller_identity : reply str;
  invoke_model : str -> str -> reply str;
  scan_cache_dir : reply (list CachedRepoInfo);
  delete_revisions : list value -> reply DeleteCacheStrategy }.

Module bcolors.
Definition esc : str := [27].
Definition HEADER : str := esc ++ py "[95m".
Definition OKBLUE : str := esc ++ py "[94m".
Definition OKCYAN : str := esc ++ py "[96m".
Definition OKGREEN : str := esc ++ py "[92m".
Definition WARNING : str := esc ++ py "[93m".
Definition FAIL : str := esc ++ py "[91m".
Definition ENDC : str := esc ++ py "[0m".
Definition BOLD : str := esc ++ py "[1m".
Definition UNDERLINE : str := esc ++ py "[4m".
End bcolors.

(** [bool(s)] for a [str], and for an optional one. *)
Definition truthy (s : str) : bool := negb (str_eqb s empty).

Definition colon : N := 58.
Definition quote : str := [34].

Section Shell.

Local Open Scope sh_scope.

Variable w : world.
Variable sh : shell.
(** [repr(e)], [str(e)] and [urllib.parse.quote_plus]. *)
Variable repr : exn -> str.
Variable str_of : exn -> str.
Variable quote_plus : str -> str.

(** [test_model] of [importer.py]; the body sent is
    [json.dumps({"prompt": prompt})]. *)
Definition test_model (model_arn : str) : Sh unit :=
  sh_print (py "Testing the model...") ;;
  let prompt := py "What is the capital of France?" in
  let body :=
    py "{" ++ quote ++ py "prompt" ++ quote ++ py ": " ++ quote ++ prompt ++ quote
    ++ py "}" in
  text <- sh_call (InvokeModel model_arn body) (invoke_model sh model_arn body) ;;
  sh_print text.

(** The [for] loop of [cleanup_local_resources]: the first repository
    of the given identifier is handed to [delete_revisions], its hashes
    as one list (the comprehension is passed as it is, without a [*]),
    and the loop is left. *)
Fixpoint find_in_cache (repos : list CachedRepoInfo) (model_id : str)
    : Sh (option DeleteCacheStrategy) :=
  match repos with
  | [] => sh_ret None
  | repo :: repos' =>
      if str_eqb (repo_id repo) model_id then
        sh_print (py "Model found in cache, deleting it.") ;;
        delete_strategy <-
          sh_call (DeleteRevisions [Hashes (revisions repo)])
                  (delete_revisions sh [Hashes (revisions repo)]) ;;
        sh_ret (Some delete_strategy)
      else find_in_cache repos' model_id
  end.

(** [cleanup_local_resources] of [importer.py]; a strategy object counts
    as true. *)
Definition cleanup_local_resources (model_id : str) : Sh unit :=
  sh_print (py "Cleaning up local model resources...") ;;
  scan_result <- sh_call ScanCacheDir (scan_cache_dir sh) ;;
  delete_strategy <- find_in_cache scan_result model_id ;;
  match delete_strategy with
  | None => sh_print (py "Model not found in cache.")
  | Some strategy =>
      sh_print (py "Model cleanup will free " ++ expected_freed_size_str strategy) ;;
      sh_call Execute (execute strategy)
  end.

(** [validate_aws_credentials] *)
Definition validate_aws_credentials : Sh unit :=
  except_Exception
    (region_name <- sh_call GetCallerIdentity (get_caller_identity sh) ;;
     sh_print (bcolors.HEADER ++ py "Using AWS region " ++ region_name
               ++ py ". Make sure all functionality is available there."
               ++ bcolors.ENDC))
    (fun e =>
       sh_print (bcolors.FAIL
                 ++ py "Unable to locate AWS credentials, please configure them: "
                 ++ str_of e ++ bcolors.ENDC) ;;
       sys_exit 1).

(** [not args.model_id or not args.s3_uri], with the location when both
    are given. *)
Definition both_given (a : args.t) : option str :=
  if truthy (args.model_id a) then
    match args.s3_uri a with
    | Some s3_uri => if truthy s3_uri then Some s3_uri else None
    | None => None
    end
  else None.

(** The [if args.cleanup_resources:] block of [main]; the value is
    [ran_cleanup]. *)
Definition main_cleanup_resources (a : args.t) : Sh bool :=
  if args.cleanup_resources a then
    sh_print (bcolors.WARNING
              ++ py "Destroying remote entities (Bedrock custom model, IAM role, S3 model files)..."
              ++ bcolors.ENDC) ;;
    match both_given a with
    | None =>
        sh_print (bcolors.FAIL
                  ++ py "Please provide both model_id and s3_uri to cleanup resources."
                  ++ bcolors.ENDC) ;;
        sys_exit 1
    | Some s3_uri =>
        validate_aws_credentials ;;
        lift (cleanup_aws_resources w repr s3_uri (args.model_id a)) ;;
        sh_print (bcolors.OKGREEN ++ py "Done." ++ bcolors.ENDC) ;;
        sh_ret true
    end
  else sh_ret false.

(** The [if args.cleanup_model:] block. *)
Definition main_cleanup_model (a : args.t) (ran_cleanup : bool) : Sh bool :=
  if args.cleanup_model a then
    sh_print (bcolors.WARNING ++ py "Cleaning up local model resources..."
              ++ bcolors.ENDC) ;;
    (if truthy (args.model_id a) then sh_ret tt
     else
       sh_print (bcolors.FAIL ++ py "Please provide model_id to cleanup resources."
                 ++ bcolors.ENDC) ;;
       sys_exit 1) ;;
    cleanup_local_resources (args.model_id a) ;;
    sh_print (bcolors.OKGREEN ++ py "Done." ++ bcolors.ENDC) ;;
    sh_ret true
  else sh_ret ran_cleanup.

(** The [if not ran_cleanup:] block. *)
Definition main_import (a : args.t) : Sh unit :=
  match both_given a with
  | None =>
      sh_print (bcolors.FAIL
                ++ py "Please provide both model_id and s3_uri to import a model."
                ++ bcolors.ENDC) ;;
      sys_exit 1
  | Some s3_uri =>
      sh_print (bcolors.HEADER ++ py "Using model ID: " ++ args.model_id a
                ++ bcolors.ENDC) ;;
      sh_print (bcolors.HEADER ++ py "Using S3 location: " ++ s3_uri ++ bcolors.ENDC) ;;
      except_Exception
        (validate_aws_credentials ;;
         model_arn <- lift (import_model_to_bedrock w (args.model_id a) s3_uri) ;;
         sh_print (bcolors.BOLD ++ py "Process completed successfully!"
                   ++ bcolors.ENDC) ;;
         region <- match split colon model_arn !! 3%nat with
                   | Some field => sh_ret field
                   | None => sh_raise (OtherError (py "IndexError"))
                   end ;;
         sh_print (bcolors.OKGREEN
                   ++ py "Link to the Bedrock playground for the model: https://"
                   ++ region
                   ++ py ".console.aws.amazon.com/bedrock/home#/text-generation-playground?mode=text&modelId="
                   ++ quote_plus model_arn ++ bcolors.ENDC) ;;
         if args.test a then
           sh_print (py "Testing the model...") ;;
           test_model model_arn
         else sh_ret tt)
        (fun e =>
           sh_print (bcolors.FAIL ++ py "An error occurred: " ++ repr e
                     ++ bcolors.ENDC) ;;
           sh_raise e)
  end.

(** [main] *)
Definition main : Sh unit :=
  a <- except_bare
         (sh_emit ParseArgs ;;
          match parse_args sh with
          | inl a => sh_ret a
          | inr code => sys_exit code
          end)
         (sh_emit PrintHelp ;; sys_exit 0) ;;
  ran_cleanup <- main_cleanup_resources a ;;
  ran_cleanup <- main_cleanup_model a ran_cleanup ;;
  if negb ran_cleanup then main_import a else sh_ret tt.

End Shell.

(** ** Reading the runs of the second layer *)

Definition sh_every {A} (P : shell_event -> Prop) (m : Sh A) : Prop :=
  Forall P (sh_trace m).

(** The requests that only an import makes. *)
Definition is_import_request (ev : event) : bool :=
  match ev with
  | SnapshotDownload _ | HeadObject _ _ | Upload _ _ _ | GetRole _ | CreateRole _
  | PutRolePolicy _ _ _ | GetImportedModel _ | CreateModelImportJob _ _ _ _
  | GetModelImportJob _ => true
  | _ => false
  end.

(** What stays on the console: the parsing of the command line and the
    output. *)
Definition is_console (ev : shell_event) : bool :=
  match ev with
  | Core (Print _) | ParseArgs | PrintHelp => true
  | _ => false
  end.

(** The import and the test of the model. *)
Definition is_import (ev : shell_event) : bool :=
  match ev with
  | Core ev => is_import_request ev
  | InvokeModel _ _ => true
  | _ => false
  end.

(** The changes to the local cache. *)
Definition is_cache_change (ev : shell_event) : bool :=
  match ev with DeleteRevisions _ | Execute => true | _ => false end.

Definition is_delete_revisions (ev : shell_event) : bool :=
  match ev with DeleteRevisions _ => true | _ => false end.

Fixpoint sh_keep (p : shell_event -> bool) (t : list shell_event) : list shell_event :=
  match t with
  | [] => []
  | ev :: t' => if p ev then ev :: sh_keep p t' else sh_keep p t'
  end.

(** What [set] raises for a list. *)
Definition unhashable_list : exn := OtherError (py "TypeError: unhashable type: 'list'").

Definition is_hash (v : value) : bool :=
  match v with Hash _ => true | Hashes _ => false end.

(** A command line, an answer of STS and a cache: [delete_revisions]
    makes a set of its arguments, which a list among them stops; for
    hashes the strategy handed out frees 1.2G and its [execute]
    succeeds. *)
Definition sample_shell (parsed : args.t + Z) (identity : reply str)
    (repos : list CachedRepoInfo) : shell :=
  {| parse_args := parsed;
     get_caller_identity := identity;
     invoke_model := fun _ _ => Reply (py "{}");
     scan_cache_dir := Reply repos;
     delete_revisions := fun revisions =>
       if forallb is_hash revisions then
         Reply {| expected_freed_size_str := py "1.2G"; execute := Reply tt |}
       else Fault unhashable_list |}.

(** A cache with a data set and a model of the same identifier, the
    data set first. *)
Definition sample_cache : list CachedRepoInfo :=
  [ {| repo_id := py "org/other"; revisions := [py "0a1b"] |};
    {| repo_id := py "org/name"; revisions := [py "aaaa"; py "bbbb"] |};
    {| repo_id := py "org/name"; revisions := [py "cccc"] |} ].

(** The deletions, remote and local. *)
Definition is_removal (ev : shell_event) : bool :=
  match ev with
  | Core ev => is_deletion ev
  | DeleteRevisions _ | Execute => true
  | _ => false
  end.

(** Command lines: a clean-up of the remote resources with [--test], a
    plain import, and an import without location. *)
Definition cleanup_args : args.t :=
  {| args.model_id := py "org/name"; args.s3_uri := Some (py "s3://my-bucket/p");
     args.cleanup_resources := true; args.cleanup_model := false;
     args.test := true |}.

Definition import_args : args.t :=
  {| args.model_id := py "org/name"; args.s3_uri := Some (py "s3://my-bucket/p");
     args.cleanup_resources := false; args.cleanup_model := false;
     args.test := false |}.

Definition bare_args : args.t :=
  {| args.model_id := py "deepseek-ai/DeepSeek-R1-Distill-Llama-8B";
     args.s3_uri := None;
     args.cleanup_resources := false; args.cleanup_model := false;
     args.test := false |}.

Definition no_credentials : exn := OtherError (py "NoCredentialsError").

(** A model that Bedrock holds already, under an ARN without region. *)
Definition short_arn_world : world :=
  sample_world [] (fun _ _ => Reply tt)
    (fun _ => Reply {[ py "modelArn" := py "imported-model/old" ]})
    (fun _ => Reply complete) (Reply tt) (Reply tt) (Reply tt).

(** A run that comes to an end, and leaves by [sys.exit] with status 1
    only, and only when [allowed]. *)
Definition exits_only_if (allowed : Prop) {A} (m : Sh A) : Prop :=
  match sh_result m with
  | Done _ | Failed _ => True
  | Exited code => code = 1%Z /\ allowed
  | Unfinished => False
  end.

(** ** The stages of an import *)

Definition is_iam_request (ev : event) : bool :=
  match ev with GetRole _ | CreateRole _ | PutRolePolicy _ _ _ => true | _ => false end.

Definition is_bedrock_request (ev : event) : bool :=
  match ev with
  | GetImportedModel _ | CreateModelImportJob _ _ _ _ | GetModelImportJob _ => true
  | _ => false
  end.

(** What [download_model] leaves behind when the snapshot is there. *)
Definition downloaded (model_id local_path : str) : list event :=
  [Print (py "Downloading model " ++ model_id ++ py " from Hugging Face..." ++ nl);
   SnapshotDownload model_id;
   Print (py "Model downloaded to " ++ local_path ++ py "." ++ nl)].

(** One local file that S3 lacks, and a model that Bedrock holds under
    whatever name it is asked for. *)
Definition registered_world : world :=
  sample_world [py "config.json"]
    (fun _ _ => Fault (ClientError (py "404") (py "Not Found")))
    (fun _ => Reply {[ py "modelArn" := py "arn:aws:bedrock:eu-west-1:1:imported-model/old" ]})
    (fun _ => Reply complete) (Reply tt) (Reply tt) (Reply tt).

Arguments py : simpl never.
Arguments poll_loop : simpl never.
Arguments poll_fuel : simpl never.

(** * Properties *)

(** ** The monad *)

Lemma bind_returned {A B} (t : list event) (a : A) (f : A -> M B) :
  bind (t, Returned a) f = (t ++ trace (f a), result (f a)).
Proof. unfold bind, trace, result. destruct (f a); reflexivity. Qed.

Lemma bind_raised {A B} (t : list event) (e : exn) (f : A -> M B) :
  bind (t, Raised e) f = (t, Raised e).
Proof. reflexivity. Qed.

Lemma trace_bind_prefix {A B} (m : M A) (f : A -> M B) :
  trace m `prefix_of` trace (bind m f).
Proof.
  destruct m as [t [a | e | ]]; cbn; try reflexivity.
  destruct (f a) as [t' r]; cbn. by apply prefix_app_r.
Qed.

Lemma count_app p t1 t2 : count p (t1 ++ t2) = (count p t1 + count p t2)%nat.
Proof. induction t1 as [| ev t1 IH]; cbn; [done | rewrite IH; lia]. Qed.

Lemma slept_app t1 t2 : slept (t1 ++ t2) = (slept t1 + slept t2)%Z.
Proof.
  induction t1 as [| ev t1 IH]; cbn; [done |].
  destruct ev; rewrite ?IH; lia.
Qed.

(** ** [sanitize_model_id] *)

Lemma in_class_spec (c : N) :
  in_class c = true <->
  c = 45 \/ (97 <= c <= 122) \/ (65 <= c <= 90) \/ (48 <= c <= 57).
Proof.
  unfold in_class, hyphen.
  rewrite !orb_true_iff, !andb_true_iff, N.eqb_eq, !N.leb_le. tauto.
Qed.

Lemma in_class_hyphen : in_class hyphen = true.
Proof. reflexivity. Qed.

Lemma sanitize_char_idem (c : N) :
  (if in_class (if in_class c then c else hyphen)
   then (if in_class c then c else hyphen) else hyphen)
  = if in_class c then c else hyphen.
Proof. destruct (in_class c) eqn:E; [by rewrite E | by rewrite in_class_hyphen]. Qed.

Lemma sanitize_model_id_length (s : str) :
  length (sanitize_model_id s) = length s.
Proof. unfold sanitize_model_id. apply length_map. Qed.

Lemma sanitize_model_id_lookup (s : str) (i : nat) :
  sanitize_model_id s !! i = (fun c => if in_class c then c else hyphen) <$> s !! i.
Proof. unfold sanitize_model_id. apply list_lookup_fmap. Qed.

Lemma sanitize_model_id_in_class (s : str) :
  Forall (fun c => in_class c = true) (sanitize_model_id s).
Proof.
  unfold sanitize_model_id. apply Forall_forall. intros c Hc.
  apply list_elem_of_fmap in Hc as (c0 & -> & _).
  destruct (in_class c0) eqn:E; [done | apply in_class_hyphen].
Qed.

Lemma sanitize_model_id_fixed (s : str) :
  sanitize_model_id s = s <-> Forall (fun c => in_class c = true) s.
Proof.
  split.
  - intros <-. apply sanitize_model_id_in_class.
  - unfold sanitize_model_id. induction 1 as [| c s Hc _ IH]; cbn; [done |].
    by rewrite Hc, IH.
Qed.

(** C6: [sanitize_model_id] is a function of the identifier alone that
    keeps the length and the characters of [[-a-zA-Z0-9]] and puts ['-']
    in the place of every other character; it maps
    ["deepseek-ai/DeepSeek-R1-Distill-Llama-8B"] to
    ["deepseek-ai-DeepSeek-R1-Distill-Llama-8B"] and is idempotent. *)
Theorem sanitize_model_id_spec :
  (forall s : str,
     length (sanitize_model_id s) = length s /\
     forall (i : nat) (c : N), s !! i = Some c ->
       sanitize_model_id s !! i
       = Some (if bool_decide (c = 45 \/ (97 <= c <= 122) \/ (65 <= c <= 90)
                               \/ (48 <= c <= 57))
               then c else 45)) /\
  sanitize_model_id (py "deepseek-ai/DeepSeek-R1-Distill-Llama-8B")
  = py "deepseek-ai-DeepSeek-R1-Distill-Llama-8B" /\
  (forall s : str, sanitize_model_id (sanitize_model_id s) = sanitize_model_id s).
Proof.
  split; [| split].
  - intros s. split; [apply sanitize_model_id_length |].
    intros i c Hc. rewrite sanitize_model_id_lookup, Hc. cbn. f_equal.
    destruct (in_class c) eqn:E.
    + apply in_class_spec in E. by rewrite bool_decide_eq_true_2.
    + rewrite bool_decide_eq_false_2; [done |].
      intros H. apply in_class_spec in H. congruence.
  - vm_compute. reflexivity.
  - intros s. unfold sanitize_model_id. rewrite map_map.
    apply map_ext. intros c. apply sanitize_char_idem.
Qed.

(** ** Traces and results of compound runs *)

Lemma trace_bind {A B} (m : M A) (f : A -> M B) :
  trace (bind m f)
  = trace m ++ match result m with Returned a => trace (f a) | _ => [] end.
Proof.
  destruct m as [t [a | e | ]]; cbn; rewrite ?app_nil_r; try reflexivity.
  by destruct (f a).
Qed.

Lemma result_bind {A B} (m : M A) (f : A -> M B) :
  result (bind m f)
  = match result m with
    | Returned a => result (f a)
    | Raised e => Raised e
    | OutOfFuel => OutOfFuel
    end.
Proof. destruct m as [t [a | e | ]]; cbn; try reflexivity. by destruct (f a). Qed.

Lemma surjective_run {A} (m : M A) : m = (trace m, result m).
Proof. by destruct m. Qed.

(** ** [create_bedrock_model]: the look-up of an existing model *)

(** C5: when the look-up of the destination model succeeds, the call
    returns the [modelArn] of the answer and submits no import job: the
    look-up is the only remote call of the run. *)
Theorem create_bedrock_model_existing (w : world) (s3_uri model_name role_arn : str)
    (model_response : dict) (model_arn : str) :
  get_imported_model w model_name = Reply model_response ->
  model_response !! py "modelArn" = Some model_arn ->
  result (create_bedrock_model w s3_uri model_name role_arn) = Returned model_arn /\
  trace (create_bedrock_model w s3_uri model_name role_arn)
  = [GetImportedModel model_name;
     Print (py "Model " ++ model_name ++ py " already exists, skipping import." ++ nl);
     Print (py "Imported model ARN: " ++ model_arn ++ nl)] /\
  count is_submission (trace (create_bedrock_model w s3_uri model_name role_arn)) = 0%nat.
Proof.
  intros Hget Harn. unfold create_bedrock_model.
  rewrite Hget. cbn [call bind try_except print emit app].
  unfold getitem. rewrite Harn. cbn.
  rewrite <- !app_assoc. repeat split.
Qed.

Lemma create_bedrock_model_existing_witness :
  result (create_bedrock_model existing_world (py "s3://b/models/m") (py "m")
            (py "arn:aws:iam::role/MyImportModelRole"))
  = Returned (py "arn:aws:bedrock:imported-model/old") /\
  trace (create_bedrock_model existing_world (py "s3://b/models/m") (py "m")
           (py "arn:aws:iam::role/MyImportModelRole"))
  = [GetImportedModel (py "m");
     Print (py "Model " ++ py "m" ++ py " already exists, skipping import." ++ nl);
     Print (py "Imported model ARN: " ++ py "arn:aws:bedrock:imported-model/old" ++ nl)] /\
  count is_submission
    (trace (create_bedrock_model existing_world (py "s3://b/models/m") (py "m")
              (py "arn:aws:iam::role/MyImportModelRole"))) = 0%nat.
Proof.
  apply (create_bedrock_model_existing existing_world (py "s3://b/models/m") (py "m")
           (py "arn:aws:iam::role/MyImportModelRole")
           {[ py "modelArn" := py "arn:aws:bedrock:imported-model/old" ]}
           (py "arn:aws:bedrock:imported-model/old"));
    vm_compute; reflexivity.
Defined.

Lemma create_bedrock_model_client_error (w : world) (s3_uri model_name role_arn : str)
    (code message : str) :
  get_imported_model w model_name = Fault (ClientError code message) ->
  create_bedrock_model w s3_uri model_name role_arn
  = (GetImportedModel model_name :: trace (submit_and_wait w s3_uri model_name role_arn),
     result (submit_and_wait w s3_uri model_name role_arn)).
Proof.
  intros Hget. unfold create_bedrock_model. rewrite Hget.
  cbn [call bind try_except ret app].
  by destruct (submit_and_wait w s3_uri model_name role_arn).
Qed.

Lemma create_bedrock_model_other_fault (w : world) (s3_uri model_name role_arn : str)
    (e : exn) :
  get_imported_model w model_name = Fault e ->
  (forall code message, e <> ClientError code message) ->
  create_bedrock_model w s3_uri model_name role_arn
  = ([GetImportedModel model_name], Raised e).
Proof.
  intros Hget He. unfold create_bedrock_model. rewrite Hget.
  destruct e; try reflexivity. by destruct (He code message).
Qed.

(** C10: whatever client error the look-up of the destination model
    raises, with whatever code, the controller goes on as if no model
    existed: the next remote call of the run submits an import job for
    that name, and the run goes on as the submission and the wait make it. *)
Theorem create_bedrock_model_lookup_error_swallowed (w : world)
    (s3_uri model_name role_arn code message : str) :
  get_imported_model w model_name = Fault (ClientError code message) ->
  let job_name :=
    py "import-" ++ slice_to 20 model_name ++ py "-" ++ str_of_int (time_ns w) in
  take 3 (trace (create_bedrock_model w s3_uri model_name role_arn))
  = [GetImportedModel model_name;
     Print (py "Creating Bedrock model import job with name " ++ job_name
            ++ py "..." ++ nl);
     CreateModelImportJob job_name model_name role_arn s3_uri] /\
  result (create_bedrock_model w s3_uri model_name role_arn)
  = result (submit_and_wait w s3_uri model_name role_arn).
Proof.
  intros Hget job_name.
  rewrite (create_bedrock_model_client_error _ _ _ _ _ _ Hget).
  split; [| reflexivity].
  unfold submit_and_wait. fold job_name. cbn [trace fst].
  rewrite trace_bind. cbn [print emit trace fst result snd].
  rewrite trace_bind.
  destruct (create_model_import_job w job_name model_name role_arn s3_uri);
    cbn; rewrite <- ?app_assoc; reflexivity.
Qed.

Lemma create_bedrock_model_lookup_error_swallowed_witness :
  let job_name :=
    py "import-" ++ slice_to 20 (py "m") ++ py "-"
    ++ str_of_int (time_ns denied_lookup_world) in
  take 3 (trace (create_bedrock_model denied_lookup_world (py "s3://b/models/m")
                   (py "m") (py "arn:aws:iam::role/MyImportModelRole")))
  = [GetImportedModel (py "m");
     Print (py "Creating Bedrock model import job with name " ++ job_name
            ++ py "..." ++ nl);
     CreateModelImportJob job_name (py "m") (py "arn:aws:iam::role/MyImportModelRole")
       (py "s3://b/models/m")] /\
  result (create_bedrock_model denied_lookup_world (py "s3://b/models/m") (py "m")
            (py "arn:aws:iam::role/MyImportModelRole"))
  = result (submit_and_wait denied_lookup_world (py "s3://b/models/m") (py "m")
              (py "arn:aws:iam::role/MyImportModelRole")).
Proof.
  apply (create_bedrock_model_lookup_error_swallowed denied_lookup_world
           (py "s3://b/models/m") (py "m") (py "arn:aws:iam::role/MyImportModelRole")
           (py "AccessDeniedException") (py "not authorized")).
  reflexivity.
Defined.

(** ** The polling loop *)

Section Polling.

Variable w : world.

Lemma poll_loop_exit (fuel : nat) (job_arn : option str) (wait_secs : Z)
    (checks : nat) (job_response : option dict) :
  (3600 <= wait_secs)%Z ->
  poll_loop w fuel job_arn wait_secs checks job_response = ret job_response.
Proof.
  intros H. destruct fuel; unfold poll_loop;
    (destruct (Z.ltb_spec wait_secs 3600); [lia | reflexivity]).
Qed.

Lemma poll_loop_no_fuel (job_arn : option str) (wait_secs : Z)
    (checks : nat) (job_response : option dict) :
  (wait_secs < 3600)%Z ->
  poll_loop w 0 job_arn wait_secs checks job_response = out_of_fuel.
Proof.
  intros H. unfold poll_loop.
  destruct (Z.ltb_spec wait_secs 3600); [reflexivity | lia].
Qed.

Lemma poll_loop_turn (fuel : nat) (job_arn : option str) (wait_secs : Z)
    (checks : nat) (job_response : option dict) :
  (wait_secs < 3600)%Z ->
  poll_loop w (S fuel) job_arn wait_secs checks job_response
  = poll_turn w fuel job_arn wait_secs checks.
Proof.
  intros H. unfold poll_loop; fold (poll_loop w). unfold poll_turn.
  destruct (Z.ltb_spec wait_secs 3600); [| lia].
  destruct (get_model_import_job w checks job_arn) as [d | e]; [| reflexivity].
  cbn [call bind print_noend emit app]. unfold getitem.
  destruct (d !! py "status") as [status |]; [| reflexivity].
  cbn [bind ret app]. unfold str_eqb, sleep_time.
  destruct (bool_decide (status = py "InProgress")); cbn [negb].
  - by destruct (poll_loop w fuel job_arn (wait_secs + 10) (S checks) (Some d)).
  - destruct (d !! py "failureMessage"); reflexivity.
Qed.

(** The loop against the clock: with [k] turns left below the ceiling,
    at most [k] status checks are made, ten time-units are slept before
    each of them, and [k] units of fuel are enough. *)
Lemma poll_loop_bounds (fuel : nat) :
  forall (k : nat) (job_arn : option str) (wait_secs : Z) (checks : nat)
         (job_response : option dict),
    (3600 - wait_secs <= 10 * Z.of_nat k)%Z ->
    let r := poll_loop w fuel job_arn wait_secs checks job_response in
    (count is_status_check (trace r) <= k)%nat /\
    slept (trace r) = (10 * Z.of_nat (count is_status_check (trace r)))%Z /\
    ((k <= fuel)%nat -> result r <> OutOfFuel).
Proof.
  induction fuel as [| fuel IH]; intros k job_arn wait_secs checks job_response Hk r;
    subst r; destruct (Z.lt_ge_cases wait_secs 3600) as [Hlt | Hge];
    try (rewrite poll_loop_exit by lia; cbn; repeat split; (lia || done)).
  - rewrite poll_loop_no_fuel by lia. cbn. repeat split; intros; lia.
  - rewrite poll_loop_turn by lia. unfold poll_turn.
    destruct k as [| k]; [lia |].
    destruct (get_model_import_job w checks job_arn) as [d | e];
      [| cbn; repeat split; (lia || done)].
    destruct (d !! py "status") as [status |];
      [| cbn; repeat split; (lia || done)].
    destruct (bool_decide (status = py "InProgress")).
    + destruct (IH k job_arn (wait_secs + 10)%Z (S checks) (Some d)) as (Hc & Hs & Hf);
        [lia |].
      cbn [trace result fst snd]. rewrite count_app, slept_app, Hs.
      cbn. repeat split; try lia. intros Hle. apply Hf. lia.
    + destruct (d !! py "failureMessage"); cbn; repeat split; (lia || done).
Qed.

Lemma poll_loop_fuel (fuel1 fuel2 : nat) :
  forall (k : nat) (job_arn : option str) (wait_secs : Z) (checks : nat)
         (job_response : option dict),
    (3600 - wait_secs <= 10 * Z.of_nat k)%Z ->
    (k <= fuel1)%nat -> (k <= fuel2)%nat ->
    poll_loop w fuel1 job_arn wait_secs checks job_response
    = poll_loop w fuel2 job_arn wait_secs checks job_response.
Proof.
  revert fuel2.
  induction fuel1 as [| fuel1 IH]; intros fuel2 k job_arn wait_secs checks
    job_response Hk H1 H2; destruct (Z.lt_ge_cases wait_secs 3600) as [Hlt | Hge];
    try (by rewrite !poll_loop_exit by lia).
  destruct fuel2 as [| fuel2]; [lia |].
  rewrite !poll_loop_turn by lia. unfold poll_turn.
  destruct (get_model_import_job w checks job_arn) as [d | e]; [| done].
  destruct (d !! py "status") as [status |]; [| done].
  destruct (bool_decide (status = py "InProgress")); [| done].
  by rewrite (IH fuel2 (pred k)) by lia.
Qed.

End Polling.

Section Waiting.

Variable w : world.

(** [n] turns in a row whose status check answers "InProgress". *)
Lemma poll_loop_in_progress (resp : nat -> dict) (job_arn : option str) (n : nat) :
  forall (fuel : nat) (wait_secs : Z) (checks : nat) (job_response : option dict),
    (wait_secs + 10 * Z.of_nat n <= 3600)%Z ->
    (forall i, (checks <= i < checks + n)%nat ->
       get_model_import_job w i job_arn = Reply (resp i) /\
       resp i !! py "status" = Some (py "InProgress")) ->
    let rest :=
      poll_loop w fuel job_arn (wait_secs + 10 * Z.of_nat n) (checks + n)
        (match n with O => job_response | S m => Some (resp (checks + m)%nat) end) in
    poll_loop w (n + fuel) job_arn wait_secs checks job_response
    = (concat (replicate n [Print (py "."); Sleep 10; GetModelImportJob job_arn])
       ++ trace rest, result rest).
Proof.
  induction n as [| n IH]; intros fuel wait_secs checks job_response Hw Hresp rest;
    subst rest.
  - cbn [replicate concat app Nat.add]. rewrite Z.mul_0_r, Z.add_0_r, Nat.add_0_r.
    apply surjective_run.
  - destruct (Hresp checks) as [Hget Hst]; [lia |].
    cbn [Nat.add]. rewrite poll_loop_turn by lia. unfold poll_turn.
    rewrite Hget, Hst, bool_decide_eq_true_2 by done.
    rewrite (IH fuel (wait_secs + 10)%Z (S checks) (Some (resp checks)));
      [| lia | intros i Hi; apply Hresp; lia].
    cbn [trace result fst snd replicate concat].
    replace (wait_secs + 10 + 10 * Z.of_nat n)%Z
      with (wait_secs + 10 * Z.of_nat (S n))%Z by lia.
    replace (S checks + n)%nat with (checks + S n)%nat by lia.
    replace (match n with
             | 0%nat => Some (resp checks)
             | S m => Some (resp (S checks + m)%nat)
             end) with (Some (resp (checks + n)%nat)).
    + by rewrite <- !app_assoc.
    + destruct n; f_equal; f_equal; lia.
Qed.

Lemma wait_bounded_mono {A} (k k' : nat) (m : M A) :
  (k <= k')%nat -> wait_bounded k m -> wait_bounded k' m.
Proof. intros Hk (H1 & H2 & H3). repeat split; (lia || done). Qed.

Lemma wait_bounded_bind {A B} (k1 k2 : nat) (m : M A) (f : A -> M B) :
  wait_bounded k1 m -> (forall a, wait_bounded k2 (f a)) ->
  wait_bounded (k1 + k2) (bind m f).
Proof.
  intros (H1 & H2 & H3) Hf. unfold wait_bounded.
  rewrite trace_bind, result_bind, count_app, slept_app.
  destruct (result m) as [a | e |]; [| | done].
  - destruct (Hf a) as (F1 & F2 & F3). repeat split; (lia || done).
  - cbn. repeat split; (lia || done).
Qed.

Lemma wait_bounded_try {A} (k1 k2 : nat) (body : M A)
    (handler : exn -> option (M A)) :
  wait_bounded k1 body ->
  (forall e k, handler e = Some k -> wait_bounded k2 k) ->
  wait_bounded (k1 + k2) (try_except body handler).
Proof.
  intros (H1 & H2 & H3) Hh. unfold wait_bounded, try_except.
  destruct body as [t [a | e |]]; cbn [trace result fst snd] in *;
    try (repeat split; (lia || done)).
  destruct (handler e) as [[t' r] |] eqn:He;
    [| cbn [trace result fst snd]; repeat split; (lia || done)].
  destruct (Hh e _ He) as (F1 & F2 & F3). cbn [trace result fst snd] in *.
  rewrite count_app, slept_app. repeat split; (lia || done).
Qed.

Lemma wait_bounded_ret {A} (a : A) : wait_bounded 0 (ret a).
Proof. by repeat split. Qed.

Lemma wait_bounded_raise {A} (e : exn) : wait_bounded 0 (@raise A e).
Proof. by repeat split. Qed.

Lemma wait_bounded_emit (ev : event) : quiet ev = true -> wait_bounded 0 (emit ev).
Proof. by destruct ev; repeat split. Qed.

Lemma wait_bounded_call {A} (ev : event) (r : reply A) :
  quiet ev = true -> wait_bounded 0 (call ev r).
Proof. by destruct ev, r; repeat split. Qed.

Lemma wait_bounded_getitem (d : dict) (key : str) : wait_bounded 0 (getitem d key).
Proof. unfold getitem. by destruct (d !! key); repeat split. Qed.

Lemma wait_bounded_poll_loop (job_arn : option str) :
  wait_bounded 360 (poll_loop w poll_fuel job_arn 0 0 None).
Proof.
  destruct (poll_loop_bounds w poll_fuel 360 job_arn 0 0 None) as (Hc & Hs & Hf);
    [lia |].
  repeat split; [done | done |]. apply Hf. unfold poll_fuel. lia.
Qed.

(** The wait is bounded whatever the service answers. *)
Lemma submit_and_wait_bounded (s3_uri model_name role_arn : str) :
  wait_bounded 360 (submit_and_wait w s3_uri model_name role_arn).
Proof.
  unfold submit_and_wait, print, print_noend.
  apply (wait_bounded_mono (0 + (0 + (0 + (360 + (0 + (0 + (0 + (0 + 0))))))))); [lia |].
  apply wait_bounded_bind; [by apply wait_bounded_emit | intros _].
  apply wait_bounded_bind; [by apply wait_bounded_call | intros job].
  apply wait_bounded_bind; [by apply wait_bounded_emit | intros _].
  apply wait_bounded_bind; [apply wait_bounded_poll_loop | intros [d |]].
  - apply wait_bounded_bind; [apply wait_bounded_getitem | intros status].
    apply wait_bounded_bind; [by apply wait_bounded_emit | intros _].
    apply wait_bounded_bind; [apply wait_bounded_getitem | intros arn].
    apply wait_bounded_bind; [by apply wait_bounded_emit | intros _].
    apply wait_bounded_ret.
  - apply (wait_bounded_mono 0); [lia | apply wait_bounded_raise].
Qed.

Lemma create_bedrock_model_bounded (s3_uri model_name role_arn : str) :
  wait_bounded 360 (create_bedrock_model w s3_uri model_name role_arn).
Proof.
  unfold create_bedrock_model, print.
  apply (wait_bounded_mono (0 + 0 + 360)); [lia |].
  apply wait_bounded_bind.
  - apply wait_bounded_try.
    + apply (wait_bounded_mono (0 + (0 + (0 + (0 + 0))))); [lia |].
      apply wait_bounded_bind; [by apply wait_bounded_call | intros d].
      apply wait_bounded_bind; [by apply wait_bounded_emit | intros _].
      apply wait_bounded_bind; [apply wait_bounded_getitem | intros arn].
      apply wait_bounded_bind; [by apply wait_bounded_emit | intros _].
      apply wait_bounded_ret.
    + intros e k He. destruct e; simplify_eq. apply wait_bounded_ret.
  - intros [arn |].
    + apply (wait_bounded_mono 0); [lia | apply wait_bounded_ret].
    + apply submit_and_wait_bounded.
Qed.

(** Two answers "InProgress" and then a final answer that names the
    model and carries no failure message. *)
Lemma submit_and_wait_three_checks (s3_uri model_name role_arn : str)
    (job r0 r1 r2 : dict) (status arn : str) :
  let job_name :=
    py "import-" ++ slice_to 20 model_name ++ py "-" ++ str_of_int (time_ns w) in
  create_model_import_job w job_name model_name role_arn s3_uri = Reply job ->
  get_model_import_job w 0 (job !! py "jobArn") = Reply r0 ->
  r0 !! py "status" = Some (py "InProgress") ->
  get_model_import_job w 1 (job !! py "jobArn") = Reply r1 ->
  r1 !! py "status" = Some (py "InProgress") ->
  get_model_import_job w 2 (job !! py "jobArn") = Reply r2 ->
  r2 !! py "status" = Some status -> status <> py "InProgress" ->
  r2 !! py "failureMessage" = None ->
  r2 !! py "importedModelArn" = Some arn ->
  result (submit_and_wait w s3_uri model_name role_arn) = Returned arn /\
  count is_status_check (trace (submit_and_wait w s3_uri model_name role_arn)) = 3%nat.
Proof.
  intros job_name Hjob H0 S0 H1 S1 H2 S2 Hst Hfail Harn.
  unfold submit_and_wait. fold job_name. rewrite Hjob.
  cbn [call bind print print_noend emit app].
  change poll_fuel with (2 + 3598)%nat.
  rewrite (poll_loop_in_progress (fun i => match i with 0%nat => r0 | _ => r1 end)
             (job !! py "jobArn") 2 3598 0 0 None);
    [| lia | intros [| [| i]] Hi; (lia || done)].
  change 3598%nat with (S 3597).
  rewrite poll_loop_turn by lia. unfold poll_turn.
  cbn [Nat.add]. rewrite H2, S2, bool_decide_eq_false_2, Hfail by done.
  cbn [call bind print print_noend emit ret app trace result fst snd replicate concat].
  unfold getitem. rewrite S2, Harn.
  split; reflexivity.
Qed.

(** The ceiling: 360 answers "InProgress" in a row end the loop by its
    condition, and the last of them is read as if it were final. *)
Lemma poll_loop_ceiling (resp : nat -> dict) (job_arn : option str) :
  (forall i, (i < 360)%nat ->
     get_model_import_job w i job_arn = Reply (resp i) /\
     resp i !! py "status" = Some (py "InProgress")) ->
  poll_loop w poll_fuel job_arn 0 0 None
  = (concat (replicate 360 [Print (py "."); Sleep 10; GetModelImportJob job_arn]),
     Returned (Some (resp 359%nat))).
Proof.
  intros Hresp. change poll_fuel with (360 + 3240)%nat.
  rewrite (poll_loop_in_progress resp job_arn 360 3240 0 0 None);
    [| lia | intros i Hi; apply Hresp; lia].
  rewrite poll_loop_exit by lia. cbn [ret trace result fst snd Nat.add].
  by rewrite app_nil_r.
Qed.

Lemma submit_and_wait_ceiling (s3_uri model_name role_arn : str)
    (job : dict) (resp : nat -> dict) :
  let job_name :=
    py "import-" ++ slice_to 20 model_name ++ py "-" ++ str_of_int (time_ns w) in
  create_model_import_job w job_name model_name role_arn s3_uri = Reply job ->
  (forall i, (i < 360)%nat ->
     get_model_import_job w i (job !! py "jobArn") = Reply (resp i) /\
     resp i !! py "status" = Some (py "InProgress")) ->
  result (submit_and_wait w s3_uri model_name role_arn)
  = match resp 359%nat !! py "importedModelArn" with
    | Some arn => Returned arn
    | None => Raised (KeyError (py "importedModelArn"))
    end.
Proof.
  intros job_name Hjob Hresp.
  unfold submit_and_wait. fold job_name. rewrite Hjob.
  cbn [call bind print print_noend emit app].
  rewrite (poll_loop_ceiling resp _ Hresp).
  destruct (Hresp 359%nat) as [_ Hst]; [lia |].
  cbn [bind]. unfold getitem. rewrite Hst.
  cbn [bind ret print emit app].
  destruct (resp 359%nat !! py "importedModelArn"); reflexivity.
Qed.

End Waiting.

(** C3: the loop of [create_bedrock_model] sleeps ten time-units before
    each status check and stops at 3600: whatever the service answers,
    a run makes at most 360 checks, has slept ten units per check and so
    at most 3600, and comes to an end.  When the first two checks answer
    "InProgress" and the third a final status with the model's ARN and
    no failure message, the run makes exactly 3 checks and returns that
    ARN. *)
Theorem create_bedrock_model_polling (w : world) (s3_uri model_name role_arn : str) :
  let r := create_bedrock_model w s3_uri model_name role_arn in
  let job_name :=
    py "import-" ++ slice_to 20 model_name ++ py "-" ++ str_of_int (time_ns w) in
  ((count is_status_check (trace r) <= 360)%nat /\
   slept (trace r) = (10 * Z.of_nat (count is_status_check (trace r)))%Z /\
   (slept (trace r) <= 3600)%Z /\
   result r <> OutOfFuel) /\
  forall (code message status arn : str) (job r0 r1 r2 : dict),
    get_imported_model w model_name = Fault (ClientError code message) ->
    create_model_import_job w job_name model_name role_arn s3_uri = Reply job ->
    get_model_import_job w 0 (job !! py "jobArn") = Reply r0 ->
    r0 !! py "status" = Some (py "InProgress") ->
    get_model_import_job w 1 (job !! py "jobArn") = Reply r1 ->
    r1 !! py "status" = Some (py "InProgress") ->
    get_model_import_job w 2 (job !! py "jobArn") = Reply r2 ->
    r2 !! py "status" = Some status -> status <> py "InProgress" ->
    r2 !! py "failureMessage" = None ->
    r2 !! py "importedModelArn" = Some arn ->
    result r = Returned arn /\ count is_status_check (trace r) = 3%nat.
Proof.
  intros r job_name. split.
  - destruct (create_bedrock_model_bounded w s3_uri model_name role_arn)
      as (Hc & Hs & Hf).
    fold r in Hc, Hs, Hf. repeat split; (lia || done).
  - intros code message status arn job r0 r1 r2 Hget Hjob H0 S0 H1 S1 H2 S2 Hst
      Hfail Harn.
    subst r. rewrite (create_bedrock_model_client_error _ _ _ _ _ _ Hget).
    destruct (submit_and_wait_three_checks w s3_uri model_name role_arn
                job r0 r1 r2 status arn) as [Hr Hc]; try done.
Qed.

Lemma create_bedrock_model_polling_witness :
  result (create_bedrock_model three_checks_world (py "s3://b/models/m") (py "m")
            (py "arn:aws:iam::role/MyImportModelRole"))
  = Returned (py "arn:aws:bedrock:imported-model/m") /\
  count is_status_check
    (trace (create_bedrock_model three_checks_world (py "s3://b/models/m") (py "m")
              (py "arn:aws:iam::role/MyImportModelRole"))) = 3%nat.
Proof.
  apply (proj2 (create_bedrock_model_polling three_checks_world
                  (py "s3://b/models/m") (py "m")
                  (py "arn:aws:iam::role/MyImportModelRole"))
           (py "ResourceNotFoundException") (py "model not found")
           (py "Complete") (py "arn:aws:bedrock:imported-model/m")
           {[ py "jobArn" := py "arn:aws:bedrock:job/1" ]}
           in_progress in_progress complete);
    try (vm_compute; reflexivity).
  vm_compute. discriminate.
Defined.

(** The ceiling in general: when the look-up finds no model, the job is
    submitted and all 360 status checks answer "InProgress", no error
    tells of the time-out: the run reads the last answer as if it were
    final. *)
Lemma create_bedrock_model_ceiling (w : world) (s3_uri model_name role_arn : str)
    (code message : str) (job : dict) (resp : nat -> dict) :
  let job_name :=
    py "import-" ++ slice_to 20 model_name ++ py "-" ++ str_of_int (time_ns w) in
  get_imported_model w model_name = Fault (ClientError code message) ->
  create_model_import_job w job_name model_name role_arn s3_uri = Reply job ->
  (forall i, (i < 360)%nat ->
     get_model_import_job w i (job !! py "jobArn") = Reply (resp i) /\
     resp i !! py "status" = Some (py "InProgress")) ->
  result (create_bedrock_model w s3_uri model_name role_arn)
  = match resp 359%nat !! py "importedModelArn" with
    | Some arn => Returned arn
    | None => Raised (KeyError (py "importedModelArn"))
    end.
Proof.
  intros job_name Hget Hjob Hresp.
  rewrite (create_bedrock_model_client_error _ _ _ _ _ _ Hget).
  exact (submit_and_wait_ceiling w _ _ _ job resp Hjob Hresp).
Qed.

(** C2: a job that is still "InProgress" at every one of the 360 status
    checks.  When its answers already name the model the call returns
    that name as the imported model, after printing that the import
    finished with status 'InProgress'; when they do not, the call ends
    in [KeyError].  A failure reported by the service is the only case
    that raises the exception with the failure message. *)
Theorem create_bedrock_model_timeout_falls_through :
  let run answer :=
    create_bedrock_model (timeout_world answer) (py "s3://b/models/m") (py "m")
      (py "arn:aws:iam::role/MyImportModelRole") in
  count is_status_check (trace (run in_progress_named)) = 360%nat /\
  slept (trace (run in_progress_named)) = 3600%Z /\
  result (run in_progress_named) = Returned (py "arn:aws:bedrock:imported-model/m") /\
  rev (trace (run in_progress_named)) !! 1%nat
  = Some (Print (py "Finished model import with status 'InProgress'" ++ nl)) /\
  result (run in_progress) = Raised (KeyError (py "importedModelArn")) /\
  result (create_bedrock_model failing_world (py "s3://b/models/m") (py "m")
            (py "arn:aws:iam::role/MyImportModelRole"))
  = Raised (PyException (py "Failed to import model: bad weights")).
Proof. vm_compute. repeat split; reflexivity. Qed.

(** ** Splitting at the first separator *)

Lemma split1_cases (c : N) (s : str) :
  (split1 c s = [s] /\ c ∉ s) \/
  (exists a b, split1 c s = [a; b] /\ s = a ++ c :: b /\ c ∉ a).
Proof.
  induction s as [| x s IH]; cbn.
  - left. split; [done | apply not_elem_of_nil].
  - destruct (N.eqb_spec x c) as [-> | Hne].
    + right. exists [], s. repeat split. apply not_elem_of_nil.
    + destruct IH as [[-> Hs] | (a & b & -> & -> & Ha)].
      * left. split; [done |]. rewrite not_elem_of_cons. by split.
      * right. exists (x :: a), b. repeat split. rewrite not_elem_of_cons. by split.
Qed.

Lemma unpack2_split1 (c : N) (s : str) :
  (exists a b, split1 c s = [a; b] /\ unpack2 (split1 c s) = ret (a, b)) \/
  (split1 c s = [s] /\
   unpack2 (split1 c s)
   = raise (ValueError (py "not enough values to unpack (expected 2, got 1)"))).
Proof.
  destruct (split1_cases c s) as [[-> _] | (a & b & -> & _)].
  - right. split; reflexivity.
  - left. exists a, b. split; reflexivity.
Qed.

(** ** [cleanup_aws_resources] *)

(** The clean-up as one trace: the start-up message and the actions
    that the making of the clients lets it reach. *)
Lemma cleanup_aws_resources_run (w : world) (repr : exn -> str)
    (s3_uri model_id : str) :
  cleanup_aws_resources w repr s3_uri model_id
  = let start := Print (py "Cleaning up resources..." ++ nl) in
    let first :=
      role_teardown repr (delete_role_policy w IMPORT_MODEL_ROLE_NAME POLICY_NAME)
        (delete_role w IMPORT_MODEL_ROLE_NAME) in
    let second := model_teardown repr model_id (delete_custom_model w model_id) in
    let third := objects_teardown repr s3_uri model_id (delete_objects w) in
    match boto3_client w (py "bedrock") with
    | Fault e => (start :: first, Raised e)
    | Reply _ =>
        match boto3_resource w (py "s3") with
        | Fault e => (start :: first ++ second, Raised e)
        | Reply _ => (start :: first ++ second ++ third, Returned tt)
        end
    end.
Proof.
  unfold cleanup_aws_resources, best_effort, role_teardown, model_teardown,
    objects_teardown, s3_uri_to_bucket_and_key.
  fold POLICY_NAME.
  destruct (unpack2_split1 sep (normpath (removeprefix s3_uri (py "s3://"))))
    as [(a & b & -> & ->) | [-> ->]];
    destruct (delete_role_policy w IMPORT_MODEL_ROLE_NAME POLICY_NAME) as [[] | e1];
    destruct (delete_role w IMPORT_MODEL_ROLE_NAME) as [[] | e2];
    destruct (boto3_client w (py "bedrock")) as [[] | e5];
    destruct (delete_custom_model w model_id) as [[] | e3];
    destruct (boto3_resource w (py "s3")) as [[] | e6];
    cbn [made call bind try_except print emit ret raise app];
    try destruct (delete_objects w a _) as [[] | e4];
    reflexivity.
Qed.




(** ** [upload_to_s3] *)

Section Staging.

Variable w : world.

Lemma fast_upload_run (bucket key local_path : str) (files : list str) :
  fast_upload bucket key local_path files
  = (uploads local_path bucket key files, Returned tt).
Proof.
  induction files as [| f files IH]; [reflexivity |].
  cbn [fast_upload uploads map]. rewrite IH. reflexivity.
Qed.

Lemma probe_files_step (bucket key file : str) (files files_to_upload : list str) :
  probe_files w bucket key (file :: files) files_to_upload
  = match probe w bucket key file with
    | Present | Skipped =>
        (HeadObject bucket (key ++ [sep] ++ file)
         :: trace (probe_files w bucket key files files_to_upload),
         result (probe_files w bucket key files files_to_upload))
    | Missing =>
        (HeadObject bucket (key ++ [sep] ++ file)
         :: trace (probe_files w bucket key files (files_to_upload ++ [file])),
         result (probe_files w bucket key files (files_to_upload ++ [file])))
    | Fatal e => ([HeadObject bucket (key ++ [sep] ++ file)], Raised e)
    end.
Proof.
  unfold probe, classify. cbn [probe_files].
  destruct (head_object w bucket (key ++ [sep] ++ file)) as [[] | e].
  - cbn [call bind try_except ret app].
    by destruct (probe_files w bucket key files files_to_upload).
  - destruct e; try reflexivity.
    cbn [call bind try_except probe_handler].
    destruct (python_int w code) as [n | raised]; [| reflexivity].
    destruct (n =? 404)%Z; cbn [bind try_except ret app].
    + by destruct (probe_files w bucket key files (files_to_upload ++ [file])).
    + by destruct (probe_files w bucket key files files_to_upload).
Qed.

Lemma probe_files_no_fatal (bucket key : str) (files : list str) :
  forall files_to_upload : list str,
    Forall (fun f => is_fatal (probe w bucket key f) = false) files ->
    probe_files w bucket key files files_to_upload
    = (probes bucket key files,
       Returned (files_to_upload ++ delta w bucket key files)).
Proof.
  induction files as [| f files IH]; intros acc Hall.
  - cbn. by rewrite app_nil_r.
  - apply Forall_cons in Hall as [Hf Hall]. rewrite probe_files_step.
    cbn [delta probes map].
    destruct (probe w bucket key f); try discriminate;
      rewrite IH by done; cbn [trace result fst snd]; try reflexivity.
    by rewrite <- app_assoc.
Qed.

Lemma probe_files_fatal (bucket key file : str) (e : exn) (pre post : list str) :
  forall files_to_upload : list str,
    Forall (fun f => is_fatal (probe w bucket key f) = false) pre ->
    probe w bucket key file = Fatal e ->
    probe_files w bucket key (pre ++ file :: post) files_to_upload
    = (probes bucket key (pre ++ [file]), Raised e).
Proof.
  induction pre as [| f pre IH]; intros acc Hall Hfile.
  - cbn [app]. rewrite probe_files_step, Hfile. reflexivity.
  - apply Forall_cons in Hall as [Hf Hall]. cbn [app]. rewrite probe_files_step.
    destruct (probe w bucket key f); try discriminate;
      rewrite IH by done; reflexivity.
Qed.

(** A stage call in which no probe is fatal. *)
Lemma upload_to_s3_no_fatal (local_path s3_bucket model_name bucket key : str) :
  s3_uri_to_bucket_and_key (s3_bucket ++ [sep] ++ py "models/" ++ model_name)
  = [bucket; key] ->
  Forall (fun f => is_fatal (probe w bucket key f) = false) (walk w local_path) ->
  let location := py "s3://" ++ bucket ++ [sep] ++ key in
  let missing := delta w bucket key (walk w local_path) in
  upload_to_s3 w local_path s3_bucket model_name
  = (Print (py "Uploading model files to " ++ location ++ py "..." ++ nl)
     :: probes bucket key (walk w local_path)
     ++ match missing with
        | [] => [Print (py "All model files already uploaded." ++ nl)]
        | _ :: _ =>
            ProgressBar
              (foldr Z.add 0%Z
                 (map (fun f => st_size w (local_path ++ [sep] ++ f)) missing))
            :: uploads local_path bucket key missing
        end,
     Returned location).
Proof.
  intros Hdec Hall location missing. unfold upload_to_s3.
  rewrite Hdec. cbn [unpack2 bind ret print emit app].
  rewrite (probe_files_no_fatal bucket key _ [] Hall). cbn [app bind].
  fold missing. destruct missing as [| f missing'].
  - cbn [bind print emit ret app]. subst location.
    rewrite <- ?app_assoc, ?app_nil_r. reflexivity.
  - rewrite fast_upload_run. cbn [bind emit ret app]. subst location.
    rewrite <- ?app_assoc, ?app_nil_r. reflexivity.
Qed.

(** A stage call whose walk meets a fatal probe. *)
Lemma upload_to_s3_fatal (local_path s3_bucket model_name bucket key file : str)
    (e : exn) (pre post : list str) :
  s3_uri_to_bucket_and_key (s3_bucket ++ [sep] ++ py "models/" ++ model_name)
  = [bucket; key] ->
  walk w local_path = pre ++ file :: post ->
  Forall (fun f => is_fatal (probe w bucket key f) = false) pre ->
  probe w bucket key file = Fatal e ->
  upload_to_s3 w local_path s3_bucket model_name
  = (Print (py "Uploading model files to " ++ py "s3://" ++ bucket ++ [sep] ++ key
            ++ py "..." ++ nl)
     :: probes bucket key (pre ++ [file]),
     Raised e).
Proof.
  intros Hdec Hwalk Hall Hfile. unfold upload_to_s3.
  rewrite Hdec. cbn [unpack2 bind ret print emit app].
  rewrite Hwalk, (probe_files_fatal bucket key file e pre post [] Hall Hfile).
  cbn [bind app]. rewrite <- ?app_assoc. reflexivity.
Qed.

(** Whatever the probes answer, a stage call that returns gives back the
    location that the decomposition of the destination fixes. *)
Lemma upload_to_s3_returns (local_path s3_bucket model_name location : str) :
  result (upload_to_s3 w local_path s3_bucket model_name) = Returned location ->
  exists bucket key,
    s3_uri_to_bucket_and_key (s3_bucket ++ [sep] ++ py "models/" ++ model_name)
    = [bucket; key] /\
    location = py "s3://" ++ bucket ++ [sep] ++ key.
Proof.
  unfold upload_to_s3, s3_uri_to_bucket_and_key.
  destruct (unpack2_split1 sep
              (normpath (removeprefix (s3_bucket ++ [sep] ++ py "models/" ++ model_name)
                           (py "s3://"))))
    as [(a & b & -> & _) | [-> _]]; [| rewrite result_bind; discriminate].
  rewrite result_bind. cbn [unpack2 ret result snd].
  rewrite result_bind. cbn [print emit result snd].
  rewrite result_bind.
  destruct (result (probe_files w a b (walk w local_path) [])) as [d | e |];
    try discriminate.
  rewrite result_bind.
  destruct (result (match d with [] => _ | _ :: _ => _ end)); try discriminate.
  cbn [ret result snd]. intros [= <-]. by exists a, b.
Qed.

Lemma keep_app p t1 t2 : keep p (t1 ++ t2) = keep p t1 ++ keep p t2.
Proof.
  induction t1 as [| ev t1 IH]; cbn; [done |]. destruct (p ev); cbn; by rewrite IH.
Qed.

Lemma keep_probes (bucket key : str) (files : list str) :
  keep is_upload (probes bucket key files) = [].
Proof. induction files; cbn; done. Qed.

Lemma keep_uploads (local_path bucket key : str) (files : list str) :
  keep is_upload (uploads local_path bucket key files)
  = uploads local_path bucket key files.
Proof.
  unfold uploads. induction files as [| f files IH]; cbn; [done | by rewrite IH].
Qed.

Lemma count_probes p (bucket key : str) (files : list str) :
  (forall b k, p (HeadObject b k) = false) ->
  count p (probes bucket key files) = 0%nat.
Proof. intros Hp. induction files; cbn; [done |]. by rewrite Hp. Qed.

End Staging.

Lemma passed_over_probe (w : world) (bucket key file : str) :
  passed_over w bucket key file ->
  probe w bucket key file = Present \/ probe w bucket key file = Skipped.
Proof.
  unfold probe, classify. intros [-> | (code & message & n & -> & -> & Hn)].
  - by left.
  - right. destruct (Z.eqb_spec n 404); [lia | done].
Qed.

Lemma harmless_probe (w : world) (bucket key file : str) :
  harmless w bucket key file -> is_fatal (probe w bucket key file) = false.
Proof.
  unfold probe, classify. intros [-> | (code & message & n & -> & ->)]; [done |].
  by destruct (n =? 404)%Z.
Qed.

Lemma passed_over_delta (w : world) (bucket key : str) (files : list str) :
  Forall (passed_over w bucket key) files ->
  Forall (fun f => is_fatal (probe w bucket key f) = false) files /\
  delta w bucket key files = [].
Proof.
  induction 1 as [| f files Hf _ [IH1 IH2]]; [by split |].
  cbn [delta]. apply passed_over_probe in Hf as [Hf | Hf]; rewrite Hf;
    split; try done; constructor; by rewrite ?Hf.
Qed.

Lemma last_cons_snoc {A} (x y : A) (l : list A) : last (x :: l ++ [y]) = Some y.
Proof. by rewrite app_comm_cons, last_snoc. Qed.

(** A stage call all of whose probes are passed over. *)
Lemma upload_to_s3_nothing_to_do (w : world)
    (local_path s3_bucket model_name bucket key : str) :
  s3_uri_to_bucket_and_key (s3_bucket ++ [sep] ++ py "models/" ++ model_name)
  = [bucket; key] ->
  Forall (passed_over w bucket key) (walk w local_path) ->
  let r := upload_to_s3 w local_path s3_bucket model_name in
  result r = Returned (py "s3://" ++ bucket ++ [sep] ++ key) /\
  count is_upload (trace r) = 0%nat /\
  last (trace r) = Some (Print (py "All model files already uploaded." ++ nl)).
Proof.
  intros Hdec Hall r. subst r.
  destruct (passed_over_delta w bucket key _ Hall) as [Hnf Hdelta].
  rewrite (upload_to_s3_no_fatal w _ _ _ _ _ Hdec Hnf), Hdelta.
  cbn [trace result fst snd]. repeat split.
  - cbn [count is_upload]. rewrite count_app, count_probes by done. reflexivity.
  - apply last_cons_snoc.
Qed.

(** The reading of C1 that the code does not bear out, at a probe
    refused with 403: the stage call returns as if the files were
    staged. *)
Lemma probe_failures_do_not_propagate :
  ~ probe_failures_propagate forbidden_world (py "/cache/snapshot") (py "my-bucket")
      (py "foo-bar-1").
Proof.
  intros H.
  destruct (H (py "my-bucket") (py "models/foo-bar-1") (py "config.json")
              (ClientError (py "403") (py "Forbidden"))) as [e' He'].
  - vm_compute. reflexivity.
  - apply list_elem_of_here.
  - reflexivity.
  - intros (code & message & [= <- <-] & Hcode). vm_compute in Hcode. discriminate.
  - vm_compute in He'. discriminate.
Qed.

(** C1: a refused probe is taken for an object that is there.  When
    every probe of the walked files either finds its object or raises a
    [ClientError] whose code [int] reads as an integer other than 404
    (403, say), the stage call returns the location, transfers nothing
    and reports that all model files are uploaded, be there no object at
    all in the bucket.  A failed probe ends the stage call only when it
    is no [ClientError], or when [int] raises on its code: the call then
    ends with the exception of the probe, or with the one of [int]. *)
Theorem upload_to_s3_probe_failures (w : world)
    (local_path s3_bucket model_name bucket key : str) :
  s3_uri_to_bucket_and_key (s3_bucket ++ [sep] ++ py "models/" ++ model_name)
  = [bucket; key] ->
  let r := upload_to_s3 w local_path s3_bucket model_name in
  (Forall (passed_over w bucket key) (walk w local_path) ->
   result r = Returned (py "s3://" ++ bucket ++ [sep] ++ key) /\
   count is_upload (trace r) = 0%nat /\
   last (trace r) = Some (Print (py "All model files already uploaded." ++ nl))) /\
  (forall (pre post : list str) (file : str) (e raised : exn),
     walk w local_path = pre ++ file :: post ->
     Forall (harmless w bucket key) pre ->
     head_object w bucket (key ++ [sep] ++ file) = Fault e ->
     match e with
     | ClientError code _ => python_int w code = Fault raised
     | _ => raised = e
     end ->
     result r = Raised raised /\ count is_upload (trace r) = 0%nat).
Proof.
  intros Hdec r. split.
  - intros Hall. by apply upload_to_s3_nothing_to_do.
  - intros pre post file e raised Hwalk Hpre Hfile He. subst r.
    rewrite (upload_to_s3_fatal w _ _ _ bucket key file raised pre post Hdec Hwalk).
    + cbn [trace result fst snd count is_upload].
      split; [done |]. by rewrite count_probes.
    + eapply Forall_impl; [exact Hpre |]. intros f. apply harmless_probe.
    + unfold probe, classify. rewrite Hfile. destruct e; try by subst. by rewrite He.
Qed.

Lemma upload_to_s3_probe_failures_witness :
  result (upload_to_s3 forbidden_world (py "/cache/snapshot") (py "my-bucket")
            (py "foo-bar-1"))
  = Returned (py "s3://" ++ py "my-bucket" ++ [sep] ++ py "models/foo-bar-1") /\
  count is_upload
    (trace (upload_to_s3 forbidden_world (py "/cache/snapshot") (py "my-bucket")
              (py "foo-bar-1"))) = 0%nat /\
  last (trace (upload_to_s3 forbidden_world (py "/cache/snapshot") (py "my-bucket")
                 (py "foo-bar-1")))
  = Some (Print (py "All model files already uploaded." ++ nl)).
Proof.
  apply (proj1 (upload_to_s3_probe_failures forbidden_world (py "/cache/snapshot")
                  (py "my-bucket") (py "foo-bar-1") (py "my-bucket")
                  (py "models/foo-bar-1") eq_refl)).
  apply Forall_forall. intros f _. right.
  exists (py "403"), (py "Forbidden"), 403%Z. repeat split. discriminate.
Defined.

(** A connection error at the second probe ends the stage call. *)
Example upload_to_s3_offline :
  result (upload_to_s3 offline_world (py "/cache/snapshot") (py "my-bucket")
            (py "foo-bar-1"))
  = Raised (OtherError (py "EndpointConnectionError")).
Proof. vm_compute. reflexivity. Qed.

(** One file staged, one missing, one refused: only the missing one is
    transferred. *)
Example upload_to_s3_mixed :
  keep is_upload
    (trace (upload_to_s3 mixed_world (py "/cache/snapshot") (py "my-bucket")
              (py "foo-bar-1")))
  = [Upload (py "/cache/snapshot/model.safetensors") (py "my-bucket")
       (py "models/foo-bar-1/model.safetensors")].
Proof. vm_compute. reflexivity. Qed.

(** C4: when every probe of the walked files reports its object present,
    the stage call transfers nothing, reports that all files are
    uploaded, and returns the location that any run which returns, a
    first one included, gives for the same destination. *)
Theorem upload_to_s3_idempotent (w : world)
    (local_path s3_bucket model_name bucket key : str) :
  s3_uri_to_bucket_and_key (s3_bucket ++ [sep] ++ py "models/" ++ model_name)
  = [bucket; key] ->
  Forall (fun f => head_object w bucket (key ++ [sep] ++ f) = Reply tt)
    (walk w local_path) ->
  let r := upload_to_s3 w local_path s3_bucket model_name in
  result r = Returned (py "s3://" ++ bucket ++ [sep] ++ key) /\
  count is_upload (trace r) = 0%nat /\
  last (trace r) = Some (Print (py "All model files already uploaded." ++ nl)) /\
  forall (first : world) (first_path location : str),
    result (upload_to_s3 first first_path s3_bucket model_name) = Returned location ->
    location = py "s3://" ++ bucket ++ [sep] ++ key.
Proof.
  intros Hdec Hall r.
  destruct (upload_to_s3_nothing_to_do w local_path s3_bucket model_name bucket key
              Hdec) as (Hr & Hc & Hl).
  { eapply Forall_impl; [exact Hall |]. intros f Hf. by left. }
  repeat split; try done.
  intros first first_path location Hfirst.
  apply upload_to_s3_returns in Hfirst as (b & k & Hdec' & ->).
  rewrite Hdec in Hdec'. by injection Hdec' as <- <-.
Qed.

Lemma upload_to_s3_idempotent_witness :
  result (upload_to_s3 staged_world (py "/cache/snapshot") (py "my-bucket")
            (py "foo-bar-1"))
  = Returned (py "s3://" ++ py "my-bucket" ++ [sep] ++ py "models/foo-bar-1") /\
  count is_upload
    (trace (upload_to_s3 staged_world (py "/cache/snapshot") (py "my-bucket")
              (py "foo-bar-1"))) = 0%nat.
Proof.
  destruct (upload_to_s3_idempotent staged_world (py "/cache/snapshot")
              (py "my-bucket") (py "foo-bar-1") (py "my-bucket")
              (py "models/foo-bar-1") eq_refl) as (Hr & Hc & _).
  - apply Forall_forall. intros f _. reflexivity.
  - split; [exact Hr | exact Hc].
Defined.

(** ** Strings and paths *)

Lemma startswith_app (p s : str) : startswith (p ++ s) p = true.
Proof. induction p as [| a p IH]; cbn; [done |]. by rewrite N.eqb_refl, IH. Qed.

Lemma startswith_spec (s p : str) :
  startswith s p = true <-> exists t, s = p ++ t.
Proof.
  revert s. induction p as [| a p IH]; intros s; cbn.
  - split; [by exists s | done].
  - destruct s as [| b s]; [split; [done | by intros [t Ht]] |].
    rewrite andb_true_iff, N.eqb_eq, IH. split.
    + intros [-> [t ->]]. by exists t.
    + intros [t [= -> ->]]. split; [done | by exists t].
Qed.

Lemma removeprefix_app (p s : str) : removeprefix (p ++ s) p = s.
Proof. unfold removeprefix. by rewrite startswith_app, drop_app_length. Qed.

Lemma split_nonempty (c : N) (s : str) : split c s <> [].
Proof.
  induction s as [| x s IH]; cbn; [done |].
  destruct (x =? c); [done |]. by destruct (split c s).
Qed.

Lemma split_app_sep (c : N) (a b : str) :
  split c (a ++ c :: b) = split c a ++ split c b.
Proof.
  induction a as [| x a IH]; cbn.
  - by rewrite N.eqb_refl.
  - destruct (x =? c); rewrite IH; [done |].
    pose proof (split_nonempty c a). by destruct (split c a).
Qed.

Lemma split_word (c : N) (word : str) : c ∉ word -> split c word = [word].
Proof.
  induction word as [| x word IH]; intros Hc; cbn; [done |].
  apply not_elem_of_cons in Hc as [Hx Hc].
  destruct (N.eqb_spec x c); [congruence |]. by rewrite IH.
Qed.

Lemma split_free (c : N) (s : str) : Forall (fun word => c ∉ word) (split c s).
Proof.
  induction s as [| x s IH]; cbn.
  - constructor; [apply not_elem_of_nil | constructor].
  - destruct (N.eqb_spec x c) as [-> | Hne].
    + constructor; [apply not_elem_of_nil | done].
    + destruct (split c s) as [| word words]; [repeat constructor |].
      * rewrite not_elem_of_cons. split; [done | apply not_elem_of_nil].
      * apply Forall_cons in IH as [Hw Hws]. constructor; [| done].
        rewrite not_elem_of_cons. by split.
Qed.

Lemma split_join (c : N) (comps : list str) :
  comps <> [] -> Forall (fun word => c ∉ word) comps ->
  split c (join [c] comps) = comps.
Proof.
  induction comps as [| word comps IH]; [done |]. intros _ Hall.
  apply Forall_cons in Hall as [Hw Hall].
  destruct comps as [| word' comps]; [by apply split_word |].
  change (join [c] (word :: word' :: comps))
    with (word ++ c :: join [c] (word' :: comps)).
  by rewrite split_app_sep, split_word, IH.
Qed.

Lemma join_snoc (c : N) (comps : list str) (word : str) :
  comps <> [] -> join [c] (comps ++ [word]) = join [c] comps ++ c :: word.
Proof.
  induction comps as [| w comps IH]; [done |]. intros _.
  destruct comps as [| w' comps]; [done |].
  change (join [c] ((w :: w' :: comps) ++ [word]))
    with (w ++ c :: join [c] ((w' :: comps) ++ [word])).
  rewrite IH by done. cbn. by rewrite <- app_assoc.
Qed.



Lemma split1_at (c : N) (a b : str) : c ∉ a -> split1 c (a ++ c :: b) = [a; b].
Proof.
  induction a as [| x a IH]; intros Hc; cbn.
  - by rewrite N.eqb_refl.
  - apply not_elem_of_cons in Hc as [Hx Hc].
    destruct (N.eqb_spec x c); [congruence |]. by rewrite IH.
Qed.

(** ** [normpath] *)

Lemma normpath_nonempty (path : str) : normpath path <> [].
Proof.
  unfold normpath, str_eqb. case_bool_decide; [done |]. cbn zeta.
  case_bool_decide; done.
Qed.

Lemma Forall_removelast {A} (P : A -> Prop) (l : list A) :
  Forall P l -> Forall P (removelast l).
Proof.
  induction 1 as [| x l Hx Hl IH]; cbn; [constructor |].
  destruct l; [constructor | by constructor].
Qed.

Lemma normpath_step_kept (initial_slashes : nat) (new_comps : list str) (comp : str) :
  Forall kept new_comps -> sep ∉ comp ->
  Forall kept (normpath_step initial_slashes new_comps comp).
Proof.
  intros Hacc Hcomp. unfold normpath_step, str_eqb.
  case_bool_decide as Hempty; [done |]. case_bool_decide as Hdot; [done |].
  cbn [orb].
  destruct (negb (bool_decide (comp = dotdot)) || _ || _).
  - apply Forall_app. split; [done |]. by repeat constructor.
  - destruct (negb (bool_decide (new_comps = []))); [| done].
    by apply Forall_removelast.
Qed.

Lemma normpath_fold_kept (initial_slashes : nat) (comps : list str) :
  forall new_comps : list str,
    Forall kept new_comps -> Forall (fun comp => sep ∉ comp) comps ->
    Forall kept (fold_left (normpath_step initial_slashes) comps new_comps).
Proof.
  induction comps as [| comp comps IH]; intros acc Hacc Hall; [done |].
  apply Forall_cons in Hall as [Hcomp Hall]. cbn [fold_left].
  apply IH; [by apply normpath_step_kept | done].
Qed.

Lemma join_kept_no_slash (comps : list str) :
  Forall kept comps -> startswith (join [sep] comps) [sep] = false.
Proof.
  intros Hall. destruct comps as [| [| x word] comps]; [reflexivity | |].
  - apply Forall_cons in Hall as [[H _] _]. by destruct H.
  - apply Forall_cons in Hall as [[_ H] _].
    apply not_elem_of_cons in H as [Hx _].
    assert (Hs : startswith (x :: word ++ match comps with
                                             | [] => []
                                             | _ :: _ => [sep] ++ join [sep] comps
                                             end) [sep] = false).
    { cbn [startswith app]. destruct (N.eqb_spec sep x); [congruence | reflexivity]. }
    destruct comps; cbn [join]; [by rewrite app_nil_r in Hs | exact Hs].
Qed.

Lemma normpath_startswith (path : str) :
  startswith (normpath path) [sep] = startswith path [sep].
Proof.
  unfold normpath, str_eqb. case_bool_decide as Hempty; [by subst |].
  destruct (startswith path [sep]) eqn:Hs.
  - destruct (startswith path [sep; sep] && negb (startswith path [sep; sep; sep]));
      reflexivity.
  - cbn zeta. cbn [replicate app].
    case_bool_decide; [done |].
    apply join_kept_no_slash, normpath_fold_kept; [constructor | apply split_free].
Qed.

Lemma normpath_step_plain (initial_slashes : nat) (new_comps : list str) (comp : str) :
  plain comp -> normpath_step initial_slashes new_comps comp = new_comps ++ [comp].
Proof.
  intros (Hempty & _ & Hdot & Hdotdot). unfold normpath_step, str_eqb.
  rewrite (bool_decide_eq_false_2 (comp = empty)),
    (bool_decide_eq_false_2 (comp = dot)),
    (bool_decide_eq_false_2 (comp = dotdot)) by done.
  reflexivity.
Qed.

Lemma normpath_fold_plain (initial_slashes : nat) (comps : list str) :
  forall new_comps : list str,
    Forall plain comps ->
    fold_left (normpath_step initial_slashes) comps new_comps = new_comps ++ comps.
Proof.
  induction comps as [| comp comps IH]; intros acc Hall; cbn [fold_left].
  - by rewrite app_nil_r.
  - apply Forall_cons in Hall as [Hcomp Hall].
    by rewrite normpath_step_plain, IH, <- app_assoc.
Qed.

Lemma plain_kept (comp : str) : plain comp -> kept comp.
Proof. by intros (H1 & H2 & _). Qed.



(** ** [s3_uri_to_bucket_and_key] *)

(** The reading of C7 that the code does not bear out: the empty
    location and a bucket without key are answered with one component,
    and a location that starts with ['/'] with an empty bucket. *)
Lemma s3_uri_to_bucket_and_key_not_validated :
  s3_uri_to_bucket_and_key (py "") = [py "."] /\
  ~ validated (s3_uri_to_bucket_and_key (py "")) /\
  s3_uri_to_bucket_and_key (py "s3://my-bucket") = [py "my-bucket"] /\
  ~ validated (s3_uri_to_bucket_and_key (py "s3://my-bucket")) /\
  s3_uri_to_bucket_and_key (py "s3:///models") = [py ""; py "models"] /\
  ~ validated (s3_uri_to_bucket_and_key (py "s3:///models")).
Proof.
  repeat split; try (vm_compute; reflexivity);
    intros (bucket & key & H & Hne); vm_compute in H;
    try discriminate.
  injection H as <- _. by apply Hne.
Qed.

(** C7, as the code has it: the decomposition checks nothing.  It
    answers every location with the normal form of the location without
    its scheme, whole when that has no ['/'] (the two-name unpacking of
    the callers then raises [ValueError]) and cut at its first ['/']
    otherwise; the normal form is never empty, and the bucket is empty
    exactly when the location without its scheme starts with ['/']. *)
Theorem s3_uri_to_bucket_and_key_unvalidated (s3_uri : str) :
  let path := normpath (removeprefix s3_uri (py "s3://")) in
  path <> empty /\
  ((sep ∉ path) /\
   s3_uri_to_bucket_and_key s3_uri = [path] /\
   unpack2 (s3_uri_to_bucket_and_key s3_uri)
   = raise (ValueError (py "not enough values to unpack (expected 2, got 1)"))
   \/
   exists bucket key,
     s3_uri_to_bucket_and_key s3_uri = [bucket; key] /\
     path = bucket ++ sep :: key /\
     (sep ∉ bucket) /\
     unpack2 (s3_uri_to_bucket_and_key s3_uri) = ret (bucket, key) /\
     (bucket = empty <->
      startswith (removeprefix s3_uri (py "s3://")) [sep] = true)).
Proof.
  intros path. split; [apply normpath_nonempty |].
  unfold s3_uri_to_bucket_and_key. fold path.
  destruct (split1_cases sep path) as [[Hs Hfree] | (a & b & Hs & Hpath & Ha)].
  - left. rewrite Hs. repeat split; done.
  - right. exists a, b. rewrite Hs. repeat split; try done.
    + intros ->. subst path. rewrite <- normpath_startswith, Hpath. reflexivity.
    + intros Hstart. subst path. rewrite <- normpath_startswith, Hpath in Hstart.
      destruct a as [| x a]; [done |].
      apply not_elem_of_cons in Ha as [Hx _]. cbn [startswith app] in Hstart.
      destruct (N.eqb_spec sep x); [congruence | done].
Qed.

(** ** Staging against reclamation *)



Lemma probe_files_quiet (w : world) (bucket key : str) (files : list str) :
  forall acc : list str,
    keep is_upload (trace (probe_files w bucket key files acc)) = [].
Proof.
  induction files as [| f files IH]; intros acc; [reflexivity |].
  rewrite probe_files_step.
  destruct (probe w bucket key f); cbn [trace fst keep is_upload]; by rewrite ?IH.
Qed.


Lemma plainb_plain (comp : str) : plainb comp = true -> plain comp.
Proof.
  unfold plainb, plain, str_eqb.
  rewrite !andb_true_iff, !negb_true_iff, !bool_decide_eq_false, forallb_forall.
  intros (((H1 & H2) & H3) & H4). repeat split; try done.
  intros Hsep%list_elem_of_In. specialize (H2 _ Hsep).
  by rewrite N.eqb_refl in H2.
Qed.

Lemma plain_models : plain (py "models").
Proof. by apply plainb_plain. Qed.

Lemma plain_sanitized (model_id : str) :
  model_id <> [] -> plain (sanitize_model_id model_id).
Proof.
  intros Hne. pose proof (sanitize_model_id_in_class model_id) as Hclass.
  pose proof (sanitize_model_id_length model_id) as Hlen.
  repeat split.
  - intros H. rewrite H in Hlen. by destruct model_id.
  - intros Hsep. rewrite Forall_forall in Hclass. by specialize (Hclass _ Hsep).
  - intros H. rewrite H in Hclass. by apply Forall_cons in Hclass as [? _].
  - intros H. rewrite H in Hclass. by apply Forall_cons in Hclass as [? _].
Qed.





Lemma endswith_no_slash (a word : str) :
  word <> [] -> sep ∉ word -> endswith (a ++ word) [sep] = false.
Proof.
  intros Hne Hsep. unfold endswith. rewrite rev_app_distr.
  destruct (rev word) as [| x r] eqn:Hrev.
  - apply (f_equal (@rev N)) in Hrev. rewrite rev_involutive in Hrev. by subst.
  - cbn [rev app startswith].
    destruct (N.eqb_spec sep x) as [<- | Hx]; [| reflexivity].
    exfalso. apply Hsep. apply list_elem_of_In, in_rev. rewrite Hrev. by left.
Qed.

(** The key of a staged file under a root that ends in a component. *)
Lemma path_join_under (a word file : str) :
  word <> [] -> sep ∉ word -> startswith file [sep] = false ->
  path_join (a ++ word) file = (a ++ word) ++ [sep] ++ file.
Proof.
  intros Hne Hsep Hfile. unfold path_join, str_eqb.
  rewrite Hfile, endswith_no_slash, bool_decide_eq_false_2; try done.
  intros H. apply app_eq_nil in H as [_ H]. done.
Qed.

(** [import_model_to_bedrock] stages under the sanitized identifier: its
    trace starts with the download and the stage call for it. *)
Lemma import_model_to_bedrock_stages (w : world) (model_id s3_bucket local_path : str) :
  snapshot_download w model_id = Reply local_path ->
  [Print (py "Downloading model " ++ model_id ++ py " from Hugging Face..." ++ nl);
   SnapshotDownload model_id;
   Print (py "Model downloaded to " ++ local_path ++ py "." ++ nl)]
  ++ trace (upload_to_s3 w local_path s3_bucket (sanitize_model_id model_id))
  `prefix_of` trace (import_model_to_bedrock w model_id s3_bucket).
Proof.
  intros Hget. unfold import_model_to_bedrock, download_model.
  rewrite Hget. cbn [call bind print emit ret app].
  set (stage := upload_to_s3 w local_path s3_bucket (sanitize_model_id model_id)).
  set (k := fun s3_uri : str => _).
  destruct (bind stage k) as [t r] eqn:Hb. cbn [trace fst].
  rewrite <- !app_assoc. cbn [app]. do 3 apply prefix_cons.
  rewrite <- ?app_assoc, ?app_nil_r.
  replace t with (trace (bind stage k)) by (by rewrite Hb).
  apply trace_bind_prefix.
Qed.

(** A bare bucket: the stage call puts the files under [models/gpt2],
    and the third action of the clean-up stops at the unpacking. *)
Example cleanup_bare_bucket :
  staging_root (py "my-bucket") (py "gpt2") = [py "my-bucket"; py "models/gpt2"] /\
  keep is_delete_objects
    (trace (cleanup_aws_resources staged_world class_name (py "my-bucket") (py "gpt2")))
  = [] /\
  last (trace (cleanup_aws_resources staged_world class_name (py "my-bucket")
                 (py "gpt2")))
  = Some (Print (py "Unable to delete S3 prefix: ValueError" ++ nl)).
Proof. vm_compute. repeat split; reflexivity. Qed.


(** ** Staging twice *)

Lemma transferred_spec (t : list event) :
  forall (objects : gset (list N * list N)) (bucket key : str),
    (bucket, key) ∈ transferred t objects <->
    (bucket, key) ∈ objects \/ exists filename, Upload filename bucket key ∈ t.
Proof.
  induction t as [| ev t IH]; intros objects bucket key; cbn [transferred].
  - split; [by left | intros [H | [f Hf]]; [done | by apply elem_of_nil in Hf]].
  - assert (Hskip :
      (forall f b k, ev <> Upload f b k) ->
      (bucket, key) ∈ transferred t objects <->
      (bucket, key) ∈ objects \/ exists filename, Upload filename bucket key ∈ ev :: t).
    { intros Hev. rewrite IH. split; intros [H | [f Hf]]; try (by left).
      - right. exists f. by right.
      - right. exists f. apply elem_of_cons in Hf as [Hf | Hf]; [| done].
        by destruct (Hev f bucket key). }
    destruct ev; try (apply Hskip; discriminate).
    rewrite IH, elem_of_union, elem_of_singleton. split.
    + intros [[[= -> ->] | H] | [f Hf]].
      * right. exists filename. by left.
      * by left.
      * right. exists f. by right.
    + intros [H | [f Hf]]; [by left; right |].
      apply elem_of_cons in Hf as [[= -> -> ->] | Hf]; [by left; left |].
      right. by exists f.
Qed.

Lemma probe_store_world (files : list str) (objects : gset (list N * list N))
    (bucket key file : str) :
  probe (store_world files objects) bucket key file
  = if bool_decide ((bucket, key ++ [sep] ++ file) ∈ objects) then Present else Missing.
Proof. unfold probe. cbn [head_object store_world sample_world]. by case_bool_decide. Qed.

Lemma delta_elem (w : world) (bucket key file : str) (files : list str) :
  file ∈ files -> probe w bucket key file = Missing -> file ∈ delta w bucket key files.
Proof.
  intros Hin Hmiss. induction files as [| f files IH]; [by apply elem_of_nil in Hin |].
  cbn [delta]. apply elem_of_cons in Hin as [<- | Hin].
  - rewrite Hmiss. by left.
  - destruct (probe w bucket key f); try by apply IH. right. by apply IH.
Qed.

Lemma join_last_word (comps : list str) :
  comps <> [] -> Forall kept comps ->
  exists a word, join [sep] comps = a ++ word /\ kept word.
Proof.
  intros Hne Hall. destruct (exists_last Hne) as (init & word & ->).
  apply Forall_app in Hall as [_ Hword]. apply Forall_cons in Hword as [Hword _].
  destruct init as [| c init].
  - by exists [], word.
  - rewrite join_snoc by done. exists (join [sep] (c :: init) ++ [sep]), word.
    by rewrite <- app_assoc.
Qed.

(** A relative path is normalised into [.] or into kept components. *)
Lemma normpath_relative (path : str) :
  startswith path [sep] = false ->
  normpath path = dot \/
  exists comps, comps <> [] /\ Forall kept comps /\ normpath path = join [sep] comps.
Proof.
  intros Hrel. unfold normpath, str_eqb. case_bool_decide; [by left |].
  rewrite Hrel. cbn zeta. cbn [replicate app].
  case_bool_decide as Hjoin; [by left |]. right.
  exists (fold_left (normpath_step 0) (split sep path) []). repeat split.
  - intros Hnil. by rewrite Hnil in Hjoin.
  - apply normpath_fold_kept; [constructor | apply split_free].
Qed.

(** The key that goes with a bucket that is not empty ends in a kept
    component. *)
Lemma s3_uri_to_bucket_and_key_shape (s3_uri bucket key : str) :
  s3_uri_to_bucket_and_key s3_uri = [bucket; key] -> bucket <> empty ->
  exists a word, key = a ++ word /\ kept word.
Proof.
  unfold s3_uri_to_bucket_and_key. intros Hdec Hbucket.
  set (path := normpath (removeprefix s3_uri (py "s3://"))) in *.
  destruct (split1_cases sep path) as [[Hs _] | (b & k & Hs & Hpath & Hb)];
    rewrite Hs in Hdec; [discriminate |].
  injection Hdec as -> ->.
  assert (Hrel : startswith path [sep] = false).
  { rewrite Hpath. destruct bucket as [| x bucket]; [done |].
    apply not_elem_of_cons in Hb as [Hx _]. cbn [startswith app].
    destruct (N.eqb_spec sep x); [congruence | reflexivity]. }
  unfold path in Hrel. rewrite normpath_startswith in Hrel.
  apply normpath_relative in Hrel as [Hdot | (comps & Hne & Hkept & Hjoin)];
    fold path in Hdot || fold path in Hjoin.
  - rewrite Hpath in Hdot. destruct bucket as [| x [| y bucket]]; discriminate.
  - destruct comps as [| c rest]; [done |].
    apply Forall_cons in Hkept as [[_ Hc] Hrest].
    destruct rest as [| c' rest].
    + cbn [join] in Hjoin. rewrite Hjoin in Hpath. exfalso. apply Hc.
      rewrite Hpath. apply elem_of_app. right. by left.
    + change (join [sep] (c :: c' :: rest))
        with (c ++ sep :: join [sep] (c' :: rest)) in Hjoin.
      assert (Hcut : split1 sep path = [c; join [sep] (c' :: rest)])
        by (rewrite Hjoin; by apply split1_at).
      rewrite Hs in Hcut. injection Hcut as -> ->.
      exact (join_last_word (c' :: rest) ltac:(done) Hrest).
Qed.

(** X8: staging is idempotent against a store: once the transfers of a
    first stage call are done, a second call for the same files and
    destination finds every object, transfers nothing and returns the
    same location.  The bucket is not empty and the walked paths are
    relative, as [os.path.relpath] gives them. *)
Theorem upload_to_s3_twice (files : list str) (objects : gset (list N * list N))
    (local_path s3_bucket model_name bucket key : str) :
  s3_uri_to_bucket_and_key (s3_bucket ++ [sep] ++ py "models/" ++ model_name)
  = [bucket; key] ->
  bucket <> empty ->
  Forall (fun f => startswith f [sep] = false) files ->
  let first := upload_to_s3 (store_world files objects) local_path s3_bucket model_name in
  let second :=
    upload_to_s3 (store_world files (transferred (trace first) objects))
      local_path s3_bucket model_name in
  result first = Returned (py "s3://" ++ bucket ++ [sep] ++ key) /\
  keep is_upload (trace first)
  = uploads local_path bucket key (delta (store_world files objects) bucket key files) /\
  result second = result first /\
  count is_upload (trace second) = 0%nat /\
  last (trace second) = Some (Print (py "All model files already uploaded." ++ nl)).
Proof.
  intros Hdec Hbucket Hrel first second.
  destruct (s3_uri_to_bucket_and_key_shape _ _ _ Hdec Hbucket)
    as (a & word & -> & Hne & Hsep).
  assert (Hsafe : forall objs,
            Forall (fun f => is_fatal (probe (store_world files objs) bucket
                                         (a ++ word) f) = false) files).
  { intros objs. apply Forall_forall. intros f _. rewrite probe_store_world.
    by case_bool_decide. }
  assert (Hfirst := upload_to_s3_no_fatal (store_world files objects) local_path
                      s3_bucket model_name bucket (a ++ word) Hdec (Hsafe objects)).
  cbn zeta in Hfirst. fold first in Hfirst.
  assert (Hkeep : keep is_upload (trace first)
                  = uploads local_path bucket (a ++ word)
                      (delta (store_world files objects) bucket (a ++ word) files)).
  { rewrite Hfirst. cbn [trace fst keep is_upload walk store_world sample_world].
    rewrite keep_app, keep_probes. cbn [app].
    destruct (delta _ _ _ files); [reflexivity |].
    cbn [keep is_upload]. apply keep_uploads. }
  destruct (upload_to_s3_nothing_to_do
              (store_world files (transferred (trace first) objects))
              local_path s3_bucket model_name bucket (a ++ word) Hdec)
    as (Hr & Hc & Hl).
  { apply Forall_forall. intros f Hf. left.
    cbn [head_object store_world sample_world walk] in *.
    rewrite bool_decide_eq_true_2; [done |].
    apply transferred_spec.
    destruct (decide ((bucket, (a ++ word) ++ [sep] ++ f) ∈ objects)) as [Hin | Hout];
      [by left | right].
    exists (path_join local_path f).
    assert (Hup : Upload (path_join local_path f) bucket (path_join (a ++ word) f)
                  ∈ keep is_upload (trace first)).
    { rewrite Hkeep. unfold uploads. apply list_elem_of_fmap.
      exists f. split; [done |]. apply delta_elem; [done |].
      rewrite probe_store_world. by rewrite bool_decide_eq_false_2. }
    rewrite path_join_under in Hup;
      [| done | done | by rewrite Forall_forall in Hrel; apply Hrel].
    clear -Hup. induction (trace first) as [| ev t IH]; [by apply elem_of_nil in Hup |].
    cbn [keep] in Hup. destruct (is_upload ev).
    - apply elem_of_cons in Hup as [<- | Hup]; [by left | right; by apply IH].
    - right. by apply IH. }
  fold second in Hr, Hc, Hl.
  repeat split; try done.
  - by rewrite Hfirst.
  - by rewrite Hr, Hfirst.
Qed.

(** ** The destination of a stage call always decomposes *)

(** Without its scheme, the destination of a stage call still ends in
    the components [models] and the model name. *)
Lemma destination_tail (s3_bucket model_name : str) :
  exists pre : list str,
    split sep (removeprefix (s3_bucket ++ [sep] ++ py "models/" ++ model_name)
                 (py "s3://"))
    = pre ++ split sep (py "models" ++ sep :: model_name).
Proof.
  change (py "models/" ++ model_name) with (py "models" ++ sep :: model_name).
  set (tail := py "models" ++ sep :: model_name).
  unfold removeprefix.
  destruct (startswith (s3_bucket ++ [sep] ++ tail) (py "s3://")) eqn:Hs.
  - change (length (py "s3://")) with 5%nat.
    apply startswith_spec in Hs as [t Ht].
    change (py "s3://") with [115; 51; 58; 47; 47] in Ht.
    unfold tail in Ht. change (py "models") with (109 :: py "odels") in Ht.
    unfold sep in Ht.
    destruct s3_bucket as [| a [| b [| c [| d [| e rest]]]]];
      cbn [app] in Ht; try (exfalso; simplify_eq; fail).
    + exists []. reflexivity.
    + exists (split sep rest). cbn [drop app]. by rewrite drop_0, split_app_sep.
  - exists (split sep s3_bucket). cbn [app]. by rewrite split_app_sep.
Qed.

Lemma elem_of_join_snoc (comps : list str) (word : str) :
  comps <> [] -> sep ∈ join [sep] (comps ++ [word]).
Proof.
  intros Hne. rewrite join_snoc by done. apply elem_of_app. right. by left.
Qed.

(** For a model name made of the characters that [sanitize_model_id]
    keeps, the destination of a stage call decomposes into a bucket and
    a key, whatever the bucket argument: the unpacking of [upload_to_s3]
    cannot fail in [import_model_to_bedrock]. *)
Lemma upload_destination_decomposes (s3_bucket model_name : str) :
  model_name <> [] -> Forall (fun c => in_class c = true) model_name ->
  exists bucket key,
    s3_uri_to_bucket_and_key (s3_bucket ++ [sep] ++ py "models/" ++ model_name)
    = [bucket; key].
Proof.
  intros Hne Hclass.
  assert (Hname : plain model_name).
  { apply sanitize_model_id_fixed in Hclass. rewrite <- Hclass.
    by apply plain_sanitized. }
  unfold s3_uri_to_bucket_and_key.
  destruct (destination_tail s3_bucket model_name) as [pre Hsplit].
  set (path := removeprefix _ _) in *.
  rewrite split_app_sep, (split_word sep (py "models")),
    (split_word sep model_name) in Hsplit
    by (apply plain_models || apply Hname).
  assert (Hin : sep ∈ normpath path).
  { unfold normpath, str_eqb. case_bool_decide as Hempty.
    - rewrite Hempty in Hsplit. by destruct pre as [| ? [| ? ?]].
    - cbn zeta. rewrite Hsplit, fold_left_app. cbn [fold_left app].
      rewrite !normpath_step_plain by (apply plain_models || apply Hname).
      set (n := if startswith path [sep] then _ else _).
      set (acc := fold_left (normpath_step n) pre []).
      assert (Hjoin : sep ∈ replicate n sep
                        ++ join [sep] ((acc ++ [py "models"]) ++ [model_name])).
      { apply elem_of_app. right. apply elem_of_join_snoc. by destruct acc. }
      case_bool_decide as Hnil; [| done].
      rewrite Hnil in Hjoin. by apply elem_of_nil in Hjoin. }
  destruct (split1_cases sep (normpath path)) as [[_ Hfree] | (a & b & -> & _)];
    [done | by exists a, b].
Qed.

(** In [import_model_to_bedrock] the stage call never stops at the
    unpacking of its destination. *)
Lemma staging_root_decomposes (s3_uri model_id : str) :
  model_id <> [] ->
  exists bucket key, staging_root s3_uri model_id = [bucket; key].
Proof.
  intros Hne. apply upload_destination_decomposes.
  - intros H. apply (f_equal length) in H.
    rewrite sanitize_model_id_length in H. by destruct model_id.
  - apply sanitize_model_id_in_class.
Qed.

(** ** Transfers are made by the stage call only *)












(** ** The pipeline on a sample *)

(** Identifier [foo/bar-1], destination [my-bucket], three local files
    and an empty bucket: the three files go under
    [my-bucket/models/foo-bar-1/], one job is submitted for the model
    [foo-bar-1], and its ARN comes back. *)
Example import_model_to_bedrock_sample :
  let w :=
    store_world [py "config.json"; py "model.safetensors"; py "tokenizer.json"] ∅ in
  let r := import_model_to_bedrock w (py "foo/bar-1") (py "my-bucket") in
  result r = Returned (py "arn:aws:bedrock:imported-model/m") /\
  keep is_upload (trace r)
  = [Upload (py "/cache/snapshot/config.json") (py "my-bucket")
       (py "models/foo-bar-1/config.json");
     Upload (py "/cache/snapshot/model.safetensors") (py "my-bucket")
       (py "models/foo-bar-1/model.safetensors");
     Upload (py "/cache/snapshot/tokenizer.json") (py "my-bucket")
       (py "models/foo-bar-1/tokenizer.json")] /\
  keep is_submission (trace r)
  = [CreateModelImportJob (py "import-foo-bar-1-1730000000000000000") (py "foo-bar-1")
       (py "arn:aws:iam::role/MyImportModelRole") (py "s3://my-bucket/models/foo-bar-1")] /\
  count is_status_check (trace r) = 1%nat.
Proof. vm_compute. repeat split; reflexivity. Qed.

(** The identifier [org/name] under [s3://my-bucket/p]: the files are
    staged under [p/models/org-name], the clean-up clears
    [p/models/org/name], and the staged objects stay. *)
Example reclaim_org_name :
  staging_root (py "s3://my-bucket/p") (py "org/name")
  = [py "my-bucket"; py "p/models/org-name"] /\
  cleanup_target (py "s3://my-bucket/p") (py "org/name")
  = Some (py "my-bucket", py "p/models/org/name") /\
  covers (cleanup_target (py "s3://my-bucket/p") (py "org/name")) (py "my-bucket")
    (path_join (py "p/models/org-name") (py "config.json")) = false.
Proof. vm_compute. repeat split; reflexivity. Qed.

(** * Further properties of the controller *)

Section Settling.

Variable w : world.

Lemma count_turns (job_arn : option str) (n : nat) :
  count is_status_check
    (concat (replicate n [Print (py "."); Sleep 10; GetModelImportJob job_arn])) = n /\
  slept (concat (replicate n [Print (py "."); Sleep 10; GetModelImportJob job_arn]))
  = (10 * Z.of_nat n)%Z.
Proof.
  induction n as [| n [IHc IHs]]; [done |].
  cbn [replicate concat app count slept is_status_check]. rewrite IHc, IHs.
  split; lia.
Qed.

(** The status checks and the sleep of a run are those of its loop. *)
Lemma submit_and_wait_checks (s3_uri model_name role_arn : str) (job : dict) :
  let job_name :=
    py "import-" ++ slice_to 20 model_name ++ py "-" ++ str_of_int (time_ns w) in
  create_model_import_job w job_name model_name role_arn s3_uri = Reply job ->
  let loop := poll_loop w poll_fuel (job !! py "jobArn") 0 0 None in
  count is_status_check (trace (submit_and_wait w s3_uri model_name role_arn))
  = count is_status_check (trace loop) /\
  slept (trace (submit_and_wait w s3_uri model_name role_arn)) = slept (trace loop) /\
  result (submit_and_wait w s3_uri model_name role_arn)
  = match result loop with
    | Returned (Some d) =>
        match d !! py "status" with
        | None => Raised (KeyError (py "status"))
        | Some _ =>
            match d !! py "importedModelArn" with
            | Some arn => Returned arn
            | None => Raised (KeyError (py "importedModelArn"))
            end
        end
    | Returned None => Raised (UnboundLocalError (py "job_response"))
    | Raised e => Raised e
    | OutOfFuel => OutOfFuel
    end.
Proof.
  intros job_name Hjob loop. unfold submit_and_wait. fold job_name. rewrite Hjob.
  cbn [call bind print print_noend emit app]. fold loop.
  destruct loop as [t [[d |] | e |]]; cbn [bind trace result fst snd raise];
    rewrite ?app_nil_r; try (cbn; repeat split; reflexivity).
  unfold getitem.
  destruct (d !! py "status") as [status |];
    [destruct (d !! py "importedModelArn") as [arn |] |];
    cbn [bind ret raise print emit app trace result fst snd count slept
           is_status_check];
    rewrite ?count_app, ?slept_app; cbn; repeat split; lia.
Qed.

(** The loop up to its first answer that is not "InProgress". *)
Lemma poll_loop_settles (resp : nat -> dict) (job_arn : option str) (n : nat) :
  (n < 360)%nat ->
  (forall i, (i < n)%nat ->
     get_model_import_job w i job_arn = Reply (resp i) /\
     resp i !! py "status" = Some (py "InProgress")) ->
  let turn := poll_turn w (3599 - n) job_arn (10 * Z.of_nat n) n in
  poll_loop w poll_fuel job_arn 0 0 None
  = (concat (replicate n [Print (py "."); Sleep 10; GetModelImportJob job_arn])
     ++ trace turn, result turn).
Proof.
  intros Hn Hresp turn.
  replace poll_fuel with (n + S (3599 - n))%nat by (unfold poll_fuel; lia).
  rewrite (poll_loop_in_progress w resp job_arn n (S (3599 - n)) 0 0 None);
    [| lia | intros i Hi; apply Hresp; lia].
  cbn [Nat.add]. rewrite Z.add_0_l, poll_loop_turn by lia. reflexivity.
Qed.

End Settling.

(** X1: the first answer that is not "InProgress" settles the run,
    whatever its status says.  After [n < 360] answers "InProgress", an
    answer with any other status ends the run at its [n + 1]-th check,
    after [10 (n + 1)] time-units of sleep: with a failure message the
    call raises [Exception("Failed to import model: " + message)];
    without one it returns the [importedModelArn] of the answer, or
    stops with [KeyError] when the answer has none. *)
Theorem create_bedrock_model_settles (w : world) (s3_uri model_name role_arn : str)
    (code message status : str) (job d : dict) (resp : nat -> dict) (n : nat) :
  let job_name :=
    py "import-" ++ slice_to 20 model_name ++ py "-" ++ str_of_int (time_ns w) in
  (n < 360)%nat ->
  get_imported_model w model_name = Fault (ClientError code message) ->
  create_model_import_job w job_name model_name role_arn s3_uri = Reply job ->
  (forall i, (i < n)%nat ->
     get_model_import_job w i (job !! py "jobArn") = Reply (resp i) /\
     resp i !! py "status" = Some (py "InProgress")) ->
  get_model_import_job w n (job !! py "jobArn") = Reply d ->
  d !! py "status" = Some status -> status <> py "InProgress" ->
  let r := create_bedrock_model w s3_uri model_name role_arn in
  count is_status_check (trace r) = S n /\
  slept (trace r) = (10 * Z.of_nat (S n))%Z /\
  result r
  = match d !! py "failureMessage" with
    | Some failure =>
        Raised (PyException (py "Failed to import model: " ++ failure))
    | None =>
        match d !! py "importedModelArn" with
        | Some arn => Returned arn
        | None => Raised (KeyError (py "importedModelArn"))
        end
    end.
Proof.
  intros job_name Hn Hget Hjob Hresp Hd Hstatus Hne r. subst r.
  rewrite (create_bedrock_model_client_error _ _ _ _ _ _ Hget).
  cbn [trace result fst snd count slept is_status_check].
  destruct (submit_and_wait_checks w s3_uri model_name role_arn job Hjob)
    as (-> & -> & ->).
  rewrite (poll_loop_settles w resp _ n Hn Hresp). unfold poll_turn.
  rewrite Hd, Hstatus, bool_decide_eq_false_2 by done.
  cbn [trace result fst snd]. rewrite !count_app, !slept_app.
  destruct (count_turns (job !! py "jobArn") n) as [-> ->].
  destruct (d !! py "failureMessage") as [failure |];
    cbn [trace result fst snd count slept is_status_check app];
    rewrite ?Hstatus; repeat split; lia.
Qed.

Lemma create_bedrock_model_settles_witness :
  result (create_bedrock_model (settling_world 5 (Reply failed_silently))
            (py "s3://b/models/m") (py "m") (py "arn:aws:iam::role/MyImportModelRole"))
  = Returned (py "arn:aws:bedrock:imported-model/m") /\
  result (create_bedrock_model (settling_world 5 (Reply failed))
            (py "s3://b/models/m") (py "m") (py "arn:aws:iam::role/MyImportModelRole"))
  = Raised (PyException (py "Failed to import model: " ++ py "bad weights")).
Proof.
  split.
  - apply (create_bedrock_model_settles (settling_world 5 (Reply failed_silently))
             (py "s3://b/models/m") (py "m") (py "arn:aws:iam::role/MyImportModelRole")
             (py "ResourceNotFoundException") (py "model not found") (py "Failed")
             {[ py "jobArn" := py "arn:aws:bedrock:job/1" ]} failed_silently
             (fun _ => in_progress) 5); try reflexivity; try lia.
    + intros i Hi. cbn [get_model_import_job settling_world sample_world].
      destruct (Nat.ltb_spec i 5); [by split | lia].
    + vm_compute. discriminate.
  - apply (create_bedrock_model_settles (settling_world 5 (Reply failed))
             (py "s3://b/models/m") (py "m") (py "arn:aws:iam::role/MyImportModelRole")
             (py "ResourceNotFoundException") (py "model not found") (py "Failed")
             {[ py "jobArn" := py "arn:aws:bedrock:job/1" ]} failed
             (fun _ => in_progress) 5); try reflexivity; try lia.
    + intros i Hi. cbn [get_model_import_job settling_world sample_world].
      destruct (Nat.ltb_spec i 5); [by split | lia].
    + vm_compute. discriminate.
Defined.

(** X2: once the look-up has found no model, a failure of the remote
    calls is never retried.  When the submission of the job fails the
    call ends with that exception before any status check or sleep; when
    a status check fails after [n < 360] answers "InProgress" the call
    ends with that exception at its [n + 1]-th check. *)
Theorem create_bedrock_model_no_retry (w : world) (s3_uri model_name role_arn : str)
    (code message : str) :
  let job_name :=
    py "import-" ++ slice_to 20 model_name ++ py "-" ++ str_of_int (time_ns w) in
  let r := create_bedrock_model w s3_uri model_name role_arn in
  get_imported_model w model_name = Fault (ClientError code message) ->
  (forall e,
     create_model_import_job w job_name model_name role_arn s3_uri = Fault e ->
     result r = Raised e /\
     count is_status_check (trace r) = 0%nat /\ slept (trace r) = 0%Z /\
     count is_submission (trace r) = 1%nat) /\
  (forall (job : dict) (resp : nat -> dict) (n : nat) (e : exn),
     (n < 360)%nat ->
     create_model_import_job w job_name model_name role_arn s3_uri = Reply job ->
     (forall i, (i < n)%nat ->
        get_model_import_job w i (job !! py "jobArn") = Reply (resp i) /\
        resp i !! py "status" = Some (py "InProgress")) ->
     get_model_import_job w n (job !! py "jobArn") = Fault e ->
     result r = Raised e /\ count is_status_check (trace r) = S n).
Proof.
  intros job_name r Hget. subst r.
  rewrite (create_bedrock_model_client_error _ _ _ _ _ _ Hget).
  cbn [trace result fst snd count slept is_status_check is_submission]. split.
  - intros e Hjob. unfold submit_and_wait. fold job_name. rewrite Hjob.
    cbn. repeat split.
  - intros job resp n e Hn Hjob Hresp Hfault.
    destruct (submit_and_wait_checks w s3_uri model_name role_arn job Hjob)
      as (-> & _ & ->).
    rewrite (poll_loop_settles w resp _ n Hn Hresp). unfold poll_turn.
    rewrite Hfault. cbn [trace result fst snd]. rewrite count_app.
    destruct (count_turns (job !! py "jobArn") n) as [-> _].
    cbn. split; [done | lia].
Qed.

Lemma create_bedrock_model_no_retry_witness :
  result (create_bedrock_model refused_submission_world (py "s3://b/models/m") (py "m")
            (py "arn:aws:iam::role/MyImportModelRole"))
  = Raised (ClientError (py "ValidationException") (py "role cannot be assumed")) /\
  count is_status_check
    (trace (create_bedrock_model refused_submission_world (py "s3://b/models/m")
              (py "m") (py "arn:aws:iam::role/MyImportModelRole"))) = 0%nat.
Proof.
  destruct (create_bedrock_model_no_retry refused_submission_world
              (py "s3://b/models/m") (py "m") (py "arn:aws:iam::role/MyImportModelRole")
              (py "ResourceNotFoundException") (py "model not found") eq_refl)
    as [Hsubmit _].
  destruct (Hsubmit (ClientError (py "ValidationException")
                       (py "role cannot be assumed")) eq_refl) as (Hr & Hc & _).
  split; [exact Hr | exact Hc].
Defined.

(** X3: the look-up of an existing model lets only client errors pass
    for "no such model".  An answer without [modelArn] ends the call in
    [KeyError], and a failure that is no client error ends it with that
    failure; in both cases no import job is submitted. *)
Theorem create_bedrock_model_lookup_edges (w : world)
    (s3_uri model_name role_arn : str) :
  let r := create_bedrock_model w s3_uri model_name role_arn in
  (forall d : dict,
     get_imported_model w model_name = Reply d -> d !! py "modelArn" = None ->
     result r = Raised (KeyError (py "modelArn")) /\
     count is_submission (trace r) = 0%nat) /\
  (forall e : exn,
     get_imported_model w model_name = Fault e ->
     (forall code message, e <> ClientError code message) ->
     result r = Raised e /\ count is_submission (trace r) = 0%nat).
Proof.
  intros r. subst r. split.
  - intros d Hget Hkey. unfold create_bedrock_model. rewrite Hget.
    cbn [call bind try_except print emit app]. unfold getitem. rewrite Hkey.
    cbn. by split.
  - intros e Hget He.
    rewrite (create_bedrock_model_other_fault w _ _ _ e Hget He). by split.
Qed.

Lemma create_bedrock_model_lookup_edges_witness :
  result (create_bedrock_model nameless_model_world (py "s3://b/models/m") (py "m")
            (py "arn:aws:iam::role/MyImportModelRole"))
  = Raised (KeyError (py "modelArn")) /\
  result (create_bedrock_model offline_lookup_world (py "s3://b/models/m") (py "m")
            (py "arn:aws:iam::role/MyImportModelRole"))
  = Raised (OtherError (py "EndpointConnectionError")).
Proof.
  destruct (create_bedrock_model_lookup_edges nameless_model_world
              (py "s3://b/models/m") (py "m") (py "arn:aws:iam::role/MyImportModelRole"))
    as [Hkey _].
  destruct (create_bedrock_model_lookup_edges offline_lookup_world
              (py "s3://b/models/m") (py "m") (py "arn:aws:iam::role/MyImportModelRole"))
    as [_ Hfault].
  split.
  - apply (Hkey {[ py "modelName" := py "m" ]}); vm_compute; reflexivity.
  - apply (Hfault (OtherError (py "EndpointConnectionError"))); [reflexivity |].
    discriminate.
Defined.

(** * Properties of the provisioner *)

(** X4: the provisioner creates nothing unless the look-up of the role
    raised the client error [NoSuchEntity].  When the look-up succeeds
    the call returns the ARN found, for whatever bucket, and neither
    creates a role nor writes a policy; when it fails in any other way
    the call ends with that failure, again without creating anything. *)
Theorem get_bedrock_import_role_only_if_missing (w : world) (s3_bucket : str) :
  (forall message,
     get_role w IMPORT_MODEL_ROLE_NAME
     <> Fault (ClientError (py "NoSuchEntity") message)) ->
  let r := get_bedrock_import_role w s3_bucket in
  trace r = [GetRole IMPORT_MODEL_ROLE_NAME] /\
  count is_provisioning (trace r) = 0%nat /\
  result r = match get_role w IMPORT_MODEL_ROLE_NAME with
             | Reply found => Returned (Arn found)
             | Fault e => Raised e
             end.
Proof.
  intros Hmissing r. subst r. unfold get_bedrock_import_role.
  destruct (get_role w IMPORT_MODEL_ROLE_NAME) as [found | e]; [by repeat split |].
  destruct e; try by repeat split.
  cbn [call bind try_except]. unfold str_eqb. case_bool_decide as Hcode.
  - subst code. by destruct (Hmissing message).
  - by repeat split.
Qed.

Lemma get_bedrock_import_role_only_if_missing_witness :
  result (get_bedrock_import_role denied_role_world (py "my-bucket"))
  = Raised (ClientError (py "AccessDenied") (py "not authorized")) /\
  count is_provisioning (trace (get_bedrock_import_role denied_role_world (py "my-bucket")))
  = 0%nat.
Proof.
  destruct (get_bedrock_import_role_only_if_missing denied_role_world (py "my-bucket"))
    as (_ & Hc & Hr).
  - intros message. discriminate.
  - split; [exact Hr | exact Hc].
Defined.


(** X6: a role left without its policy stays so.  When the policy
    cannot be written, the first call has created the role and ends with
    the failure of [put_role_policy]; IAM then holds the role without
    policy, and every later call finds the role, returns its ARN and
    writes nothing, even when writing would now succeed. *)
Theorem get_bedrock_import_role_half_created (e : exn) (s3_bucket : str) :
  let nothing := {| role_there := false; policy_there := false |} in
  let first := get_bedrock_import_role (iam_world nothing (Fault e)) s3_bucket in
  let state := provisioned (trace first) (Fault e) nothing in
  let second := get_bedrock_import_role (iam_world state (Reply tt)) s3_bucket in
  result first = Raised e /\
  count is_provisioning (trace first) = 2%nat /\
  state = {| role_there := true; policy_there := false |} /\
  result second = Returned (Arn import_role) /\
  count is_provisioning (trace second) = 0%nat /\
  provisioned (trace second) (Reply tt) state = state.
Proof. cbn zeta. repeat split. Qed.

(** X7: the creation of the role.  When the look-up raises
    [NoSuchEntity] and the creation succeeds, the policy is written
    under the name that the answer of the creation gives to the role,
    followed by [S3BucketPolicy], and for the bucket of the call; the
    call returns the ARN of the answer when the policy is written and
    ends with the failure of [put_role_policy] otherwise, the role being
    created by then.  The policy written is the one that the clean-up
    deletes exactly when the answer names the role [MyImportModelRole]. *)
Theorem get_bedrock_import_role_creation (w : world) (s3_bucket message : str)
    (created : role) :
  get_role w IMPORT_MODEL_ROLE_NAME = Fault (ClientError (py "NoSuchEntity") message) ->
  create_role w IMPORT_MODEL_ROLE_NAME = Reply created ->
  let policy := RoleName created ++ py "S3BucketPolicy" in
  let r := get_bedrock_import_role w s3_bucket in
  trace r
  = [GetRole IMPORT_MODEL_ROLE_NAME; CreateRole IMPORT_MODEL_ROLE_NAME;
     PutRolePolicy (RoleName created) policy s3_bucket] /\
  result r = match put_role_policy w (RoleName created) policy s3_bucket with
             | Reply _ => Returned (Arn created)
             | Fault e => Raised e
             end /\
  (policy = POLICY_NAME <-> RoleName created = IMPORT_MODEL_ROLE_NAME).
Proof.
  intros Hget Hcreate policy r. subst r. unfold get_bedrock_import_role.
  rewrite Hget. cbn [call bind try_except]. unfold str_eqb.
  rewrite bool_decide_eq_true_2 by done. cbn [bind ret app]. rewrite Hcreate.
  cbn [call bind app]. fold policy.
  destruct (put_role_policy w (RoleName created) policy s3_bucket) as [[] | e];
    cbn [call bind ret app trace result fst snd]; repeat split;
    try (intros H; unfold policy in *).
  all: try (change POLICY_NAME with (IMPORT_MODEL_ROLE_NAME ++ py "S3BucketPolicy") in H;
            by apply app_inv_tail in H).
  all: by rewrite H.
Qed.

Lemma get_bedrock_import_role_creation_witness :
  result (get_bedrock_import_role renaming_world (py "my-bucket"))
  = Raised (OtherError (py "ReadTimeoutError")) /\
  trace (get_bedrock_import_role renaming_world (py "my-bucket"))
  = [GetRole IMPORT_MODEL_ROLE_NAME; CreateRole IMPORT_MODEL_ROLE_NAME;
     PutRolePolicy (py "Other") (py "Other" ++ py "S3BucketPolicy") (py "my-bucket")].
Proof.
  destruct (get_bedrock_import_role_creation renaming_world (py "my-bucket")
              (py "role not found")
              {| RoleName := py "Other";
                 Arn := py "arn:aws:iam::123456789012:role/Other" |}
              eq_refl eq_refl) as (Ht & Hr & _).
  split; [exact Hr | exact Ht].
Defined.

(** * Further properties of the stager *)

Lemma upload_to_s3_twice_witness :
  count is_upload
    (trace
       (upload_to_s3
          (store_world [py "config.json"; py "model.safetensors"]
             (transferred
                (trace
                   (upload_to_s3
                      (store_world [py "config.json"; py "model.safetensors"]
                         {[ (py "my-bucket", py "models/foo-bar-1/config.json") ]})
                      (py "/cache/snapshot") (py "my-bucket") (py "foo-bar-1")))
                {[ (py "my-bucket", py "models/foo-bar-1/config.json") ]}))
          (py "/cache/snapshot") (py "my-bucket") (py "foo-bar-1"))) = 0%nat.
Proof.
  destruct (upload_to_s3_twice [py "config.json"; py "model.safetensors"]
              {[ (py "my-bucket", py "models/foo-bar-1/config.json") ]}
              (py "/cache/snapshot") (py "my-bucket") (py "foo-bar-1")
              (py "my-bucket") (py "models/foo-bar-1") eq_refl)
    as (_ & _ & _ & Hc & _).
  - discriminate.
  - repeat (apply Forall_cons_2; [reflexivity |]). apply Forall_nil_2.
  - exact Hc.
Defined.

(** The files that the walk hands on were answered with 404. *)
Lemma probe_files_missing (w : world) (bucket key : str) (files : list str) :
  forall acc out : list str,
    result (probe_files w bucket key files acc) = Returned out ->
    forall f, f ∈ out -> f ∈ acc \/ (f ∈ files /\ probe w bucket key f = Missing).
Proof.
  induction files as [| file files IH]; intros acc out.
  - cbn. intros [= <-] f Hf. by left.
  - rewrite probe_files_step.
    destruct (probe w bucket key file) eqn:Hprobe; cbn [result snd];
      try discriminate; intros Hout f Hf;
      destruct (IH _ _ Hout f Hf) as [Hacc | [Hin Hmiss]];
      try (by left); try (right; split; [by right | done]).
    apply elem_of_app in Hacc as [Hacc | Hhere]; [by left |].
    apply list_elem_of_singleton in Hhere as ->. right. split; [by left | done].
Qed.

Lemma probe_missing_inv (w : world) (bucket key file : str) :
  probe w bucket key file = Missing ->
  exists code message,
    head_object w bucket (key ++ [sep] ++ file) = Fault (ClientError code message) /\
    python_int w code = Reply 404%Z.
Proof.
  unfold probe, classify.
  destruct (head_object w bucket (key ++ [sep] ++ file)) as [[] | e]; [done |].
  destruct e; try done. destruct (python_int w code) as [n | raised] eqn:Hcode; [| done].
  destruct (Z.eqb_spec n 404) as [-> | Hne]; [| done].
  intros _. by exists code, message.
Qed.

(** X9: never overwrite.  Whatever the services answer, every file that
    a stage call hands to the transfer manager is a walked file whose
    probe raised a client error with a code that reads as 404; a file
    whose probe succeeded or failed otherwise is never transferred.  The
    object is written under [os.path.join] of the key and the file. *)
Theorem upload_to_s3_only_missing (w : world) (local_path s3_bucket model_name : str)
    (ev : event) :
  ev ∈ keep is_upload (trace (upload_to_s3 w local_path s3_bucket model_name)) ->
  exists bucket key file code message,
    s3_uri_to_bucket_and_key (s3_bucket ++ [sep] ++ py "models/" ++ model_name)
    = [bucket; key] /\
    file ∈ walk w local_path /\
    head_object w bucket (key ++ [sep] ++ file) = Fault (ClientError code message) /\
    python_int w code = Reply 404%Z /\
    ev = Upload (path_join local_path file) bucket (path_join key file).
Proof.
  unfold upload_to_s3, s3_uri_to_bucket_and_key.
  destruct (unpack2_split1 sep
              (normpath (removeprefix (s3_bucket ++ [sep] ++ py "models/" ++ model_name)
                           (py "s3://"))))
    as [(a & b & -> & _) | [-> _]].
  2:{ rewrite trace_bind. cbn. intros H. by apply elem_of_nil in H. }
  rewrite trace_bind. cbn [unpack2 ret trace result fst snd app].
  rewrite trace_bind. cbn [print emit trace result fst snd app keep is_upload].
  rewrite trace_bind, keep_app, probe_files_quiet. cbn [app].
  destruct (result (probe_files w a b (walk w local_path) [])) as [out | e |] eqn:Hout;
    try (intros H; by apply elem_of_nil in H).
  pose proof (probe_files_missing w a b _ _ _ Hout) as Hmissing.
  rewrite trace_bind, keep_app.
  destruct out as [| f out].
  - cbn. intros H. by apply elem_of_nil in H.
  - rewrite trace_bind, fast_upload_run.
    cbn [emit trace result fst snd keep is_upload app].
    rewrite keep_uploads, app_nil_r. unfold uploads.
    intros (file & -> & Hfile)%list_elem_of_fmap.
    destruct (Hmissing file Hfile) as [Hnil | [Hwalk Hprobe]];
      [by apply elem_of_nil in Hnil |].
    apply probe_missing_inv in Hprobe as (code & message & Hhead & Hcode).
    by exists a, b, file, code, message.
Qed.

Lemma upload_to_s3_only_missing_witness :
  exists bucket key file code message,
    s3_uri_to_bucket_and_key (py "my-bucket" ++ [sep] ++ py "models/" ++ py "foo-bar-1")
    = [bucket; key] /\
    file ∈ walk mixed_world (py "/cache/snapshot") /\
    head_object mixed_world bucket (key ++ [sep] ++ file)
    = Fault (ClientError code message) /\
    python_int mixed_world code = Reply 404%Z /\
    Upload (py "/cache/snapshot/model.safetensors") (py "my-bucket")
      (py "models/foo-bar-1/model.safetensors")
    = Upload (path_join (py "/cache/snapshot") file) bucket (path_join key file).
Proof.
  apply (upload_to_s3_only_missing mixed_world (py "/cache/snapshot") (py "my-bucket")
           (py "foo-bar-1")).
  vm_compute. apply list_elem_of_here.
Defined.

(** X10: all or nothing.  The transfers start only when the whole walk
    is done: a stage call that ends with an exception, be it at the
    unpacking of its destination or at any probe, has handed no file to
    the transfer manager, not even the files found missing before. *)
Theorem upload_to_s3_raises_before_transfers (w : world)
    (local_path s3_bucket model_name : str) (e : exn) :
  result (upload_to_s3 w local_path s3_bucket model_name) = Raised e ->
  count is_upload (trace (upload_to_s3 w local_path s3_bucket model_name)) = 0%nat.
Proof.
  unfold upload_to_s3, s3_uri_to_bucket_and_key.
  destruct (unpack2_split1 sep
              (normpath (removeprefix (s3_bucket ++ [sep] ++ py "models/" ++ model_name)
                           (py "s3://"))))
    as [(a & b & -> & _) | [-> _]]; [| intros _; by rewrite trace_bind].
  rewrite result_bind, trace_bind. cbn [unpack2 ret trace result fst snd app].
  rewrite result_bind, trace_bind. cbn [print emit trace result fst snd app].
  cbn [count is_upload].
  rewrite result_bind, trace_bind, count_app.
  assert (Hquiet : count is_upload (trace (probe_files w a b (walk w local_path) [])) = 0%nat).
  { pose proof (probe_files_quiet w a b (walk w local_path) []) as Hk.
    induction (trace (probe_files w a b (walk w local_path) [])) as [| ev t IH];
      [done |].
    cbn [keep count] in *. destruct (is_upload ev); [done | by apply IH]. }
  rewrite Hquiet.
  destruct (result (probe_files w a b (walk w local_path) [])) as [out | e' |];
    [| done | done].
  rewrite result_bind.
  destruct out as [| f out].
  - cbn. discriminate.
  - rewrite result_bind, fast_upload_run. cbn [emit result snd ret]. discriminate.
Qed.

Lemma upload_to_s3_raises_before_transfers_witness :
  count is_upload
    (trace (upload_to_s3 offline_world (py "/cache/snapshot") (py "my-bucket")
              (py "foo-bar-1"))) = 0%nat.
Proof.
  apply (upload_to_s3_raises_before_transfers offline_world (py "/cache/snapshot")
           (py "my-bucket") (py "foo-bar-1")
           (OtherError (py "EndpointConnectionError"))).
  vm_compute. reflexivity.
Defined.

(** X11: the unpacking of the destination cannot fail on a sanitized
    name.  For every bucket argument, empty or odd as it may be, and
    every non-empty identifier, the destination built from the sanitized
    identifier decomposes into a bucket and a key, and the key ends in
    [models/<sanitized identifier>]. *)
Theorem staging_root_sanitized (s3_uri model_id : str) :
  model_id <> [] ->
  exists bucket key,
    staging_root s3_uri model_id = [bucket; key] /\
    exists before,
      bucket ++ sep :: key
      = before ++ py "models" ++ sep :: sanitize_model_id model_id.
Proof.
  intros Hne.
  assert (Hsan : sanitize_model_id model_id <> []).
  { intros H. apply (f_equal length) in H.
    rewrite sanitize_model_id_length in H. by destruct model_id. }
  pose proof (plain_sanitized model_id Hne) as Hname.
  unfold staging_root, s3_uri_to_bucket_and_key.
  destruct (destination_tail s3_uri (sanitize_model_id model_id)) as [pre Hsplit].
  set (path := removeprefix _ _) in *.
  rewrite split_app_sep, (split_word sep (py "models")),
    (split_word sep (sanitize_model_id model_id)) in Hsplit
    by (apply plain_models || apply Hname).
  assert (Hnorm : exists before,
             normpath path
             = before ++ py "models" ++ sep :: sanitize_model_id model_id).
  { unfold normpath, str_eqb. case_bool_decide as Hempty.
    - rewrite Hempty in Hsplit. by destruct pre as [| ? [| ? ?]].
    - cbn zeta. rewrite Hsplit, fold_left_app. cbn [fold_left app].
      rewrite !normpath_step_plain by (apply plain_models || apply Hname).
      set (n := if startswith path [sep] then _ else _).
      set (acc := fold_left (normpath_step n) pre []).
      assert (Hjoin : join [sep] ((acc ++ [py "models"]) ++ [sanitize_model_id model_id])
                      = match acc with
                        | [] => []
                        | _ :: _ => join [sep] acc ++ [sep]
                        end ++ py "models" ++ sep :: sanitize_model_id model_id).
      { rewrite join_snoc by (by destruct acc). destruct acc as [| c acc'].
        - reflexivity.
        - rewrite join_snoc by done. by rewrite <- !app_assoc. }
      rewrite Hjoin. case_bool_decide as Hnil.
      + apply app_eq_nil in Hnil as [_ Hnil]. apply app_eq_nil in Hnil as [_ Hnil].
        by apply app_eq_nil in Hnil as [Hnil _].
      + eexists. by rewrite app_assoc. }
  destruct Hnorm as [before Hnorm].
  destruct (split1_cases sep (normpath path)) as [[_ Hfree] | (a & b & -> & Hab & _)].
  - exfalso. apply Hfree. rewrite Hnorm. rewrite elem_of_app. right.
    rewrite elem_of_app. right. by left.
  - exists a, b. split; [done |]. exists before. by rewrite <- Hab.
Qed.

Lemma staging_root_sanitized_witness :
  exists bucket key,
    staging_root (py "") (py "org/name") = [bucket; key] /\
    exists before,
      bucket ++ sep :: key
      = before ++ py "models" ++ sep :: sanitize_model_id (py "org/name").
Proof. apply (staging_root_sanitized (py "") (py "org/name")). discriminate. Defined.

(** * The normal form of a location *)

Lemma kept_dotdot : kept dotdot.
Proof. split; [done |]. by intros [? | [? | ?%elem_of_nil]%elem_of_cons]%elem_of_cons. Qed.

Lemma collected_kept (n : nat) (comps : list str) :
  collected n comps -> Forall kept comps.
Proof.
  intros (k & plains & -> & Hplain & _). apply Forall_app. split.
  - apply Forall_forall. intros comp [-> _]%elem_of_replicate. apply kept_dotdot.
  - eapply Forall_impl; [done | apply plain_kept].
Qed.

Lemma last_replicate_dotdot (k : nat) : last (replicate (S k) dotdot) = Some dotdot.
Proof. by rewrite replicate_S_end, last_snoc. Qed.

Lemma normpath_step_collected (n : nat) (new_comps : list str) (comp : str) :
  collected n new_comps -> sep ∉ comp ->
  collected n (normpath_step n new_comps comp).
Proof.
  intros (k & plains & -> & Hplain & Hk) Hsep. unfold normpath_step, str_eqb.
  case_bool_decide as Hempty; [by exists k, plains |].
  case_bool_decide as Hdot; [by exists k, plains |]. cbn [orb].
  case_bool_decide as Hdotdot; cbn [negb orb].
  2:{ exists k, (plains ++ [comp]). rewrite app_assoc. repeat split; try done.
      apply Forall_app. split; [done |]. by apply Forall_cons_2. }
  subst comp. destruct (decide (plains = [])) as [-> | Hne].
  - rewrite app_nil_r. destruct k as [| k].
    + cbn [replicate]. rewrite (bool_decide_eq_true_2 ([] = [])) by done.
      cbn [negb andb orb]. rewrite andb_true_r.
      destruct (Nat.eqb_spec n 0%nat) as [-> | Hn].
      * by exists 1%nat, [].
      * by exists 0%nat, [].
    + rewrite (bool_decide_eq_false_2 (replicate (S k) dotdot = [])) by done.
      rewrite last_replicate_dotdot, (bool_decide_eq_true_2 (Some dotdot = Some dotdot))
        by done.
      cbn [negb andb orb]. rewrite orb_true_r.
      exists (S (S k)), []. rewrite app_nil_r, <- replicate_S_end.
      repeat split; [done |]. intros Hn. by specialize (Hk Hn).
  - destruct (exists_last Hne) as (init & p & ->).
    apply Forall_app in Hplain as [Hinit Hp]. apply Forall_cons in Hp as [Hp _].
    rewrite app_assoc.
    rewrite (bool_decide_eq_false_2 ((replicate k dotdot ++ init) ++ [p] = []))
      by (by destruct (replicate k dotdot ++ init)).
    rewrite last_snoc, (bool_decide_eq_false_2 (Some p = Some dotdot))
      by (intros [= ->]; by destruct Hp as (_ & _ & _ & H)).
    cbn [negb andb orb]. rewrite andb_false_r. cbn [orb].
    rewrite removelast_last. by exists k, init.
Qed.

Lemma normpath_fold_collected (n : nat) (comps : list str) :
  forall new_comps : list str,
    collected n new_comps -> Forall (fun comp => sep ∉ comp) comps ->
    collected n (fold_left (normpath_step n) comps new_comps).
Proof.
  induction comps as [| comp comps IH]; intros acc Hacc Hall; [done |].
  apply Forall_cons in Hall as [Hcomp Hall]. cbn [fold_left].
  apply IH; [by apply normpath_step_collected | done].
Qed.

Lemma normpath_fold_dotdots (k : nat) :
  forall j : nat,
    fold_left (normpath_step 0%nat) (replicate k dotdot) (replicate j dotdot)
    = replicate (j + k) dotdot.
Proof.
  induction k as [| k IH]; intros j; cbn [replicate fold_left].
  - by rewrite Nat.add_0_r.
  - replace (normpath_step 0%nat (replicate j dotdot) dotdot)
      with (replicate (S j) dotdot); [by rewrite IH, Nat.add_succ_r |].
    unfold normpath_step, str_eqb.
    rewrite (bool_decide_eq_false_2 (dotdot = empty)),
      (bool_decide_eq_false_2 (dotdot = dot)),
      (bool_decide_eq_true_2 (dotdot = dotdot)) by done.
    cbn [negb orb]. destruct j as [| j].
    + by rewrite (bool_decide_eq_true_2 (replicate 0%nat dotdot = [])).
    + rewrite (bool_decide_eq_false_2 (replicate (S j) dotdot = [])) by done.
      rewrite last_replicate_dotdot,
        (bool_decide_eq_true_2 (Some dotdot = Some dotdot)) by done.
      cbn [negb andb orb]. by rewrite orb_true_r, <- replicate_S_end.
Qed.

(** Collected components are collected again as they stand. *)
Lemma normpath_fold_again (n : nat) (comps : list str) :
  collected n comps -> fold_left (normpath_step n) comps [] = comps.
Proof.
  intros (k & plains & -> & Hplain & Hk). rewrite fold_left_app.
  destruct (Nat.eq_dec n 0%nat) as [-> | Hn].
  - pose proof (normpath_fold_dotdots k 0%nat) as Hrun.
    cbn [replicate Nat.add] in Hrun. rewrite Hrun. by apply normpath_fold_plain.
  - rewrite (Hk Hn). by apply normpath_fold_plain.
Qed.

Lemma normpath_fold_empties (n m : nat) (new_comps : list str) :
  fold_left (normpath_step n) (replicate m empty) new_comps = new_comps.
Proof. induction m as [| m IH]; [done |]. cbn [replicate fold_left]. apply IH. Qed.

Lemma split_slashes (n : nat) (s : str) :
  split sep (replicate n sep ++ s) = replicate n empty ++ split sep s.
Proof.
  induction n as [| n IH]; [done |]. cbn [replicate app].
  change (sep :: replicate n sep ++ s) with ([] ++ sep :: replicate n sep ++ s).
  by rewrite split_app_sep, IH.
Qed.

Lemma initial_slashes_again (n : nat) (rest : str) :
  (n <= 2)%nat -> startswith rest [sep] = false ->
  (if startswith (replicate n sep ++ rest) [sep]
   then if startswith (replicate n sep ++ rest) [sep; sep]
           && negb (startswith (replicate n sep ++ rest) [sep; sep; sep])
        then 2%nat else 1%nat
   else 0%nat) = n.
Proof.
  intros Hn Hrest. destruct n as [| [| [| n]]]; [| | | lia]; cbn [replicate app].
  - by rewrite Hrest.
  - destruct rest as [| x rest]; [reflexivity |].
    cbn [startswith] in Hrest |- *. rewrite andb_true_r in Hrest.
    rewrite ?N.eqb_refl, ?andb_true_r. cbn [andb negb]. by rewrite Hrest.
  - destruct rest as [| x rest]; [reflexivity |].
    cbn [startswith] in Hrest |- *. rewrite andb_true_r in Hrest.
    rewrite ?N.eqb_refl, ?andb_true_r. cbn [andb negb]. by rewrite Hrest.
Qed.

(** A result of [normpath] other than [.]: one or two slashes at most,
    then collected components. *)
Lemma normpath_form (path : str) :
  normpath path = dot \/
  exists (n : nat) (comps : list str),
    (n <= 2)%nat /\ collected n comps /\
    normpath path = replicate n sep ++ join [sep] comps.
Proof.
  unfold normpath, str_eqb. case_bool_decide; [by left |]. cbn zeta.
  case_bool_decide; [by left |]. right.
  set (n := if startswith path [sep] then _ else _).
  exists n, (fold_left (normpath_step n) (split sep path) []).
  split; [| split; [| reflexivity]].
  - unfold n. destruct (startswith path [sep]); [| lia].
    destruct (_ && _); lia.
  - apply normpath_fold_collected; [| apply split_free].
    exists 0%nat, []. split; [done | split; [constructor | done]].
Qed.

(** [normpath] leaves its own results as they are. *)
Lemma normpath_idempotent (path : str) : normpath (normpath path) = normpath path.
Proof.
  destruct (normpath_form path) as [-> | (n & comps & Hn & Hcomps & Hform)];
    [reflexivity |].
  pose proof (normpath_nonempty path) as Hne. rewrite Hform in Hne |- *.
  pose proof (collected_kept n comps Hcomps) as Hkept.
  unfold normpath, str_eqb.
  rewrite (bool_decide_eq_false_2 (replicate n sep ++ join [sep] comps = empty))
    by done.
  cbn zeta.
  rewrite (initial_slashes_again n _ Hn (join_kept_no_slash comps Hkept)).
  rewrite split_slashes, fold_left_app, normpath_fold_empties.
  destruct comps as [| c comps].
  - cbn [join split fold_left]. unfold normpath_step, str_eqb.
    rewrite (bool_decide_eq_true_2 ([] = empty)) by done. cbn [orb join].
    by rewrite bool_decide_eq_false_2.
  - rewrite split_join, normpath_fold_again; [| done | done |].
    + by rewrite bool_decide_eq_false_2.
    + eapply Forall_impl; [exact Hkept | by intros c' [_ H]].
Qed.

(** The location that a stage call returns decomposes into the bucket
    and the key it was made of. *)
Lemma s3_uri_to_bucket_and_key_location (s3_uri bucket key : str) :
  s3_uri_to_bucket_and_key s3_uri = [bucket; key] ->
  s3_uri_to_bucket_and_key (py "s3://" ++ bucket ++ [sep] ++ key) = [bucket; key].
Proof.
  unfold s3_uri_to_bucket_and_key. intros Hdec.
  destruct (split1_cases sep (normpath (removeprefix s3_uri (py "s3://"))))
    as [[Hone _] | (a & b & Htwo & Hpath & _)]; [by rewrite Hone in Hdec |].
  rewrite Htwo in Hdec. injection Hdec as -> ->.
  rewrite removeprefix_app. cbn [app]. rewrite <- Hpath, normpath_idempotent.
  exact Htwo.
Qed.

(** * Staging against reclamation *)







Section RoundTrip.

Variables (s3_uri bucket key : str) (icomps : list str).

Hypothesis Hrelative : startswith (removeprefix s3_uri (py "s3://")) [sep] = false.
Hypothesis Hlocation : s3_uri_to_bucket_and_key s3_uri = [bucket; key].
Hypothesis Hident : icomps <> [].
Hypothesis Hplain : Forall plain icomps.

Let model_id : str := join [sep] icomps.






End RoundTrip.


(** ** Staging against reclamation, end to end *)



(** * What a run asks for *)

Section Every.

Context (P : event -> Prop).

Lemma every_ret {A} (a : A) : every P (ret a).
Proof. constructor. Qed.

Lemma every_raise {A} (e : exn) : every P (@raise A e).
Proof. constructor. Qed.

Lemma every_emit (ev : event) : P ev -> every P (emit ev).
Proof. intros H. by apply Forall_cons_2. Qed.

Lemma every_call {A} (ev : event) (r : reply A) : P ev -> every P (call ev r).
Proof. intros H. destruct r; by apply Forall_cons_2. Qed.

Lemma every_getitem (d : dict) (key : str) : every P (getitem d key).
Proof. unfold getitem. destruct (d !! key); constructor. Qed.

Lemma every_bind {A B} (m : M A) (f : A -> M B) :
  every P m -> (forall a, result m = Returned a -> every P (f a)) ->
  every P (bind m f).
Proof.
  unfold every. intros Hm Hf. rewrite trace_bind. apply Forall_app. split; [done |].
  destruct (result m) as [a | e |]; [by apply Hf | constructor | constructor].
Qed.

Lemma every_try {A} (body : M A) (handler : exn -> option (M A)) :
  every P body ->
  (forall e k, result body = Raised e -> handler e = Some k -> every P k) ->
  every P (try_except body handler).
Proof.
  unfold every. destruct body as [t [a | e |]]; cbn [try_except]; try done.
  intros Ht Hk. destruct (handler e) as [[t' r] |] eqn:Hh; [| done].
  cbn [trace fst] in *. apply Forall_app. split; [done |].
  apply (Hk e (t', r)); [reflexivity | done].
Qed.

Hypothesis local : forall ev, is_local ev = true -> P ev.

Lemma every_print (text : str) : every P (print text).
Proof. apply every_emit. by apply local. Qed.

Lemma every_print_noend (text : str) : every P (print_noend text).
Proof. apply every_emit. by apply local. Qed.

Lemma every_download_model (w : world) (model_id : str) :
  P (SnapshotDownload model_id) -> every P (download_model w model_id).
Proof.
  intros Hget. unfold download_model.
  apply every_bind; [apply every_print | intros _ _].
  apply every_bind; [by apply every_call | intros local_path _].
  apply every_bind; [apply every_print | intros _ _]. apply every_ret.
Qed.

Lemma every_fast_upload (bucket key local_path : str) (files : list str) :
  (forall file, P (Upload (path_join local_path file) bucket (path_join key file))) ->
  every P (fast_upload bucket key local_path files).
Proof.
  intros Hput. induction files as [| file files IH]; cbn [fast_upload].
  - apply every_ret.
  - apply every_bind; [by apply every_emit | by intros _ _].
Qed.

Lemma every_probe_files (w : world) (bucket key : str) (files : list str) :
  (forall file, P (HeadObject bucket (key ++ [sep] ++ file))) ->
  forall files_to_upload, every P (probe_files w bucket key files files_to_upload).
Proof.
  intros Hhead. induction files as [| file files IH]; intros acc; cbn [probe_files].
  - apply every_ret.
  - apply every_bind; [| by intros acc' _].
    apply every_try.
    + apply every_bind; [by apply every_call | intros _ _; apply every_ret].
    + intros e k _. unfold probe_handler. destruct e; try done.
      intros [= <-]. destruct (python_int w code) as [n | raised]; [| apply every_raise].
      destruct (n =? 404)%Z; apply every_ret.
Qed.

Lemma every_upload_to_s3 (w : world) (local_path s3_bucket model_name : str) :
  (forall bucket key,
     s3_uri_to_bucket_and_key (s3_bucket ++ [sep] ++ py "models/" ++ model_name)
     = [bucket; key] ->
     forall file,
       P (HeadObject bucket (key ++ [sep] ++ file)) /\
       P (Upload (path_join local_path file) bucket (path_join key file))) ->
  every P (upload_to_s3 w local_path s3_bucket model_name).
Proof.
  intros Hdest. unfold upload_to_s3.
  destruct (s3_uri_to_bucket_and_key _) as [| bucket [| key [| ? ?]]] eqn:Hdec;
    try (apply every_bind; [apply every_raise | by intros ? [=]]).
  specialize (Hdest bucket key eq_refl).
  apply every_bind; [apply every_ret | intros pair [= <-]].
  apply every_bind; [apply every_print | intros _ _].
  apply every_bind; [apply every_probe_files; intros file; apply Hdest |].
  intros files _. apply every_bind; [| intros _ _; apply every_ret].
  destruct files as [| file files]; [apply every_print |].
  apply every_bind; [by apply every_emit, local | intros _ _].
  apply every_fast_upload. intros f. apply Hdest.
Qed.

Lemma every_get_bedrock_import_role (w : world) (s3_bucket : str) :
  P (GetRole IMPORT_MODEL_ROLE_NAME) -> P (CreateRole IMPORT_MODEL_ROLE_NAME) ->
  (forall name policy, P (PutRolePolicy name policy s3_bucket)) ->
  every P (get_bedrock_import_role w s3_bucket).
Proof.
  intros Hget Hcreate Hput. unfold get_bedrock_import_role.
  apply every_bind.
  - apply every_try.
    + apply every_bind; [by apply every_call | intros ? _; apply every_ret].
    + intros e k _. destruct e; try done.
      destruct (str_eqb code (py "NoSuchEntity")); [| done].
      intros [= <-]. apply every_ret.
  - intros [arn |] _; [apply every_ret |].
    apply every_bind; [by apply every_call | intros created _].
    apply every_bind; [by apply every_call | intros _ _]. apply every_ret.
Qed.

Hypothesis status_check : forall job, P (GetModelImportJob job).

Lemma every_poll_loop (w : world) (job_arn : option str) (fuel : nat) :
  forall (wait_secs : Z) (checks : nat) (job_response : option dict),
    every P (poll_loop w fuel job_arn wait_secs checks job_response).
Proof.
  induction fuel as [| fuel IH]; intros wait_secs checks job_response;
    unfold poll_loop; fold (poll_loop w);
    (destruct (wait_secs <? 3600)%Z; [| apply every_ret]).
  - constructor.
  - apply every_bind; [apply every_print_noend | intros _ _].
    apply every_bind; [by apply every_emit, local | intros _ _].
    apply every_bind; [by apply every_call | intros answer _].
    apply every_bind; [apply every_getitem | intros status _].
    destruct (negb (str_eqb status (py "InProgress"))); [| apply IH].
    apply every_bind; [apply every_print | intros _ _].
    destruct (answer !! py "failureMessage"); [| apply every_ret].
    apply every_bind; [apply every_print | intros _ _]. apply every_raise.
Qed.

Lemma every_create_bedrock_model (w : world) (s3_uri model_name role_arn : str) :
  P (GetImportedModel model_name) ->
  (forall job, P (CreateModelImportJob job model_name role_arn s3_uri)) ->
  every P (create_bedrock_model w s3_uri model_name role_arn).
Proof.
  intros Hget Hsubmit. unfold create_bedrock_model.
  apply every_bind.
  - apply every_try.
    + apply every_bind; [by apply every_call | intros answer _].
      apply every_bind; [apply every_print | intros _ _].
      apply every_bind; [apply every_getitem | intros arn _].
      apply every_bind; [apply every_print | intros _ _]. apply every_ret.
    + intros e k _. destruct e; try done. intros [= <-]. apply every_ret.
  - intros [arn |] _; [apply every_ret |]. unfold submit_and_wait.
    apply every_bind; [apply every_print | intros _ _].
    apply every_bind; [by apply every_call | intros job _].
    apply every_bind; [apply every_print_noend | intros _ _].
    apply every_bind; [apply every_poll_loop | intros [answer |] _];
      [| apply every_raise].
    apply every_bind; [apply every_getitem | intros status _].
    apply every_bind; [apply every_print | intros _ _].
    apply every_bind; [apply every_getitem | intros arn _].
    apply every_bind; [apply every_print | intros _ _]. apply every_ret.
Qed.

End Every.

(** Every request of an import is one of [import_request]. *)
Lemma import_model_to_bedrock_requests (w : world) (model_id s3_bucket : str) :
  every (import_request model_id s3_bucket)
    (import_model_to_bedrock w model_id s3_bucket).
Proof.
  assert (Hlocal : forall ev, is_local ev = true -> import_request model_id s3_bucket ev)
    by (by intros []).
  unfold import_model_to_bedrock.
  apply every_bind; [by apply every_download_model | intros local_path _].
  apply every_bind.
  { apply every_upload_to_s3; [done |]. intros bucket key Hdec file.
    split; by exists key, file. }
  intros location Hlocation.
  apply upload_to_s3_returns in Hlocation as (bucket & key & Hdec & ->).
  rewrite (s3_uri_to_bucket_and_key_location _ _ _ Hdec).
  apply every_bind; [apply every_ret | intros ? [= <-]].
  apply every_bind.
  { apply every_get_bedrock_import_role; try done. intros name policy. by exists key. }
  intros role_arn _. apply every_create_bedrock_model; try done.
  intros job. split; [done |]. by exists bucket, key.
Qed.

Lemma keep_nothing (p : event -> bool) (t : list event) :
  Forall (fun ev => p ev = false) t -> keep p t = [].
Proof.
  induction 1 as [| ev t Hev _ IH]; [done |]. cbn [keep]. by rewrite Hev.
Qed.

(** X12: one destination.  When the location and the identifier yield a
    staging bucket and key, every probe and every transfer of an import
    is made in that bucket under that key, the policy of a role that
    the import creates is written for that bucket, and the job is
    submitted for the location made of that bucket and key: the bucket
    that the import reads back from the location returned by the stage
    call is the bucket it staged in. *)
Theorem import_model_to_bedrock_one_destination (w : world)
    (model_id s3_bucket bucket root : str) (ev : event) :
  staging_root s3_bucket model_id = [bucket; root] ->
  ev ∈ trace (import_model_to_bedrock w model_id s3_bucket) ->
  at_destination bucket root ev.
Proof.
  intros Hroot Hev.
  pose proof (import_model_to_bedrock_requests w model_id s3_bucket) as Hall.
  unfold every in Hall. rewrite Forall_forall in Hall. specialize (Hall ev Hev).
  destruct ev; cbn [import_request at_destination] in *; try done.
  - destruct Hall as (r & file & Hdec & ->). rewrite Hroot in Hdec.
    injection Hdec as <- <-. split; [done | by exists file].
  - destruct Hall as (r & file & Hdec & ->). rewrite Hroot in Hdec.
    injection Hdec as <- <-. split; [done | by exists file].
  - destruct Hall as (r & Hdec). rewrite Hroot in Hdec. by injection Hdec as <- <-.
  - destruct Hall as (_ & b & r & Hdec & ->). rewrite Hroot in Hdec.
    by injection Hdec as <- <-.
Qed.

Lemma import_model_to_bedrock_one_destination_witness :
  at_destination (py "my-bucket") (py "models/foo-bar-1")
    (Upload (py "/cache/snapshot/model.safetensors") (py "my-bucket")
       (py "models/foo-bar-1/model.safetensors")).
Proof.
  apply (import_model_to_bedrock_one_destination mixed_world (py "foo-bar-1")
           (py "my-bucket")).
  - vm_compute. reflexivity.
  - vm_compute. repeat first [apply list_elem_of_here | apply list_elem_of_further].
Defined.


(** X14: no rollback.  Whatever the services answer and however the
    import ends, it asks for no deletion: what a failed import has
    transferred, and the role it has created, stay. *)
Theorem import_model_to_bedrock_never_deletes (w : world) (model_id s3_bucket : str) :
  keep is_deletion (trace (import_model_to_bedrock w model_id s3_bucket)) = [].
Proof.
  apply keep_nothing.
  eapply Forall_impl; [apply import_model_to_bedrock_requests |].
  by intros [].
Qed.



(** * The command line and the local cache *)

Lemma sh_trace_bind {A B} (m : Sh A) (f : A -> Sh B) :
  sh_trace (sh_bind m f)
  = sh_trace m ++ match sh_result m with Done a => sh_trace (f a) | _ => [] end.
Proof.
  destruct m as [t [a | e | code |]]; cbn; rewrite ?app_nil_r; try reflexivity.
  by destruct (f a).
Qed.

Lemma sh_result_bind {A B} (m : Sh A) (f : A -> Sh B) :
  sh_result (sh_bind m f)
  = match sh_result m with
    | Done a => sh_result (f a)
    | Failed e => Failed e
    | Exited code => Exited code
    | Unfinished => Unfinished
    end.
Proof. destruct m as [t [a | e | code |]]; cbn; try reflexivity. by destruct (f a). Qed.

Lemma sh_keep_app p t1 t2 : sh_keep p (t1 ++ t2) = sh_keep p t1 ++ sh_keep p t2.
Proof.
  induction t1 as [| ev t1 IH]; [done |]. cbn [sh_keep app].
  destruct (p ev); by rewrite IH.
Qed.

Lemma sh_keep_nothing (p : shell_event -> bool) (t : list shell_event) :
  Forall (fun ev => p ev = false) t -> sh_keep p t = [].
Proof.
  induction 1 as [| ev t Hev _ IH]; [done |]. cbn [sh_keep]. by rewrite Hev.
Qed.

(** ** [cleanup_local_resources] *)

Lemma find_in_cache_skip (sh : shell) (model_id : str) (before rest : list CachedRepoInfo) :
  Forall (fun repo => repo_id repo <> model_id) before ->
  find_in_cache sh (before ++ rest) model_id = find_in_cache sh rest model_id.
Proof.
  induction 1 as [| repo before Hrepo _ IH]; [done |].
  cbn [app find_in_cache]. unfold str_eqb. by rewrite bool_decide_eq_false_2.
Qed.

(** X16: the local clean-up hands over one list.  When the scan of the
    cache succeeds, the repositories are read in the order of iteration
    up to the first whose identifier equals [model_id]:
    [delete_revisions] is called once, whatever follows that repository
    in the cache, later repositories of the same identifier included,
    and its single argument is the list of the commit hashes, not the
    hashes one by one: the call of line 371 lacks the [*] that the
    signature [*revisions: str] asks for.  When [delete_revisions]
    raises for that argument, as it does where it makes a set of its
    arguments, the call ends with that error after the line that
    announces the deletion: no size is announced, nothing is executed,
    the cache stays as it was and nothing is caught. *)
Theorem cleanup_local_resources_first_match (sh : shell) (model_id : str)
    (before after : list CachedRepoInfo) (repo : CachedRepoInfo) :
  scan_cache_dir sh = Reply (before ++ repo :: after) ->
  Forall (fun r => repo_id r <> model_id) before ->
  repo_id repo = model_id ->
  let r := cleanup_local_resources sh model_id in
  sh_keep is_delete_revisions (sh_trace r)
  = [DeleteRevisions [Hashes (revisions repo)]] /\
  (forall e,
     delete_revisions sh [Hashes (revisions repo)] = Fault e ->
     r = ([Core (Print (py "Cleaning up local model resources..." ++ nl)); ScanCacheDir;
           Core (Print (py "Model found in cache, deleting it." ++ nl));
           DeleteRevisions [Hashes (revisions repo)]],
          Failed e)).
Proof.
  intros Hscan Hbefore Hrepo r. subst r. unfold cleanup_local_resources.
  rewrite Hscan. cbn [sh_call sh_print sh_emit sh_bind app].
  rewrite (find_in_cache_skip sh model_id before _ Hbefore).
  cbn [find_in_cache]. unfold str_eqb. rewrite bool_decide_eq_true_2 by done.
  destruct (delete_revisions sh [Hashes (revisions repo)]) as [strategy | e];
    cbn [sh_call sh_print sh_emit sh_bind sh_ret app sh_trace sh_result fst snd].
  - destruct (execute strategy) as [[] | e]; cbn; by split.
  - cbn. split; [done |]. by intros ? [= <-].
Qed.

Lemma cleanup_local_resources_first_match_witness :
  cleanup_local_resources
    (sample_shell (inr 2%Z) (Reply (py "eu-west-1")) sample_cache) (py "org/name")
  = ([Core (Print (py "Cleaning up local model resources..." ++ nl)); ScanCacheDir;
      Core (Print (py "Model found in cache, deleting it." ++ nl));
      DeleteRevisions [Hashes [py "aaaa"; py "bbbb"]]],
     Failed unhashable_list).
Proof.
  destruct (cleanup_local_resources_first_match
              (sample_shell (inr 2%Z) (Reply (py "eu-west-1")) sample_cache)
              (py "org/name")
              [ {| repo_id := py "org/other"; revisions := [py "0a1b"] |} ]
              [ {| repo_id := py "org/name"; revisions := [py "cccc"] |} ]
              {| repo_id := py "org/name"; revisions := [py "aaaa"; py "bbbb"] |})
    as (_ & H).
  - reflexivity.
  - apply Forall_cons_2; [by vm_compute | apply Forall_nil_2].
  - reflexivity.
  - exact (H unhashable_list eq_refl).
Defined.

(** X17: nothing to delete.  When the scan of the cache fails, the
    local clean-up ends with that failure; when no repository of the
    cache has the identifier, it reports that the model was not found
    and returns; in both cases the cache is left as it is. *)
Theorem cleanup_local_resources_no_match (sh : shell) (model_id : str) :
  let r := cleanup_local_resources sh model_id in
  (forall e, scan_cache_dir sh = Fault e ->
     sh_result r = Failed e /\ sh_keep is_cache_change (sh_trace r) = []) /\
  (forall repos,
     scan_cache_dir sh = Reply repos ->
     Forall (fun repo => repo_id repo <> model_id) repos ->
     r = ([Core (Print (py "Cleaning up local model resources..." ++ nl)); ScanCacheDir;
           Core (Print (py "Model not found in cache." ++ nl))], Done tt)).
Proof.
  intros r. subst r. unfold cleanup_local_resources. split.
  - intros e ->. by split.
  - intros repos -> Hnone. cbn [sh_call sh_print sh_emit sh_bind app].
    pose proof (find_in_cache_skip sh model_id repos [] Hnone) as Hskip.
    rewrite app_nil_r in Hskip. rewrite Hskip. reflexivity.
Qed.

(** ** The import comes to an end *)

Lemma wait_bounded_print (text : str) : wait_bounded 0 (print text).
Proof. by apply wait_bounded_emit. Qed.

Lemma wait_bounded_probe_files (w : world) (bucket key : str) (files : list str) :
  forall files_to_upload,
    wait_bounded 0 (probe_files w bucket key files files_to_upload).
Proof.
  induction files as [| file files IH]; intros acc; cbn [probe_files].
  - apply wait_bounded_ret.
  - apply (wait_bounded_bind 0 0); [| by intros acc'].
    apply (wait_bounded_try 0 0).
    + apply (wait_bounded_bind 0 0); [by apply wait_bounded_call |].
      intros _. apply wait_bounded_ret.
    + intros e k. unfold probe_handler. destruct e; try done.
      intros [= <-]. destruct (python_int w code) as [n | raised];
        [| apply wait_bounded_raise].
      destruct (n =? 404)%Z; apply wait_bounded_ret.
Qed.

Lemma wait_bounded_fast_upload (bucket key local_path : str) (files : list str) :
  wait_bounded 0 (fast_upload bucket key local_path files).
Proof.
  induction files as [| file files IH]; cbn [fast_upload].
  - apply wait_bounded_ret.
  - apply (wait_bounded_bind 0 0); [by apply wait_bounded_emit | by intros _].
Qed.

Lemma wait_bounded_upload_to_s3 (w : world) (local_path s3_bucket model_name : str) :
  wait_bounded 0 (upload_to_s3 w local_path s3_bucket model_name).
Proof.
  unfold upload_to_s3.
  apply (wait_bounded_bind 0 0).
  { destruct (s3_uri_to_bucket_and_key _) as [| bucket [| key [| ? ?]]];
      (apply wait_bounded_raise || apply wait_bounded_ret). }
  intros [bucket key].
  apply (wait_bounded_bind 0 0); [apply wait_bounded_print | intros _].
  apply (wait_bounded_bind 0 0); [apply wait_bounded_probe_files | intros files].
  apply (wait_bounded_bind 0 0); [| intros _; apply wait_bounded_ret].
  destruct files as [| file files]; [apply wait_bounded_print |].
  apply (wait_bounded_bind 0 0); [by apply wait_bounded_emit | intros _].
  apply wait_bounded_fast_upload.
Qed.

Lemma wait_bounded_get_bedrock_import_role (w : world) (s3_bucket : str) :
  wait_bounded 0 (get_bedrock_import_role w s3_bucket).
Proof.
  unfold get_bedrock_import_role. apply (wait_bounded_bind 0 0).
  - apply (wait_bounded_try 0 0).
    + apply (wait_bounded_bind 0 0); [by apply wait_bounded_call |].
      intros found. apply wait_bounded_ret.
    + intros e k. destruct e; try done.
      destruct (str_eqb code (py "NoSuchEntity")); [| done].
      intros [= <-]. apply wait_bounded_ret.
  - intros [arn |]; [apply wait_bounded_ret |].
    apply (wait_bounded_bind 0 0); [by apply wait_bounded_call | intros created].
    apply (wait_bounded_bind 0 0); [by apply wait_bounded_call | intros _].
    apply wait_bounded_ret.
Qed.

(** The import as a whole checks the status of its job at most 360
    times and always comes to an end. *)
Lemma import_model_to_bedrock_bounded (w : world) (model_id s3_bucket : str) :
  wait_bounded 360 (import_model_to_bedrock w model_id s3_bucket).
Proof.
  unfold import_model_to_bedrock, download_model.
  apply (wait_bounded_bind 0 360).
  { apply (wait_bounded_bind 0 0); [apply wait_bounded_print | intros _].
    apply (wait_bounded_bind 0 0); [by apply wait_bounded_call | intros local_path].
    apply (wait_bounded_bind 0 0); [apply wait_bounded_print | intros _].
    apply wait_bounded_ret. }
  intros local_path.
  apply (wait_bounded_bind 0 360); [apply wait_bounded_upload_to_s3 | intros s3_uri].
  apply (wait_bounded_bind 0 360).
  { destruct (s3_uri_to_bucket_and_key s3_uri);
      [apply wait_bounded_raise | apply wait_bounded_ret]. }
  intros bucket.
  apply (wait_bounded_bind 0 360);
    [apply wait_bounded_get_bedrock_import_role | intros role_arn].
  apply create_bedrock_model_bounded.
Qed.

(** ** What a run of the second layer asks for *)

Section ShEvery.

Context (P : shell_event -> Prop).

Lemma sh_every_ret {A} (a : A) : sh_every P (sh_ret a).
Proof. constructor. Qed.

Lemma sh_every_raise {A} (e : exn) : sh_every P (@sh_raise A e).
Proof. constructor. Qed.

Lemma sh_every_exit {A} (code : Z) : sh_every P (@sys_exit A code).
Proof. constructor. Qed.

Lemma sh_every_emit (ev : shell_event) : P ev -> sh_every P (sh_emit ev).
Proof. intros H. by apply Forall_cons_2. Qed.

Lemma sh_every_call {A} (ev : shell_event) (r : reply A) :
  P ev -> sh_every P (sh_call ev r).
Proof. intros H. destruct r; by apply Forall_cons_2. Qed.

Lemma sh_every_bind {A B} (m : Sh A) (f : A -> Sh B) :
  sh_every P m -> (forall a, sh_result m = Done a -> sh_every P (f a)) ->
  sh_every P (sh_bind m f).
Proof.
  unfold sh_every. intros Hm Hf. rewrite sh_trace_bind. apply Forall_app.
  split; [done |].
  destruct (sh_result m) as [a | e | code |]; [by apply Hf | | |]; constructor.
Qed.

Lemma sh_every_except_Exception {A} (body : Sh A) (handler : exn -> Sh A) :
  sh_every P body -> (forall e, sh_every P (handler e)) ->
  sh_every P (except_Exception body handler).
Proof.
  unfold sh_every. destruct body as [t [a | e | code |]]; cbn [except_Exception];
    try done.
  intros Ht Hh. specialize (Hh e). destruct (handler e) as [t' r].
  cbn [sh_trace fst] in *. apply Forall_app. by split.
Qed.

Lemma sh_every_lift {A} (m : M A) :
  Forall (fun ev => P (Core ev)) (trace m) -> sh_every P (lift m).
Proof. intros H. unfold sh_every, lift. cbn [sh_trace fst]. by apply Forall_fmap. Qed.

Hypothesis output : forall text, P (Core (Print text)).

Lemma sh_every_print (text : str) : sh_every P (sh_print text).
Proof. apply sh_every_emit, output. Qed.

Lemma sh_every_validate_aws_credentials (sh : shell) (str_of : exn -> str) :
  P GetCallerIdentity -> sh_every P (validate_aws_credentials sh str_of).
Proof.
  intros Hcall. unfold validate_aws_credentials. apply sh_every_except_Exception.
  - apply sh_every_bind; [by apply sh_every_call | intros region _].
    apply sh_every_print.
  - intros e. apply sh_every_bind; [apply sh_every_print | intros _ _].
    apply sh_every_exit.
Qed.

Lemma sh_every_find_in_cache (sh : shell) (model_id : str) (repos : list CachedRepoInfo) :
  (forall revisions, P (DeleteRevisions revisions)) ->
  sh_every P (find_in_cache sh repos model_id).
Proof.
  intros Hdelete. induction repos as [| repo repos IH]; cbn [find_in_cache].
  - apply sh_every_ret.
  - destruct (str_eqb (repo_id repo) model_id); [| done].
    apply sh_every_bind; [apply sh_every_print | intros _ _].
    apply sh_every_bind; [by apply sh_every_call | intros strategy _].
    apply sh_every_ret.
Qed.

Lemma sh_every_cleanup_local_resources (sh : shell) (model_id : str) :
  P ScanCacheDir -> (forall revisions, P (DeleteRevisions revisions)) -> P Execute ->
  sh_every P (cleanup_local_resources sh model_id).
Proof.
  intros Hscan Hdelete Hexecute. unfold cleanup_local_resources.
  apply sh_every_bind; [apply sh_every_print | intros _ _].
  apply sh_every_bind; [by apply sh_every_call | intros repos _].
  apply sh_every_bind; [by apply sh_every_find_in_cache | intros [strategy |] _].
  - apply sh_every_bind; [apply sh_every_print | intros _ _]. by apply sh_every_call.
  - apply sh_every_print.
Qed.

Lemma sh_every_test_model (sh : shell) (model_arn : str) :
  (forall body, P (InvokeModel model_arn body)) -> sh_every P (test_model sh model_arn).
Proof.
  intros Hinvoke. unfold test_model.
  apply sh_every_bind; [apply sh_every_print | intros _ _]. cbn zeta.
  apply sh_every_bind; [by apply sh_every_call | intros text _].
  apply sh_every_print.
Qed.

End ShEvery.

Lemma sh_result_bind_done {A B} (m : Sh A) (f : A -> Sh B) (b : B) :
  sh_result (sh_bind m f) = Done b ->
  exists a, sh_result m = Done a /\ sh_result (f a) = Done b.
Proof.
  rewrite sh_result_bind. destruct (sh_result m) as [a | e | code |]; try done.
  intros H. by exists a.
Qed.

(** [ran_cleanup] after the two clean-up blocks. *)
Lemma main_cleanup_resources_done (w : world) (sh : shell) (repr str_of : exn -> str)
    (a : args.t) (ran : bool) :
  sh_result (main_cleanup_resources w sh repr str_of a) = Done ran ->
  ran = args.cleanup_resources a.
Proof.
  unfold main_cleanup_resources.
  destruct (args.cleanup_resources a); [| by intros [= <-]].
  intros (_ & _ & H)%sh_result_bind_done.
  destruct (both_given a) as [s3_uri |].
  - apply sh_result_bind_done in H as (_ & _ & H).
    apply sh_result_bind_done in H as (_ & _ & H).
    apply sh_result_bind_done in H as (_ & _ & H). by injection H.
  - by apply sh_result_bind_done in H as (_ & _ & H).
Qed.

Lemma main_cleanup_model_done (sh : shell) (a : args.t) (ran_cleanup ran : bool) :
  sh_result (main_cleanup_model sh a ran_cleanup) = Done ran ->
  ran = args.cleanup_model a || ran_cleanup.
Proof.
  unfold main_cleanup_model.
  destruct (args.cleanup_model a); [| by intros [= <-]].
  intros (_ & _ & H)%sh_result_bind_done.
  apply sh_result_bind_done in H as (_ & _ & H).
  apply sh_result_bind_done in H as (_ & _ & H).
  apply sh_result_bind_done in H as (_ & _ & H). by injection H.
Qed.

Lemma cleanup_aws_resources_no_import (w : world) (repr : exn -> str)
    (s3_uri model_id : str) :
  Forall (fun ev => is_import_request ev = false)
    (trace (cleanup_aws_resources w repr s3_uri model_id)).
Proof.
  rewrite cleanup_aws_resources_run. cbn zeta.
  assert (Hfirst : Forall (fun ev => is_import_request ev = false)
                     (role_teardown repr
                        (delete_role_policy w IMPORT_MODEL_ROLE_NAME POLICY_NAME)
                        (delete_role w IMPORT_MODEL_ROLE_NAME))).
  { unfold role_teardown.
    destruct (delete_role_policy w IMPORT_MODEL_ROLE_NAME POLICY_NAME);
      destruct (delete_role w IMPORT_MODEL_ROLE_NAME);
      repeat (apply Forall_cons_2; [done |]); apply Forall_nil_2. }
  assert (Hsecond : Forall (fun ev => is_import_request ev = false)
                      (model_teardown repr model_id (delete_custom_model w model_id))).
  { unfold model_teardown. destruct (delete_custom_model w model_id);
      repeat (apply Forall_cons_2; [done |]); apply Forall_nil_2. }
  assert (Hthird : Forall (fun ev => is_import_request ev = false)
                     (objects_teardown repr s3_uri model_id (delete_objects w))).
  { unfold objects_teardown.
    destruct (s3_uri_to_bucket_and_key s3_uri) as [| b [| k [| ? ?]]];
      cbn zeta; try destruct (delete_objects w b _);
      repeat (apply Forall_cons_2; [done |]); apply Forall_nil_2. }
  destruct (boto3_client w (py "bedrock")) as [[] | e1];
    [destruct (boto3_resource w (py "s3")) as [[] | e2] |];
    cbn [trace fst]; (apply Forall_cons_2; [done |]);
    rewrite ?Forall_app; by repeat split.
Qed.

(** X18: the command either cleans up or imports.  With
    [--cleanup-resources] or [--cleanup-model] the command makes no
    request of an import and never tests a model, [--test] and all else
    notwithstanding; without them it asks for no deletion, remote or in
    the local cache, however the import ends. *)
Theorem main_cleans_or_imports (w : world) (sh : shell) (repr str_of : exn -> str)
    (quote_plus : str -> str) (a : args.t) :
  parse_args sh = inl a ->
  let r := main w sh repr str_of quote_plus in
  (args.cleanup_resources a || args.cleanup_model a = true ->
   sh_keep is_import (sh_trace r) = []) /\
  (args.cleanup_resources a || args.cleanup_model a = false ->
   sh_keep is_removal (sh_trace r) = []).
Proof.
  intros Hparse r. subst r. unfold main. rewrite Hparse.
  cbn [sh_emit sh_bind sh_ret except_bare app]. split; intros Hflags.
  - apply sh_keep_nothing.
    change (sh_every (fun ev => is_import ev = false)
              (sh_bind ([ParseArgs], Done a)
                 (fun a0 => sh_bind (main_cleanup_resources w sh repr str_of a0)
                    (fun ran => sh_bind (main_cleanup_model sh a0 ran)
                       (fun ran' => if negb ran' then
                                      main_import w sh repr str_of quote_plus a0
                                    else sh_ret tt))))).
    apply sh_every_bind; [by apply Forall_cons_2 | intros a0 [= <-]].
    apply sh_every_bind.
    { unfold main_cleanup_resources. destruct (args.cleanup_resources a);
        [| apply sh_every_ret].
      apply sh_every_bind; [by apply sh_every_print | intros _ _].
      destruct (both_given a) as [s3_uri |].
      - apply sh_every_bind;
          [by apply sh_every_validate_aws_credentials | intros _ _].
        apply sh_every_bind;
          [apply sh_every_lift, cleanup_aws_resources_no_import | intros _ _].
        apply sh_every_bind; [by apply sh_every_print | intros _ _].
        apply sh_every_ret.
      - apply sh_every_bind; [by apply sh_every_print | intros _ _].
        apply sh_every_exit. }
    intros ran Hran%main_cleanup_resources_done. apply sh_every_bind.
    { unfold main_cleanup_model. destruct (args.cleanup_model a);
        [| apply sh_every_ret].
      apply sh_every_bind; [by apply sh_every_print | intros _ _].
      apply sh_every_bind.
      { destruct (truthy (args.model_id a)); [apply sh_every_ret |].
        apply sh_every_bind; [by apply sh_every_print | intros _ _].
        apply sh_every_exit. }
      intros _ _.
      apply sh_every_bind;
        [by apply sh_every_cleanup_local_resources | intros _ _].
      apply sh_every_bind; [by apply sh_every_print | intros _ _].
      apply sh_every_ret. }
    intros ran' Hran'%main_cleanup_model_done. subst ran ran'.
    rewrite orb_comm, Hflags. apply sh_every_ret.
  - apply orb_false_iff in Hflags as [Hresources Hmodel].
    apply sh_keep_nothing.
    change (sh_every (fun ev => is_removal ev = false)
              (sh_bind ([ParseArgs], Done a)
                 (fun a0 => sh_bind (main_cleanup_resources w sh repr str_of a0)
                    (fun ran => sh_bind (main_cleanup_model sh a0 ran)
                       (fun ran' => if negb ran' then
                                      main_import w sh repr str_of quote_plus a0
                                    else sh_ret tt))))).
    apply sh_every_bind; [by apply Forall_cons_2 | intros a0 [= <-]].
    apply sh_every_bind.
    { unfold main_cleanup_resources. rewrite Hresources. apply sh_every_ret. }
    intros ran Hran%main_cleanup_resources_done. apply sh_every_bind.
    { unfold main_cleanup_model. rewrite Hmodel. apply sh_every_ret. }
    intros ran' Hran'%main_cleanup_model_done. subst ran ran'.
    rewrite Hresources, Hmodel. cbn [orb negb].
    unfold main_import. destruct (both_given a) as [s3_uri |].
    + apply sh_every_bind; [by apply sh_every_print | intros _ _].
      apply sh_every_bind; [by apply sh_every_print | intros _ _].
      apply sh_every_except_Exception.
      * apply sh_every_bind;
          [by apply sh_every_validate_aws_credentials | intros _ _].
        apply sh_every_bind.
        { apply sh_every_lift.
          eapply Forall_impl; [apply import_model_to_bedrock_requests |].
          by intros []. }
        intros model_arn _.
        apply sh_every_bind; [by apply sh_every_print | intros _ _].
        apply sh_every_bind.
        { destruct (split colon model_arn !! 3%nat);
            [apply sh_every_ret | apply sh_every_raise]. }
        intros region _.
        apply sh_every_bind; [by apply sh_every_print | intros _ _].
        destruct (args.test a); [| apply sh_every_ret].
        apply sh_every_bind; [by apply sh_every_print | intros _ _].
        by apply sh_every_test_model.
      * intros e. apply sh_every_bind; [by apply sh_every_print | intros _ _].
        apply sh_every_raise.
    + apply sh_every_bind; [by apply sh_every_print | intros _ _].
      apply sh_every_exit.
Qed.

Lemma main_cleans_or_imports_witness :
  let r :=
    main staged_world (sample_shell (inl cleanup_args) (Reply (py "eu-west-1")) [])
      class_name class_name id in
  (args.cleanup_resources cleanup_args || args.cleanup_model cleanup_args = true ->
   sh_keep is_import (sh_trace r) = []) /\
  (args.cleanup_resources cleanup_args || args.cleanup_model cleanup_args = false ->
   sh_keep is_removal (sh_trace r) = []).
Proof.
  exact (main_cleans_or_imports staged_world
           (sample_shell (inl cleanup_args) (Reply (py "eu-west-1")) [])
           class_name class_name id cleanup_args eq_refl).
Defined.

(** X19: leaving before any call.  A command line that [argparse]
    turns down, and a request for help, end with status 0 once the help
    is printed; a command without location, be it an import or a
    clean-up of the remote resources, ends with status 1 after console
    output only: no service is called and the cache is not read. *)
Theorem main_exits_before_any_call (w : world) (sh : shell) (repr str_of : exn -> str)
    (quote_plus : str -> str) :
  let r := main w sh repr str_of quote_plus in
  (forall code, parse_args sh = inr code -> r = ([ParseArgs; PrintHelp], Exited 0%Z)) /\
  (forall a,
     parse_args sh = inl a -> both_given a = None ->
     args.cleanup_resources a = true \/ args.cleanup_model a = false ->
     sh_result r = Exited 1%Z /\
     Forall (fun ev => is_console ev = true) (sh_trace r)).
Proof.
  intros r. subst r. unfold main. split.
  - intros code ->. reflexivity.
  - intros a -> Hnone Hflags.
    cbn [sh_emit sh_bind sh_ret except_bare app]. unfold main_cleanup_resources.
    destruct (args.cleanup_resources a).
    + rewrite Hnone. cbn. split; [done |]. by repeat apply Forall_cons_2.
    + destruct Hflags as [? | Hmodel]; [done |].
      unfold main_cleanup_model, main_import. rewrite Hmodel, Hnone.
      cbn. split; [done |]. by repeat apply Forall_cons_2.
Qed.

(** X20: without credentials.  When the call to STS fails, an import
    and a clean-up of the remote resources end with status 1 after the
    message about the credentials: nothing else is called, and in the
    import the [SystemExit] passes the [except Exception] of [main], so
    that no error is reported as such and nothing is raised. *)
Theorem main_without_credentials (w : world) (sh : shell) (repr str_of : exn -> str)
    (quote_plus : str -> str) (a : args.t) (s3_uri : str) (e : exn) :
  parse_args sh = inl a -> both_given a = Some s3_uri ->
  args.cleanup_resources a = true \/ args.cleanup_model a = false ->
  get_caller_identity sh = Fault e ->
  let r := main w sh repr str_of quote_plus in
  sh_result r = Exited 1%Z /\
  last (sh_trace r)
  = Some (Core (Print ((bcolors.FAIL
                        ++ py "Unable to locate AWS credentials, please configure them: "
                        ++ str_of e ++ bcolors.ENDC) ++ nl))) /\
  Forall (fun ev => is_console ev = true \/ ev = GetCallerIdentity) (sh_trace r).
Proof.
  intros Hparse Hboth Hflags Hsts r. subst r. unfold main. rewrite Hparse.
  cbn [sh_emit sh_bind sh_ret except_bare app]. unfold main_cleanup_resources.
  destruct (args.cleanup_resources a).
  - rewrite Hboth. unfold validate_aws_credentials. rewrite Hsts.
    cbn. repeat split.
    repeat (apply Forall_cons_2; [by (left + right) |]). apply Forall_nil_2.
  - destruct Hflags as [? | Hmodel]; [done |].
    unfold main_cleanup_model, main_import. rewrite Hmodel, Hboth.
    unfold validate_aws_credentials. rewrite Hsts.
    cbn. repeat split.
    repeat (apply Forall_cons_2; [by (left + right) |]). apply Forall_nil_2.
Qed.

Lemma main_without_credentials_witness :
  sh_result (main staged_world (sample_shell (inl import_args) (Fault no_credentials) [])
               class_name class_name id) = Exited 1%Z.
Proof.
  destruct (main_without_credentials staged_world
              (sample_shell (inl import_args) (Fault no_credentials) [])
              class_name class_name id import_args (py "s3://my-bucket/p")
              no_credentials) as (H & _).
  - reflexivity.
  - reflexivity.
  - by right.
  - reflexivity.
  - exact H.
Defined.

Lemma last_app_cons {A} (l1 l2 : list A) (x : A) :
  last (l1 ++ l2 ++ [x]) = Some x.
Proof. by rewrite app_assoc, last_snoc. Qed.

Ltac find_event :=
  cbn [app]; rewrite <- ?app_assoc; cbn [app];
  repeat first [ apply list_elem_of_here | apply list_elem_of_further
               | apply elem_of_app; right ].

(** X21: how an import is reported.  With credentials, an import that
    raises is reported by ["An error occurred: "] and [repr] of the
    exception, which is raised again: the command ends with the
    exception of the import.  An import that returns is reported as
    completed, and the link to the playground is made of the fourth
    field that the colons of the ARN give: for an ARN of fewer fields
    the command ends with [IndexError], reported in the same way, the
    import being done; otherwise it ends as [test_model] does with
    [--test], and returns without. *)
Theorem main_reports_import (w : world) (sh : shell) (repr str_of : exn -> str)
    (quote_plus : str -> str) (a : args.t) (s3_uri region_name : str) :
  parse_args sh = inl a ->
  args.cleanup_resources a = false -> args.cleanup_model a = false ->
  both_given a = Some s3_uri -> get_caller_identity sh = Reply region_name ->
  let run := import_model_to_bedrock w (args.model_id a) s3_uri in
  let r := main w sh repr str_of quote_plus in
  let report (e : exn) :=
    Core (Print ((bcolors.FAIL ++ py "An error occurred: " ++ repr e ++ bcolors.ENDC)
                 ++ nl)) in
  (forall e, result run = Raised e ->
     sh_result r = Failed e /\ last (sh_trace r) = Some (report e)) /\
  (forall model_arn, result run = Returned model_arn ->
     Core (Print ((bcolors.BOLD ++ py "Process completed successfully!" ++ bcolors.ENDC)
                  ++ nl)) ∈ sh_trace r /\
     match split colon model_arn !! 3%nat with
     | None =>
         sh_result r = Failed (OtherError (py "IndexError")) /\
         last (sh_trace r) = Some (report (OtherError (py "IndexError")))
     | Some _ =>
         sh_result r
         = if args.test a then sh_result (test_model sh model_arn) else Done tt
     end).
Proof.
  intros Hparse Hresources Hmodel Hboth Hsts run r report. subst r.
  unfold main. rewrite Hparse. cbn [sh_emit sh_bind sh_ret except_bare app].
  unfold main_cleanup_resources, main_cleanup_model, main_import.
  rewrite Hresources, Hmodel, Hboth. cbn [sh_bind sh_ret app negb].
  unfold validate_aws_credentials. rewrite Hsts.
  cbn [sh_call sh_print sh_emit sh_bind except_Exception app].
  fold run. unfold lift. destruct run as [t res]. cbn [trace result fst snd].
  split.
  - intros e ->. cbn [sh_bind except_Exception sh_print sh_emit sh_raise app].
    cbn [sh_result sh_trace fst snd]. split; [done |].
    by rewrite !app_comm_cons, app_assoc, last_snoc.
  - intros model_arn ->. cbn [sh_bind sh_print sh_emit app].
    destruct (split colon model_arn !! 3%nat) as [field |].
    + cbn [sh_bind sh_ret sh_print sh_emit app].
      destruct (args.test a).
      * cbn [sh_bind sh_ret sh_print sh_emit app].
        destruct (test_model sh model_arn) as [t' [[] | e | code |]];
          cbn [sh_bind except_Exception sh_print sh_emit sh_raise sh_result sh_trace
                 fst snd app]; (split; [| done]);
          find_event.
      * cbn [sh_bind except_Exception sh_ret sh_result sh_trace fst snd app].
        split; [| done].
        find_event.
    + cbn [sh_bind except_Exception sh_print sh_emit sh_raise sh_result sh_trace
             fst snd app].
      split; [| split; [done |]].
      * find_event.
      * rewrite !app_comm_cons. rewrite <- app_assoc. cbn [app].
        rewrite !app_comm_cons.
        change ([?x; ?y]) with ([x] ++ [y]).
        rewrite !app_assoc. apply last_snoc.
Qed.

Lemma main_reports_import_witness :
  sh_result (main short_arn_world
               (sample_shell (inl import_args) (Reply (py "eu-west-1")) [])
               class_name class_name id)
  = Failed (OtherError (py "IndexError")).
Proof.
  destruct (main_reports_import short_arn_world
              (sample_shell (inl import_args) (Reply (py "eu-west-1")) [])
              class_name class_name id import_args (py "s3://my-bucket/p")
              (py "eu-west-1") eq_refl eq_refl eq_refl eq_refl eq_refl) as [_ H].
  destruct (H (py "imported-model/old")) as [_ [Hr _]];
    [vm_compute; reflexivity | exact Hr].
Defined.

(** ** How the command ends *)

Section Exits.

Context (allowed : Prop).

Lemma exits_only_if_ret {A} (a : A) : exits_only_if allowed (sh_ret a).
Proof. done. Qed.

Lemma exits_only_if_raise {A} (e : exn) : exits_only_if allowed (@sh_raise A e).
Proof. done. Qed.

Lemma exits_only_if_exit {A} : allowed -> exits_only_if allowed (@sys_exit A 1).
Proof. by split. Qed.

Lemma exits_only_if_print (text : str) : exits_only_if allowed (sh_print text).
Proof. done. Qed.

Lemma exits_only_if_call {A} (ev : shell_event) (r : reply A) :
  exits_only_if allowed (sh_call ev r).
Proof. by destruct r. Qed.

Lemma exits_only_if_bind {A B} (m : Sh A) (f : A -> Sh B) :
  exits_only_if allowed m ->
  (forall a, sh_result m = Done a -> exits_only_if allowed (f a)) ->
  exits_only_if allowed (sh_bind m f).
Proof.
  unfold exits_only_if. rewrite sh_result_bind.
  destruct (sh_result m) as [a | e | code |]; try done. intros _ Hf. by apply Hf.
Qed.

Lemma exits_only_if_except_Exception {A} (body : Sh A) (handler : exn -> Sh A) :
  exits_only_if allowed body -> (forall e, exits_only_if allowed (handler e)) ->
  exits_only_if allowed (except_Exception body handler).
Proof.
  unfold exits_only_if. destruct body as [t [a | e | code |]];
    cbn [except_Exception sh_result snd]; try done.
  intros _ Hh. specialize (Hh e). by destruct (handler e).
Qed.

Lemma exits_only_if_lift {A} (m : M A) :
  result m <> OutOfFuel -> exits_only_if allowed (lift m).
Proof.
  unfold exits_only_if, lift. cbn [sh_result snd]. by destruct (result m).
Qed.

Lemma exits_only_if_find_in_cache (sh : shell) (model_id : str)
    (repos : list CachedRepoInfo) :
  exits_only_if allowed (find_in_cache sh repos model_id).
Proof.
  induction repos as [| repo repos IH]; cbn [find_in_cache]; [done |].
  destruct (str_eqb (repo_id repo) model_id); [| done].
  apply exits_only_if_bind; [apply exits_only_if_print | intros _ _].
  apply exits_only_if_bind; [apply exits_only_if_call | intros strategy _].
  apply exits_only_if_ret.
Qed.

Lemma exits_only_if_cleanup_local_resources (sh : shell) (model_id : str) :
  exits_only_if allowed (cleanup_local_resources sh model_id).
Proof.
  unfold cleanup_local_resources.
  apply exits_only_if_bind; [apply exits_only_if_print | intros _ _].
  apply exits_only_if_bind; [apply exits_only_if_call | intros repos _].
  apply exits_only_if_bind; [apply exits_only_if_find_in_cache |].
  intros [strategy |] _; [| apply exits_only_if_print].
  apply exits_only_if_bind; [apply exits_only_if_print | intros _ _].
  apply exits_only_if_call.
Qed.

Lemma exits_only_if_test_model (sh : shell) (model_arn : str) :
  exits_only_if allowed (test_model sh model_arn).
Proof.
  unfold test_model.
  apply exits_only_if_bind; [apply exits_only_if_print | intros _ _]. cbn zeta.
  apply exits_only_if_bind; [apply exits_only_if_call | intros text _].
  apply exits_only_if_print.
Qed.

Lemma exits_only_if_validate_aws_credentials (sh : shell) (str_of : exn -> str) :
  ((exists e, get_caller_identity sh = Fault e) -> allowed) ->
  exits_only_if allowed (validate_aws_credentials sh str_of).
Proof.
  intros Hsts. unfold validate_aws_credentials.
  destruct (get_caller_identity sh) as [region_name | e]; [done |].
  split; [done |]. apply Hsts. by exists e.
Qed.

End Exits.

(** X22: how the command ends.  The command always comes to an end.
    It leaves with status 0 exactly when [argparse] turned the command
    line down or printed its help, and otherwise with status 1, and
    only when an argument that it needs is missing or the call to STS
    failed: whatever else fails ends the command with an exception,
    none being turned into an exit status by [main]. *)
Theorem main_exit_status (w : world) (sh : shell) (repr str_of : exn -> str)
    (quote_plus : str -> str) :
  match sh_result (main w sh repr str_of quote_plus), parse_args sh with
  | Unfinished, _ => False
  | Exited code, inr _ => code = 0%Z
  | Exited code, inl a =>
      code = 1%Z /\
      (both_given a = None \/ exists e, get_caller_identity sh = Fault e)
  | _, inr _ => False
  | _, inl _ => True
  end.
Proof.
  unfold main. destruct (parse_args sh) as [a | code]; [| done].
  cbn [sh_emit sh_bind sh_ret except_bare app].
  set (allowed := both_given a = None \/ exists e, get_caller_identity sh = Fault e).
  enough (H : exits_only_if allowed
                (sh_bind ([ParseArgs], Done a)
                   (fun a0 => sh_bind (main_cleanup_resources w sh repr str_of a0)
                      (fun ran => sh_bind (main_cleanup_model sh a0 ran)
                         (fun ran' => if negb ran' then
                                        main_import w sh repr str_of quote_plus a0
                                      else sh_ret tt))))).
  { unfold exits_only_if in H. cbn [sh_bind] in H.
    by destruct (sh_result _). }
  assert (Hsts : (exists e, get_caller_identity sh = Fault e) -> allowed)
    by (by right).
  apply exits_only_if_bind; [done | intros a0 [= <-]].
  apply exits_only_if_bind.
  { unfold main_cleanup_resources. destruct (args.cleanup_resources a); [| done].
    apply exits_only_if_bind; [apply exits_only_if_print | intros _ _].
    destruct (both_given a) as [s3_uri |] eqn:Hboth.
    - apply exits_only_if_bind;
        [by apply exits_only_if_validate_aws_credentials | intros _ _].
      apply exits_only_if_bind.
      { apply exits_only_if_lift. rewrite cleanup_aws_resources_run. cbn zeta.
        by destruct (boto3_client w (py "bedrock")), (boto3_resource w (py "s3")). }
      intros _ _.
      apply exits_only_if_bind; [apply exits_only_if_print | intros _ _].
      apply exits_only_if_ret.
    - apply exits_only_if_bind; [apply exits_only_if_print | intros _ _].
      apply exits_only_if_exit. by left. }
  intros ran _. apply exits_only_if_bind.
  { unfold main_cleanup_model. destruct (args.cleanup_model a); [| done].
    apply exits_only_if_bind; [apply exits_only_if_print | intros _ _].
    apply exits_only_if_bind.
    { destruct (truthy (args.model_id a)) eqn:Hid; [done |].
      apply exits_only_if_bind; [apply exits_only_if_print | intros _ _].
      apply exits_only_if_exit. left. unfold both_given. by rewrite Hid. }
    intros _ _.
    apply exits_only_if_bind;
      [apply exits_only_if_cleanup_local_resources | intros _ _].
    apply exits_only_if_bind; [apply exits_only_if_print | intros _ _].
    apply exits_only_if_ret. }
  intros ran' _. destruct (negb ran'); [| done].
  unfold main_import. destruct (both_given a) as [s3_uri |] eqn:Hboth.
  - apply exits_only_if_bind; [apply exits_only_if_print | intros _ _].
    apply exits_only_if_bind; [apply exits_only_if_print | intros _ _].
    apply exits_only_if_except_Exception.
    + apply exits_only_if_bind;
        [by apply exits_only_if_validate_aws_credentials | intros _ _].
      apply exits_only_if_bind.
      { apply exits_only_if_lift. apply import_model_to_bedrock_bounded. }
      intros model_arn _.
      apply exits_only_if_bind; [apply exits_only_if_print | intros _ _].
      apply exits_only_if_bind.
      { by destruct (split colon model_arn !! 3%nat). }
      intros region _.
      apply exits_only_if_bind; [apply exits_only_if_print | intros _ _].
      destruct (args.test a); [| done].
      apply exits_only_if_bind; [apply exits_only_if_print | intros _ _].
      apply exits_only_if_test_model.
    + intros e. apply exits_only_if_bind; [apply exits_only_if_print | intros _ _].
      apply exits_only_if_raise.
  - apply exits_only_if_bind; [apply exits_only_if_print | intros _ _].
    apply exits_only_if_exit. by left.
Qed.

(** * The stages of an import *)

Lemma count_nothing (p : event -> bool) (t : list event) :
  Forall (fun ev => p ev = false) t -> count p t = 0%nat.
Proof.
  induction 1 as [| ev t Hev _ IH]; [done |]. cbn [count]. by rewrite Hev.
Qed.

(** An import whose download, stage call and provisioning succeed is
    these three runs followed by [create_bedrock_model] for the location
    staged, the sanitized identifier and the role found or made. *)
Lemma import_model_to_bedrock_run (w : world)
    (model_id s3_bucket local_path location bucket key role_arn : str) :
  snapshot_download w model_id = Reply local_path ->
  result (upload_to_s3 w local_path s3_bucket (sanitize_model_id model_id))
  = Returned location ->
  staging_root s3_bucket model_id = [bucket; key] ->
  result (get_bedrock_import_role w bucket) = Returned role_arn ->
  let controller :=
    create_bedrock_model w location (sanitize_model_id model_id) role_arn in
  import_model_to_bedrock w model_id s3_bucket
  = (downloaded model_id local_path
     ++ trace (upload_to_s3 w local_path s3_bucket (sanitize_model_id model_id))
     ++ trace (get_bedrock_import_role w bucket)
     ++ trace controller,
     result controller).
Proof.
  intros Hget Hstage Hroot Hrole controller.
  destruct (upload_to_s3_returns w _ _ _ _ Hstage) as (b & k & Hdec & Hlocation).
  unfold staging_root in Hroot. rewrite Hroot in Hdec. injection Hdec as <- <-.
  unfold import_model_to_bedrock, download_model. rewrite Hget.
  cbn [call bind print emit ret app].
  destruct (upload_to_s3 w local_path s3_bucket (sanitize_model_id model_id))
    as [t1 r1]. cbn [trace result fst snd] in *. subst r1.
  cbn [bind]. rewrite Hlocation at 1.
  rewrite (s3_uri_to_bucket_and_key_location _ _ _ Hroot). cbn [bind ret app].
  destruct (get_bedrock_import_role w bucket) as [t2 r2].
  cbn [trace result fst snd] in *. subst r2. cbn [bind].
  fold controller. destruct controller as [t3 r3]. cbn [trace result fst snd].
  unfold downloaded. by rewrite <- !app_assoc, ?app_nil_r.
Qed.

(** X23: an identifier whose name is taken.  When Bedrock already
    holds a model under the sanitized identifier, registered by an
    import of this identifier or of another with the same sanitized
    form ([org/name] and [org-name], say), the import returns the ARN
    of that model and submits no job; it does so last, once the
    snapshot is downloaded, the missing files are transferred and the
    role is found or made. *)
Theorem import_model_to_bedrock_existing_name (w : world)
    (model_id other s3_bucket local_path location bucket key role_arn model_arn : str)
    (answer : dict) :
  sanitize_model_id other = sanitize_model_id model_id ->
  get_imported_model w (sanitize_model_id other) = Reply answer ->
  answer !! py "modelArn" = Some model_arn ->
  snapshot_download w model_id = Reply local_path ->
  result (upload_to_s3 w local_path s3_bucket (sanitize_model_id model_id))
  = Returned location ->
  staging_root s3_bucket model_id = [bucket; key] ->
  result (get_bedrock_import_role w bucket) = Returned role_arn ->
  let r := import_model_to_bedrock w model_id s3_bucket in
  result r = Returned model_arn /\
  count is_submission (trace r) = 0%nat /\
  trace r
  = downloaded model_id local_path
    ++ trace (upload_to_s3 w local_path s3_bucket (sanitize_model_id model_id))
    ++ trace (get_bedrock_import_role w bucket)
    ++ [GetImportedModel (sanitize_model_id model_id);
        Print (py "Model " ++ sanitize_model_id model_id
               ++ py " already exists, skipping import." ++ nl);
        Print (py "Imported model ARN: " ++ model_arn ++ nl)].
Proof.
  intros Hname Hlookup Harn Hget Hstage Hroot Hrole r. subst r.
  rewrite Hname in Hlookup.
  rewrite (import_model_to_bedrock_run w model_id s3_bucket local_path location
             bucket key role_arn Hget Hstage Hroot Hrole).
  assert (Hcontroller :
            create_bedrock_model w location (sanitize_model_id model_id) role_arn
            = ([GetImportedModel (sanitize_model_id model_id);
                Print (py "Model " ++ sanitize_model_id model_id
                       ++ py " already exists, skipping import." ++ nl);
                Print (py "Imported model ARN: " ++ model_arn ++ nl)],
               Returned model_arn)).
  { unfold create_bedrock_model. rewrite Hlookup.
    cbn [call bind try_except print emit app]. unfold getitem. rewrite Harn.
    cbn. by rewrite <- !app_assoc. }
  rewrite Hcontroller. cbn [trace result fst snd]. split; [done |]. split; [| done].
  rewrite !count_app. cbn [count is_submission downloaded]. 
  rewrite (count_nothing is_submission (trace (upload_to_s3 _ _ _ _))),
    (count_nothing is_submission (trace (get_bedrock_import_role _ _))); [done | |].
  - apply every_get_bedrock_import_role; by try intros [].
  - apply every_upload_to_s3; [by intros [] |]. by intros.
Qed.

Lemma import_model_to_bedrock_existing_name_witness :
  result (import_model_to_bedrock registered_world (py "org-name") (py "s3://my-bucket/p"))
  = Returned (py "arn:aws:bedrock:eu-west-1:1:imported-model/old").
Proof.
  destruct (import_model_to_bedrock_existing_name registered_world
              (py "org-name") (py "org/name") (py "s3://my-bucket/p")
              (py "/cache/snapshot") (py "s3://my-bucket/p/models/org-name")
              (py "my-bucket") (py "p/models/org-name")
              (py "arn:aws:iam::role/MyImportModelRole")
              (py "arn:aws:bedrock:eu-west-1:1:imported-model/old")
              {[ py "modelArn" := py "arn:aws:bedrock:eu-west-1:1:imported-model/old" ]})
    as (H & _).
  - vm_compute. reflexivity.
  - reflexivity.
  - vm_compute. reflexivity.
  - reflexivity.
  - vm_compute. reflexivity.
  - vm_compute. reflexivity.
  - vm_compute. reflexivity.
  - exact H.
Defined.

(** X24: the first failure ends the import.  A download that fails
    ends the import before any request to AWS; a stage call that raises
    ends it before any request to IAM or Bedrock; a provisioning that
    raises ends it before any request to Bedrock; in each case the
    import ends with the exception of the stage, unchanged. *)
Theorem import_model_to_bedrock_first_failure (w : world) (model_id s3_bucket : str)
    (e : exn) :
  let r := import_model_to_bedrock w model_id s3_bucket in
  (snapshot_download w model_id = Fault e ->
   r = ([Print (py "Downloading model " ++ model_id ++ py " from Hugging Face..." ++ nl);
         SnapshotDownload model_id], Raised e)) /\
  (forall local_path,
     snapshot_download w model_id = Reply local_path ->
     result (upload_to_s3 w local_path s3_bucket (sanitize_model_id model_id))
     = Raised e ->
     result r = Raised e /\
     count is_iam_request (trace r) = 0%nat /\
     count is_bedrock_request (trace r) = 0%nat) /\
  (forall local_path location bucket key,
     snapshot_download w model_id = Reply local_path ->
     result (upload_to_s3 w local_path s3_bucket (sanitize_model_id model_id))
     = Returned location ->
     staging_root s3_bucket model_id = [bucket; key] ->
     result (get_bedrock_import_role w bucket) = Raised e ->
     result r = Raised e /\ count is_bedrock_request (trace r) = 0%nat).
Proof.
  intros r. subst r. split; [| split].
  - intros Hget. unfold import_model_to_bedrock, download_model. rewrite Hget.
    cbn [call bind print emit ret app]. by rewrite <- !app_assoc.
  - intros local_path Hget Hstage.
    assert (Hquiet : forall p,
              (forall ev, is_local ev = true -> p ev = false) ->
              (forall b k, p (HeadObject b k) = false) ->
              (forall f b k, p (Upload f b k) = false) ->
              count p (trace (upload_to_s3 w local_path s3_bucket
                                (sanitize_model_id model_id))) = 0%nat).
    { intros p Hlocal Hhead Hput. apply count_nothing.
      apply every_upload_to_s3; [done |]. by intros. }
    unfold import_model_to_bedrock, download_model. rewrite Hget.
    cbn [call bind print emit ret app].
    destruct (upload_to_s3 w local_path s3_bucket (sanitize_model_id model_id))
      as [t1 r1]. cbn [trace result fst snd] in *. subst r1.
    cbn [bind trace result fst snd]. rewrite <- !app_assoc. cbn [app count].
    split; [done |].
    rewrite !Hquiet; by try intros [].
  - intros local_path location bucket key Hget Hstage Hroot Hrole.
    assert (Hquiet : count is_bedrock_request
                       (trace (upload_to_s3 w local_path s3_bucket
                                 (sanitize_model_id model_id))) = 0%nat).
    { apply count_nothing. apply every_upload_to_s3; [by intros [] |]. by intros. }
    assert (Hcalm : count is_bedrock_request (trace (get_bedrock_import_role w bucket))
                    = 0%nat).
    { apply count_nothing. apply every_get_bedrock_import_role; by try intros []. }
    destruct (upload_to_s3_returns w _ _ _ _ Hstage) as (b & k & Hdec & Hlocation).
    unfold staging_root in Hroot. rewrite Hroot in Hdec. injection Hdec as <- <-.
    unfold import_model_to_bedrock, download_model. rewrite Hget.
    cbn [call bind print emit ret app].
    destruct (upload_to_s3 w local_path s3_bucket (sanitize_model_id model_id))
      as [t1 r1]. cbn [trace result fst snd] in *. subst r1.
    cbn [bind]. subst location.
    rewrite (s3_uri_to_bucket_and_key_location _ _ _ Hroot). cbn [bind ret app].
    destruct (get_bedrock_import_role w bucket) as [t2 r2].
    cbn [trace result fst snd] in *. subst r2.
    cbn [bind trace result fst snd]. split; [done |].
    rewrite <- !app_assoc, ?app_nil_r. cbn [app count is_bedrock_request].
    rewrite !count_app. lia.
Qed.
